(** * VibrationVIEW automation wrapper: model and checked properties

    A shallow embedding of [vibrationviewapi.py] (the session manager and
    the typed call surface of class [VibrationVIEW]) and of the two polling
    helpers of [tests/conftest.py] and [app.py].

    Python objects are rendered as a small value type, the instance
    dictionary of a session as a finite map from attribute names to
    values, exceptions as an error type, and every method as a computation
    in a state-and-exception monad over a [world] that records the
    requests sent to the automation endpoint, the wall clock, the sleeps,
    the per-thread registry and the transport (COM) calls. *)

From Stdlib Require Import ZArith QArith Lqa List Bool Lia.
From stdpp Require Import base gmap strings list.

Set Warnings "-register-all".
Local Open Scope string_scope.

(** ** Python values and exceptions *)

Inductive val : Type :=
  | VNone
  | VBool (b : bool)
  | VInt (z : Z)
  | VFloat (q : Q)
  | VStr (s : string)
  | VEnum (cls : string) (z : Z)        (* a member of an IntEnum class *)
  | VList (l : list val)
  | VDict (d : list (string * val))
  | VCom.                               (* the dispatch object of the endpoint *)

Inductive exn : Type :=
  | com_error (hresult : Z) (description : string)
  | AttributeError (name : string)
  | TypeError (what : string)
  | ValueError (what : string)
  | IndexError (what : string).

Inductive outcome (A : Type) : Type :=
  | Return (a : A)
  | Raise (e : exn).
Arguments Return {A} a.
Arguments Raise {A} e.

(** Truth value of an object, as [if x:] and [x and y] test it. *)
Definition truthy (v : val) : bool :=
  match v with
  | VNone => false
  | VBool b => b
  | VInt z => negb (z =? 0)%Z
  | VFloat q => negb (Qeq_bool q 0)
  | VStr s => negb (String.eqb s "")
  | VEnum _ z => negb (z =? 0)%Z
  | VList l => match l with [] => false | _ => true end
  | VDict d => match d with [] => false | _ => true end
  | VCom => true
  end.

(** Python's [int(x)].  The methods below take the builtin as a
    parameter, and the examples instantiate it with this function.

    A string is read in base 10: white space around it, a sign, and
    digits with single underscores between them; anything else is a
    ValueError.  Strings are taken to consist of ASCII characters (the
    digits and spaces of other scripts, which Python accepts as well, are
    not recognised), and Python's limit on the number of digits is left
    out. *)
Definition is_space (c : Ascii.ascii) : bool :=
  let n := Ascii.nat_of_ascii c in ((9 <=? n) && (n <=? 13) || (n =? 32))%nat.

Definition digit_of (c : Ascii.ascii) : option Z :=
  let n := Ascii.nat_of_ascii c in
  if ((48 <=? n) && (n <=? 57))%nat then Some (Z.of_nat n - 48)%Z else None.

Fixpoint drop_spaces (l : list Ascii.ascii) : list Ascii.ascii :=
  match l with
  | c :: rest => if is_space c then drop_spaces rest else l
  | [] => []
  end.

(** The digits after the first one, up to the end of the string. *)
Fixpoint read_digits (l : list Ascii.ascii) (acc : Z) : option Z :=
  match l with
  | [] => Some acc
  | c :: rest =>
      match digit_of c with
      | Some d => read_digits rest (acc * 10 + d)
      | None =>
          if (Ascii.nat_of_ascii c =? 95)%nat (* "_" *) then
            match rest with
            | c' :: rest' =>
                match digit_of c' with
                | Some d => read_digits rest' (acc * 10 + d)
                | None => None
                end
            | [] => None
            end
          else if forallb is_space l then Some acc else None
      end
  end.

Definition int_of_string (s : string) : outcome val :=
  let invalid := Raise (ValueError "invalid literal for int() with base 10") in
  let l := drop_spaces (String.list_ascii_of_string s) in
  let '(negative, l) :=
    match l with
    | c :: rest => if (Ascii.nat_of_ascii c =? 45)%nat (* "-" *) then (true, rest)
                   else if (Ascii.nat_of_ascii c =? 43)%nat (* "+" *) then (false, rest) else (false, l)
    | [] => (false, l)
    end in
  match l with
  | c :: rest =>
      match digit_of c with
      | Some d =>
          match read_digits rest d with
          | Some z => Return (VInt (if negative then - z else z))
          | None => invalid
          end
      | None => invalid
      end
  | [] => invalid
  end.

Definition int_of_number (v : val) : outcome val :=
  match v with
  | VBool b => Return (VInt (if b then 1 else 0))
  | VInt z => Return (VInt z)
  | VEnum _ z => Return (VInt z)
  | VFloat q => Return (VInt (Z.quot (Qnum q) (Z.pos (Qden q))))
  | VStr s => int_of_string s
  | _ => Raise (TypeError "int() argument")
  end.

(** [operator.index]: what [range(n)] and [[x] * n] accept for [n]. *)
Definition index_of (v : val) : outcome Z :=
  match v with
  | VInt z => Return z
  | VBool b => Return (if b then 1 else 0)%Z
  | VEnum _ z => Return z
  | _ => Raise (TypeError "object cannot be interpreted as an integer")
  end.

(** [[0.0] * n]; a negative count gives the empty list. *)
Definition zeros (n : val) : outcome (list val) :=
  match index_of n with
  | Return z => Return (repeat (VFloat 0) (Z.to_nat z))
  | Raise e => Raise e
  end.

(** [[[0.0 for _ in range(columns)] for _ in range(rows)]]: [range(columns)]
    is only evaluated when there is a first row. *)
Definition zero_matrix (rows columns : val) : outcome (list val) :=
  match index_of rows with
  | Raise e => Raise e
  | Return r =>
      match Z.to_nat r with
      | O => Return []
      | S _ as n =>
          match index_of columns with
          | Raise e => Raise e
          | Return c => Return (repeat (VList (repeat (VFloat 0) (Z.to_nat c))) n)
          end
      end
  end.

(** [x + 1]. *)
Definition plus_one (v : val) : outcome val :=
  match v with
  | VInt z => Return (VInt (z + 1))
  | VBool b => Return (VInt ((if b then 1 else 0) + 1))
  | VEnum _ z => Return (VInt (z + 1))
  | VFloat q => Return (VFloat (q + 1))
  | _ => Raise (TypeError "unsupported operand type(s) for +")
  end.

(** The items a [for] or a comprehension draws from an object. *)
Definition iter_items (v : val) : outcome (list val) :=
  match v with
  | VList l => Return l
  | VStr s => Return (map (fun c => VStr (String c EmptyString)) (String.list_ascii_of_string s))
  | VDict d => Return (map (fun kv => VStr (fst kv)) d)
  | _ => Raise (TypeError "object is not iterable")
  end.

(** [item[i]] for a literal index [i]. *)
Definition item_at (item : val) (i : nat) : outcome val :=
  match item with
  | VList l =>
      match nth_error l i with
      | Some x => Return x
      | None => Raise (IndexError "list index out of range")
      end
  | VStr s =>
      match nth_error (String.list_ascii_of_string s) i with
      | Some c => Return (VStr (String c EmptyString))
      | None => Raise (IndexError "string index out of range")
      end
  | VDict _ => Raise (IndexError "key")
  | _ => Raise (TypeError "object is not subscriptable")
  end.

(** [a, b = v]. *)
Definition unpack2 (v : val) : outcome (val * val) :=
  match iter_items v with
  | Raise e => Raise e
  | Return [a; b] => Return (a, b)
  | Return _ => Raise (ValueError "wrong number of values to unpack")
  end.

(** [[item for item in items if item[0] and item[1]]], item by item; the
    second cell is only read when the first is true. *)
Fixpoint keep_filled (items : list val) : outcome (list val) :=
  match items with
  | [] => Return []
  | item :: rest =>
      match item_at item 0 with
      | Raise e => Raise e
      | Return k =>
          if truthy k then
            match item_at item 1 with
            | Raise e => Raise e
            | Return v =>
                match keep_filled rest with
                | Raise e => Raise e
                | Return kept => Return (if truthy v then item :: kept else kept)
                end
            end
          else keep_filled rest
      end
  end.

(** ** The world a session runs in *)

(** What the wrapper asks of the dispatch layer. *)
Inductive request : Type :=
  | Dispatch (progid : string)
  | PropGet (member : string)
  | PropPut (member : string) (v : val)
  | Invoke (member : string) (args : list val).

Inductive com_call : Type := CoInitialize | CoUninitialize.

(** A length of time: a rational number of seconds that is not negative. *)
Record duration : Type := mkDuration {
  seconds : Q;
  seconds_nonneg : Qle_bool 0 seconds = true
}.

Definition no_time : duration := mkDuration 0 eq_refl.

(** The clock is the machine's, not the program's: the program only
    learns, at each call of [time.time] and [time.sleep], how much time
    has passed.  [overrun n] is the time that the [n]-th such call takes
    beyond what it was asked for, that is, the time that passed since the
    statement before it, and for a sleep also the time it overslept.  It is
    arbitrary but not negative: the clock is assumed not to be set back
    during a run. *)
Record world : Type := mkWorld {
  trace : list (request * outcome val);   (* requests issued, with their results *)
  now : Q;                                   (* time.time(), in seconds *)
  slept : list Q;                            (* arguments of time.sleep, oldest first *)
  observed : list val;                       (* samples read by the polling helpers, oldest first *)
  registry : gmap nat (gset nat);            (* _com_initialized: per thread, its [threads] set *)
  com_calls : list (nat * com_call);         (* pythoncom calls, tagged with the calling thread *)
  overrun : nat -> duration;                 (* the machine's part of the clock, see above *)
  clock_calls : nat                          (* calls of time.time and time.sleep so far *)
}.

(** A world with a clock that runs without any overrun. *)
Definition world0 : world := mkWorld [] 0 [] [] ∅ [] (fun _ => no_time) 0.

(** The same with a clock on which every call overruns by [d]. *)
Definition world_slow (d : duration) : world := mkWorld [] 0 [] [] ∅ [] (fun _ => d) 0.

(** ** The state-and-exception monad *)

Definition M (A : Type) : Type := world -> outcome A * world.

Definition ret {A} (a : A) : M A := fun w => (Return a, w).
Definition raise {A} (e : exn) : M A := fun w => (Raise e, w).
Definition bind {A B} (m : M A) (k : A -> M B) : M B :=
  fun w => match m w with
           | (Return a, w') => k a w'
           | (Raise e, w') => (Raise e, w')
           end.
(** [try: m  except Exception as e: h e]; the effects of [m] up to the
    failure stay. *)
Definition try_except {A} (m : M A) (h : exn -> M A) : M A :=
  fun w => match m w with
           | (Return a, w') => (Return a, w')
           | (Raise e, w') => h e w'
           end.
Definition lift {A} (o : outcome A) : M A := fun w => (o, w).

Notation "'do' x <- m ; k" := (bind m (fun x => k))
  (at level 10, x name, m at level 100, k at level 200).
Notation "'run' m ; k" := (bind m (fun _ => k))
  (at level 10, m at level 100, k at level 200).

Definition Qltb (x y : Q) : bool := negb (Qle_bool y x).

(** [time.sleep(d)]: a negative length is a ValueError; otherwise the
    sleep lasts [d] seconds or longer. *)
Definition sleep (d : Q) : M unit :=
  fun w => if Qltb d 0 then (Raise (ValueError "sleep length must be non-negative"), w)
           else (Return tt,
                 mkWorld (trace w) (now w + d + seconds (overrun w (clock_calls w)))
                         (slept w ++ [d]) (observed w) (registry w) (com_calls w)
                         (overrun w) (S (clock_calls w))).

(** [time.time()]: the clock as it stands when the call returns. *)
Definition time_time : M Q :=
  fun w => let t := (now w + seconds (overrun w (clock_calls w)))%Q in
           (Return t,
            mkWorld (trace w) t (slept w) (observed w) (registry w) (com_calls w)
                    (overrun w) (S (clock_calls w))).

Definition pythoncom (c : com_call) (thread_id : nat) : M unit :=
  fun w => (Return tt,
            mkWorld (trace w) (now w) (slept w) (observed w) (registry w)
                    (com_calls w ++ [(thread_id, c)]) (overrun w) (clock_calls w)).

Definition get_registry : M (gmap nat (gset nat)) := fun w => (Return (registry w), w).
Definition set_registry (r : gmap nat (gset nat)) : M unit :=
  fun w => (Return tt,
            mkWorld (trace w) (now w) (slept w) (observed w) r (com_calls w)
                    (overrun w) (clock_calls w)).

(** ** The session object *)

(** The instance dictionary of a [VibrationVIEW] object. *)
Abbreviation instance := (gmap string val).

(** The names the class body binds: the class variable and the methods. *)
Definition class_attrs : list string :=
  [ "_com_initialized"; "__init__"; "__del__"; "close";
    "RunTest"; "OpenTest"; "EditTest"; "StartTest"; "StopTest"; "AbortEdit";
    "SaveData"; "Minimize"; "Restore"; "Maximize"; "Activate"; "MenuCommand";
    "Status"; "IsRunning"; "IsStarting"; "IsChangingLevel"; "IsHoldLevel";
    "IsOpenLoop"; "IsAborted"; "CanResumeTest"; "IsReady"; "ResumeTest";
    "Demand"; "Control"; "Channel"; "Output"; "Vector"; "RearInput";
    "VectorUnit"; "VectorLabel"; "VectorLength"; "ControlUnit"; "ControlLabel";
    "ChannelUnit"; "ChannelLabel"; "ReportField"; "RearInputUnit";
    "RearInputLabel"; "Teds"; "SweepUp"; "SweepDown"; "SweepStepUp";
    "SweepStepDown"; "SweepHold"; "SweepResonanceHold"; "DemandMultiplier";
    "SweepMultiplier"; "TestType"; "SystemCheckFrequency";
    "SystemCheckOutputVoltage"; "SineFrequency"; "GetHardwareInputChannels";
    "GetHardwareOutputChannels"; "GetHardwareSerialNumber";
    "GetSoftwareVersion"; "InputCalDate"; "InputSerialNumber";
    "InputCapacitorCoupled"; "InputAccelPowerSource"; "InputDifferential";
    "InputSensitivity"; "InputEngineeringScale"; "InputMode";
    "InputCalibration"; "HardwareSupportsCapacitorCoupled";
    "HardwareSupportsAccelPowerSource"; "HardwareSupportsDifferential";
    "GetActiveTest"; "RecordStart"; "RecordStop"; "RecordPause";
    "RecordGetFilename"; "SetInputConfigurationFile" ].

(** [self.name]: the instance dictionary first, then the class; [None]
    stands for an attribute found on the class. *)
Definition getattr (self : instance) (name : string) : outcome (option val) :=
  match self !! name with
  | Some v => Return (Some v)
  | None => if bool_decide (name ∈ class_attrs) then Return None
            else Raise (AttributeError name)
  end.

(** [hasattr(self, name)]. *)
Definition hasattr (self : instance) (name : string) : bool :=
  match getattr self name with Return _ => true | Raise _ => false end.

(** [self.vv], an instance attribute (the class binds no [vv]). *)
Definition self_vv (self : instance) : outcome val :=
  match getattr self "vv" with
  | Return (Some v) => Return v
  | Return None => Raise (TypeError "vv")
  | Raise e => Raise e
  end.

Definition is_None (v : val) : bool :=
  match v with VNone => true | _ => false end.

(** [[[''] * 2 for _ in range(32)]], the buffer handed to every TEDS call. *)
Definition string_buffer : val := VList (repeat (VList (repeat (VStr "") 2)) 32).

(** One constructor per operation of the call surface, with its arguments
    (an omitted optional argument is [VNone]). *)
Inductive operation : Type :=
  | op_RunTest (testName : val)
  | op_OpenTest (testName : val)
  | op_EditTest (testName : val)
  | op_StartTest
  | op_StopTest
  | op_AbortEdit
  | op_SaveData (filename : val)
  | op_Minimize
  | op_Restore
  | op_Maximize
  | op_Activate
  | op_MenuCommand (id : val)
  | op_Status
  | op_IsRunning
  | op_IsStarting
  | op_IsChangingLevel
  | op_IsHoldLevel
  | op_IsOpenLoop
  | op_IsAborted
  | op_CanResumeTest
  | op_IsReady
  | op_ResumeTest
  | op_Demand
  | op_Control
  | op_Channel
  | op_Output
  | op_Vector (vectorEnum columns : val)
  | op_RearInput
  | op_VectorUnit (vectorEnum : val)
  | op_VectorLabel (vectorEnum : val)
  | op_VectorLength (vectorEnum : val)
  | op_ControlUnit (loopNum : val)
  | op_ControlLabel (loopNum : val)
  | op_ChannelUnit (channelNum : val)
  | op_ChannelLabel (channelNum : val)
  | op_ReportField (fieldName : val)
  | op_RearInputUnit (channel : val)
  | op_RearInputLabel (channel : val)
  | op_Teds (channel : val)
  | op_SweepUp
  | op_SweepDown
  | op_SweepStepUp
  | op_SweepStepDown
  | op_SweepHold
  | op_SweepResonanceHold
  | op_DemandMultiplier (value : val)
  | op_SweepMultiplier (value : val)
  | op_TestType (value : val)
  | op_SystemCheckFrequency (value : val)
  | op_SystemCheckOutputVoltage (value : val)
  | op_SineFrequency (value : val)
  | op_GetHardwareInputChannels
  | op_GetHardwareOutputChannels
  | op_GetHardwareSerialNumber
  | op_GetSoftwareVersion
  | op_InputCalDate (channel : val)
  | op_InputSerialNumber (channel : val)
  | op_InputCapacitorCoupled (channel value : val)
  | op_InputAccelPowerSource (channel value : val)
  | op_InputDifferential (channel value : val)
  | op_InputSensitivity (channel : val)
  | op_InputEngineeringScale (channel : val)
  | op_InputMode (channel powerSource capCoupled differential : val)
  | op_InputCalibration (channel sensitivity serialNumber calDate : val)
  | op_HardwareSupportsCapacitorCoupled (channel : val)
  | op_HardwareSupportsAccelPowerSource (channel : val)
  | op_HardwareSupportsDifferential (channel : val)
  | op_GetActiveTest
  | op_RecordStart
  | op_RecordStop
  | op_RecordPause
  | op_RecordGetFilename
  | op_SetInputConfigurationFile (configName : val).

Section Session.

(** The automation endpoint: the result of a request, given everything
    that happened so far. *)
Variable remote : world -> request -> outcome val.

(** [comhelper.ExtractComErrorInfo], a total function from failures to a
    descriptive record. *)
Variable ExtractComErrorInfo : exn -> val.

(** Python's builtin [int]. *)
Variable builtin_int : val -> outcome val.

Definition call (rq : request) : M val :=
  fun w => let o := remote w rq in
           (o, mkWorld (trace w ++ [(rq, o)]) (now w) (slept w) (observed w)
                       (registry w) (com_calls w) (overrun w) (clock_calls w)).

(** [obj.member], [obj.member(args)] and [obj.member = v] on a value: only
    the dispatch object has members. *)
Definition obj_get (obj : val) (member : string) : M val :=
  match obj with
  | VCom => call (PropGet member)
  | _ => raise (AttributeError member)
  end.
Definition obj_invoke (obj : val) (member : string) (args : list val) : M val :=
  match obj with
  | VCom => call (Invoke member args)
  | _ => raise (AttributeError member)
  end.
Definition obj_put (obj : val) (member : string) (v : val) : M unit :=
  match obj with
  | VCom => run call (PropPut member v); ret tt
  | _ => raise (AttributeError member)
  end.

(** *** Construction: transport initialisation and the retry loop *)

Definition retryAttempts : nat := 5.

(** The guarded test of one attempt, [vv and vv.IsReady] inside its own
    [try]: [Some b] is the truth value that was read, [None] an exception
    that the handler caught. *)
Definition attempt_ready (vv : val) : M (option bool) :=
  try_except
    (do ready <- (if truthy vv
                  then (do r <- obj_get vv "IsReady"; ret (truthy r))
                  else ret false);
     ret (Some ready))
    (fun e => ret None).

(** [for attempt in range(1, retryAttempts + 1)], over the attempts that
    are left. *)
Fixpoint attempt_loop (attempts : list nat) (vv : val) (waitTime : Q)
    (self : instance) : M instance :=
  match attempts with
  | [] => ret self
  | attempt :: rest =>
      let next :=
        (run sleep waitTime; attempt_loop rest vv (waitTime * 2) self) in
      do r <- attempt_ready vv;
      match r with
      | Some true => ret (<["vv" := vv]> self)          (* self.vv = vv; return *)
      | Some false => next
      | None => if Nat.eqb attempt retryAttempts then ret self   (* break *)
                else next
      end
  end.

(** The first half of [__init__]: initialise the transport unless this
    thread is already in its registry. *)
Definition init_com (thread_id : nat) : M instance :=
  do reg <- get_registry;
  if match reg !! thread_id with
     | None => true                                      (* not hasattr(.., 'threads') *)
     | Some threads => negb (bool_decide (thread_id ∈ threads))
     end
  then
    run pythoncom CoInitialize thread_id;
    let threads := default ∅ (reg !! thread_id) in
    run set_registry (<[thread_id := {[thread_id]} ∪ threads]> reg);
    ret (<["_initialized_com" := VBool true]> (∅ : instance))
  else
    ret (<["_initialized_com" := VBool false]> (∅ : instance)).

(** The second half: dispatch, then the retry loop; any exception that
    escapes is caught and only rebinds the local [vv]. *)
Definition connect (self : instance) : M instance :=
  try_except
    (do vv <- call (Dispatch "VibrationVIEW.TestControl");
     attempt_loop (seq 1 retryAttempts) vv (1 # 2) self)
    (fun e => ret self).

Definition __init__ (thread_id : nat) : M instance :=
  do self <- init_com thread_id;
  connect self.

(** *** Release *)

(** [if hasattr(self, 'vv') and self.vv is not None: self.vv = None]. *)
Definition release_handle (self : instance) : instance :=
  match self !! "vv" with
  | Some v => if is_None v then self else <["vv" := VNone]> self
  | None => self
  end.

Definition close (thread_id : nat) (self : instance) : M instance :=
  let self := release_handle self in
  run pythoncom CoUninitialize thread_id;
  ret self.

(** [__del__]; its body runs inside [try: ... except: pass], and nothing
    in it can raise here. *)
Definition __del__ (thread_id : nat) (self : instance) : M instance :=
  let self := release_handle self in
  if match self !! "_initialized_com" with
     | Some flag => truthy flag
     | None => false
     end
  then
    do reg <- get_registry;
    match reg !! thread_id with
    | Some threads =>
        if bool_decide (thread_id ∈ threads) then
          run set_registry (<[thread_id := threads ∖ {[thread_id]}]> reg);
          run pythoncom CoUninitialize thread_id;
          ret (<["_initialized_com" := VBool false]> self)
        else ret self
    | None => ret self
    end
  else ret self.

(** *** The typed call surface *)

Definition vv_get (self : instance) (member : string) : M val :=
  do vv <- lift (self_vv self);
  obj_get vv member.
Definition vv_invoke (self : instance) (member : string) (args : list val) : M val :=
  do vv <- lift (self_vv self);
  obj_invoke vv member args.
Definition vv_put (self : instance) (member : string) (v : val) : M unit :=
  do vv <- lift (self_vv self);
  obj_put vv member v.
(** [self.vv.member(int(x))]: the member is resolved before the argument
    is converted. *)
Definition vv_invoke_int (self : instance) (member : string) (x : val) : M val :=
  do vv <- lift (self_vv self);
  match vv with
  | VCom => do n <- lift (builtin_int x); call (Invoke member [n])
  | _ => raise (AttributeError member)
  end.
(** [bool(self.vv.member)]. *)
Definition vv_flag (self : instance) (member : string) : M val :=
  do v <- vv_get self member;
  ret (VBool (truthy v)).
(** The shape shared by the get/set pairs on a property:
    [if value is None: return self.vv.member]
    [else: self.vv.member = value; return value]. *)
Definition property_pair (self : instance) (member : string) (value : val) : M val :=
  if is_None value then vv_get self member
  else run vv_put self member value; ret value.
(** The same shape on a per-channel setting, where both are calls. *)
Definition channel_pair (self : instance) (member : string) (channel value : val) : M val :=
  if is_None value then vv_invoke self member [channel]
  else run vv_invoke self member [channel; value]; ret value.

(** [self.log(..)]: the attribute is looked up before the arguments are
    built; a plain value found on the instance is not callable. *)
Definition self_log (self : instance) : M unit :=
  do f <- lift (getattr self "log");
  match f with
  | Some _ => raise (TypeError "object is not callable")
  | None => ret tt
  end.

Definition RunTest (self : instance) (testName : val) := vv_invoke self "RunTest" [testName].
Definition OpenTest (self : instance) (testName : val) := vv_invoke self "OpenTest" [testName].
Definition EditTest (self : instance) (testName : val) := vv_invoke self "EditTest" [testName].
Definition StartTest (self : instance) := vv_invoke self "StartTest" [].
Definition StopTest (self : instance) := vv_invoke self "StopTest" [].
Definition AbortEdit (self : instance) := vv_invoke self "AbortEdit" [].
Definition SaveData (self : instance) (filename : val) := vv_invoke self "SaveData" [filename].
Definition Minimize (self : instance) := vv_invoke self "Minimize" [].
Definition Restore (self : instance) := vv_invoke self "Restore" [].
Definition Maximize (self : instance) := vv_invoke self "Maximize" [].
Definition Activate (self : instance) := vv_invoke self "Activate" [].
Definition MenuCommand (self : instance) (id : val) := vv_invoke self "MenuCommand" [id].

Definition Status (self : instance) : M val :=
  do r <- vv_invoke self "Status" [];
  do p <- lift (unpack2 r);
  ret (VDict [("stop_code", fst p); ("stop_code_index", snd p)]).

Definition IsRunning (self : instance) := vv_flag self "Running".
Definition IsStarting (self : instance) := vv_flag self "Starting".
Definition IsChangingLevel (self : instance) := vv_flag self "ChangingLevel".
Definition IsHoldLevel (self : instance) := vv_flag self "HoldLevel".
Definition IsOpenLoop (self : instance) := vv_flag self "OpenLoop".
Definition IsAborted (self : instance) := vv_flag self "Aborted".
Definition CanResumeTest (self : instance) := vv_flag self "CanResumeTest".
Definition IsReady (self : instance) := vv_flag self "IsReady".
Definition ResumeTest (self : instance) := vv_invoke self "ResumeTest" [].

Definition GetHardwareInputChannels (self : instance) := vv_get self "HardwareInputChannels".
Definition GetHardwareOutputChannels (self : instance) := vv_get self "HardwareOutputChannels".
Definition GetHardwareSerialNumber (self : instance) := vv_get self "HardwareSerialNumber".
Definition GetSoftwareVersion (self : instance) := vv_get self "SoftwareVersion".

Definition Demand (self : instance) : M val :=
  do num_outputs <- GetHardwareOutputChannels self;
  do arr <- lift (zeros num_outputs);
  vv_invoke self "Demand" [VList arr].

Definition Control (self : instance) : M val :=
  do num_outputs <- GetHardwareOutputChannels self;
  do arr <- lift (zeros num_outputs);
  run vv_invoke self "Control" [VList arr];
  ret (VList arr).

Definition Channel (self : instance) : M val :=
  try_except
    (do num_channels <- GetHardwareInputChannels self;
     do arr <- lift (zeros num_channels);
     vv_invoke self "Channel" [VList arr])
    (fun e => ret (VList [])).

Definition Output (self : instance) : M val :=
  do num_outputs <- GetHardwareOutputChannels self;
  do arr <- lift (zeros num_outputs);
  run vv_invoke self "Output" [VList arr];
  ret (VList arr).

Definition Vector (self : instance) (vectorEnum columns : val) : M val :=
  do rows <- vv_invoke self "VectorLength" [vectorEnum];
  do dataArray <- lift (zero_matrix rows columns);
  try_except
    (do vv <- lift (self_vv self);
     match vv with
     | VCom => do n <- lift (builtin_int vectorEnum);
               call (Invoke "Vector" [VList dataArray; n])
     | _ => raise (AttributeError "Vector")
     end)
    (fun e => run self_log self; ret (VList dataArray)).

Definition RearInput (self : instance) : M val :=
  let arr := repeat (VFloat 0) 8 in
  run vv_invoke self "RearInput" [VList arr];
  ret (VList arr).

Definition VectorUnit (self : instance) (vectorEnum : val) := vv_invoke_int self "VectorUnit" vectorEnum.
Definition VectorLabel (self : instance) (vectorEnum : val) := vv_invoke_int self "VectorLabel" vectorEnum.
Definition VectorLength (self : instance) (vectorEnum : val) := vv_invoke_int self "VectorLength" vectorEnum.
Definition ControlUnit (self : instance) (loopNum : val) := vv_invoke self "ControlUnit" [loopNum].
Definition ControlLabel (self : instance) (loopNum : val) := vv_invoke self "ControlLabel" [loopNum].
Definition ChannelUnit (self : instance) (channelNum : val) := vv_invoke self "ChannelUnit" [channelNum].
Definition ChannelLabel (self : instance) (channelNum : val) := vv_invoke self "ChannelLabel" [channelNum].
Definition ReportField (self : instance) (fieldName : val) := vv_invoke self "ReportField" [fieldName].
Definition RearInputUnit (self : instance) (channel : val) := vv_invoke self "RearInputUnit" [channel].
Definition RearInputLabel (self : instance) (channel : val) := vv_invoke self "RearInputLabel" [channel].

(** The body of the inner [try] of [Teds] for one channel. *)
Definition teds_entry (self : instance) (allocatedStringArray channel : val) : M val :=
  do tedsInfo <- vv_invoke self "Teds" [channel; allocatedStringArray];
  do items <- lift (iter_items tedsInfo);
  do teds_info_clean <- lift (keep_filled items);
  do number <- lift (plus_one channel);
  ret (VDict [("Channel", number); ("Teds", VList teds_info_clean)]).

(** Its handler. *)
Definition teds_error (channel : val) (e : exn) : M val :=
  let comErr := ExtractComErrorInfo e in
  do number <- lift (plus_one channel);
  ret (VDict [("Channel", number); ("Error", comErr)]).

(** [for channel in channelsToCheck], appending to [allTedsData]. *)
Fixpoint teds_loop (self : instance) (allocatedStringArray : val)
    (channelsToCheck allTedsData : list val) : M (list val) :=
  match channelsToCheck with
  | [] => ret allTedsData
  | channel :: rest =>
      do entry <- try_except (teds_entry self allocatedStringArray channel)
                             (teds_error channel);
      teds_loop self allocatedStringArray rest (allTedsData ++ [entry])
  end.

Definition Teds (self : instance) (channel : val) : M val :=
  try_except
    (do numChannels <- GetHardwareInputChannels self;
     let allocatedStringArray := string_buffer in
     do channelsToCheck <-
       lift (if is_None channel
             then match index_of numChannels with
                  | Return n => Return (map (fun i => VInt (Z.of_nat i)) (seq 0 (Z.to_nat n)))
                  | Raise e => Raise e
                  end
             else Return [channel]);
     do allTedsData <- teds_loop self allocatedStringArray channelsToCheck [];
     ret (VList allTedsData))
    (fun e => ret (VList [])).

Definition SweepUp (self : instance) := vv_invoke self "SweepUp" [].
Definition SweepDown (self : instance) := vv_invoke self "SweepDown" [].
Definition SweepStepUp (self : instance) := vv_invoke self "SweepStepUp" [].
Definition SweepStepDown (self : instance) := vv_invoke self "SweepStepDown" [].
Definition SweepHold (self : instance) := vv_invoke self "SweepHold" [].
Definition SweepResonanceHold (self : instance) := vv_invoke self "SweepResonanceHold" [].

Definition DemandMultiplier (self : instance) (value : val) := property_pair self "DemandMultipler" value.
Definition SweepMultiplier (self : instance) (value : val) := property_pair self "SweepMultiplier" value.
Definition TestType (self : instance) (value : val) : M val :=
  if is_None value then vv_get self "TestType"
  else
    do n <- lift (builtin_int value);        (* the right-hand side comes first *)
    do vv <- lift (self_vv self);
    run obj_put vv "TestType" n;
    ret value.
Definition SystemCheckFrequency (self : instance) (value : val) := property_pair self "SystemCheckFrequency" value.
Definition SystemCheckOutputVoltage (self : instance) (value : val) := property_pair self "SystemCheckOutputVoltage" value.
Definition SineFrequency (self : instance) (value : val) := property_pair self "SineFrequency" value.

Definition InputCalDate (self : instance) (channel : val) := vv_invoke self "InputCalDate" [channel].
Definition InputSerialNumber (self : instance) (channel : val) := vv_invoke self "InputSerialNumber" [channel].
Definition InputCapacitorCoupled (self : instance) (channel value : val) := channel_pair self "InputCapacitorCoupled" channel value.
Definition InputAccelPowerSource (self : instance) (channel value : val) := channel_pair self "InputAccelPowerSource" channel value.
Definition InputDifferential (self : instance) (channel value : val) := channel_pair self "InputDifferential" channel value.
Definition InputSensitivity (self : instance) (channel : val) := vv_invoke self "InputSensitivity" [channel].
Definition InputEngineeringScale (self : instance) (channel : val) := vv_invoke self "InputEngineeringScale" [channel].
Definition InputMode (self : instance) (channel powerSource capCoupled differential : val) :=
  vv_invoke self "InputMode" [channel; powerSource; capCoupled; differential].
Definition InputCalibration (self : instance) (channel sensitivity serialNumber calDate : val) :=
  vv_invoke self "InputCalibration" [channel; sensitivity; serialNumber; calDate].
Definition HardwareSupportsCapacitorCoupled (self : instance) (channel : val) :=
  vv_invoke self "HardwareSupportsCapacitorCoupled" [channel].
Definition HardwareSupportsAccelPowerSource (self : instance) (channel : val) :=
  vv_invoke self "HardwareSupportsAccelPowerSource" [channel].
Definition HardwareSupportsDifferential (self : instance) (channel : val) :=
  vv_invoke self "HardwareSupportsDifferential" [channel].

Definition GetActiveTest (self : instance) := vv_get self "ActiveTest".
Definition RecordStart (self : instance) := vv_invoke self "RecordStart" [].
Definition RecordStop (self : instance) := vv_invoke self "RecordStop" [].
Definition RecordPause (self : instance) := vv_invoke self "RecordPause" [].
Definition RecordGetFilename (self : instance) := vv_get self "RecordGetFilename".
Definition SetInputConfigurationFile (self : instance) (configName : val) :=
  vv_invoke self "set_InputConfigurationFile" [configName].

(** Calling an operation on a session. *)
Definition perform (self : instance) (o : operation) : M val :=
  match o with
  | op_RunTest testName => RunTest self testName
  | op_OpenTest testName => OpenTest self testName
  | op_EditTest testName => EditTest self testName
  | op_StartTest => StartTest self
  | op_StopTest => StopTest self
  | op_AbortEdit => AbortEdit self
  | op_SaveData filename => SaveData self filename
  | op_Minimize => Minimize self
  | op_Restore => Restore self
  | op_Maximize => Maximize self
  | op_Activate => Activate self
  | op_MenuCommand id => MenuCommand self id
  | op_Status => Status self
  | op_IsRunning => IsRunning self
  | op_IsStarting => IsStarting self
  | op_IsChangingLevel => IsChangingLevel self
  | op_IsHoldLevel => IsHoldLevel self
  | op_IsOpenLoop => IsOpenLoop self
  | op_IsAborted => IsAborted self
  | op_CanResumeTest => CanResumeTest self
  | op_IsReady => IsReady self
  | op_ResumeTest => ResumeTest self
  | op_Demand => Demand self
  | op_Control => Control self
  | op_Channel => Channel self
  | op_Output => Output self
  | op_Vector vectorEnum columns => Vector self vectorEnum columns
  | op_RearInput => RearInput self
  | op_VectorUnit vectorEnum => VectorUnit self vectorEnum
  | op_VectorLabel vectorEnum => VectorLabel self vectorEnum
  | op_VectorLength vectorEnum => VectorLength self vectorEnum
  | op_ControlUnit loopNum => ControlUnit self loopNum
  | op_ControlLabel loopNum => ControlLabel self loopNum
  | op_ChannelUnit channelNum => ChannelUnit self channelNum
  | op_ChannelLabel channelNum => ChannelLabel self channelNum
  | op_ReportField fieldName => ReportField self fieldName
  | op_RearInputUnit channel => RearInputUnit self channel
  | op_RearInputLabel channel => RearInputLabel self channel
  | op_Teds channel => Teds self channel
  | op_SweepUp => SweepUp self
  | op_SweepDown => SweepDown self
  | op_SweepStepUp => SweepStepUp self
  | op_SweepStepDown => SweepStepDown self
  | op_SweepHold => SweepHold self
  | op_SweepResonanceHold => SweepResonanceHold self
  | op_DemandMultiplier value => DemandMultiplier self value
  | op_SweepMultiplier value => SweepMultiplier self value
  | op_TestType value => TestType self value
  | op_SystemCheckFrequency value => SystemCheckFrequency self value
  | op_SystemCheckOutputVoltage value => SystemCheckOutputVoltage self value
  | op_SineFrequency value => SineFrequency self value
  | op_GetHardwareInputChannels => GetHardwareInputChannels self
  | op_GetHardwareOutputChannels => GetHardwareOutputChannels self
  | op_GetHardwareSerialNumber => GetHardwareSerialNumber self
  | op_GetSoftwareVersion => GetSoftwareVersion self
  | op_InputCalDate channel => InputCalDate self channel
  | op_InputSerialNumber channel => InputSerialNumber self channel
  | op_InputCapacitorCoupled channel value => InputCapacitorCoupled self channel value
  | op_InputAccelPowerSource channel value => InputAccelPowerSource self channel value
  | op_InputDifferential channel value => InputDifferential self channel value
  | op_InputSensitivity channel => InputSensitivity self channel
  | op_InputEngineeringScale channel => InputEngineeringScale self channel
  | op_InputMode channel powerSource capCoupled differential => InputMode self channel powerSource capCoupled differential
  | op_InputCalibration channel sensitivity serialNumber calDate => InputCalibration self channel sensitivity serialNumber calDate
  | op_HardwareSupportsCapacitorCoupled channel => HardwareSupportsCapacitorCoupled self channel
  | op_HardwareSupportsAccelPowerSource channel => HardwareSupportsAccelPowerSource self channel
  | op_HardwareSupportsDifferential channel => HardwareSupportsDifferential self channel
  | op_GetActiveTest => GetActiveTest self
  | op_RecordStart => RecordStart self
  | op_RecordStop => RecordStop self
  | op_RecordPause => RecordPause self
  | op_RecordGetFilename => RecordGetFilename self
  | op_SetInputConfigurationFile configName => SetInputConfigurationFile self configName
  end.

End Session.

(** The two soft-fail paths the documentation names. *)
Definition documented_soft_fail (o : operation) : bool :=
  match o with
  | op_Vector _ _ | op_Teds _ => true
  | _ => false
  end.

(** The operations whose body has a handler of its own. *)
Definition has_handler (o : operation) : bool :=
  match o with
  | op_Vector _ _ | op_Teds _ | op_Channel => true
  | _ => false
  end.

(** The requests an execution added to the trace. *)
Definition issued (w w' : world) : list (request * outcome val) :=
  drop (length (trace w)) (trace w').

(** The caller's liveness test, [connection.vv is None]. *)
Definition vv_is_None (self : instance) : outcome bool :=
  match self_vv self with
  | Return v => Return (is_None v)
  | Raise e => Raise e
  end.

(** ** The polling helpers *)

Section Polling.

(** The predicate being polled: what a sample reads in a given world, and
    how long taking it lasts. *)
Variable condition_func : world -> val.
Variable latency : world -> Q.

Definition sample : M val :=
  fun w => (Return (condition_func w),
            mkWorld (trace w) (now w + latency w) (slept w) (observed w ++ [condition_func w])
                    (registry w) (com_calls w) (overrun w) (clock_calls w)).

(** [while time.time() - start_time < wait_time: ...] of
    [wait_for_condition]; [fuel] bounds the number of iterations, and
    [None] is a loop that was cut short. *)
Fixpoint wait_for_condition_loop (fuel : nat) (start_time wait_time check_interval : Q)
    (result : val) : M (option val) :=
  match fuel with
  | O => ret None
  | S fuel =>
      do t <- time_time;
      if Qltb (t - start_time) wait_time then
        do result <- sample;
        if truthy result then ret (Some result)              (* break *)
        else
          run sleep check_interval;
          wait_for_condition_loop fuel start_time wait_time check_interval result
      else ret (Some result)
  end.

(** [_wait_for_condition] of conftest.py and [wait_for_condition] of
    app.py, which have the same body. *)
Definition wait_for_condition (fuel : nat) (wait_time check_interval : Q) : M (option val) :=
  do start_time <- time_time;
  wait_for_condition_loop fuel start_time wait_time check_interval (VBool false).

(** The loop of [_wait_for_not] (conftest.py), which returns the literal
    [False] on a false sample, and of [wait_for_not] (app.py), which
    returns the sample itself. *)
Fixpoint wait_for_not_loop (literal : bool) (fuel : nat)
    (start_time wait_time check_interval : Q) : M (option val) :=
  match fuel with
  | O => ret None
  | S fuel =>
      do t <- time_time;
      if Qltb (t - start_time) wait_time then
        do result <- sample;
        if negb (truthy result)
        then ret (Some (if literal then VBool false else result))
        else
          run sleep check_interval;
          wait_for_not_loop literal fuel start_time wait_time check_interval
      else ret (Some (VBool true))
  end.

Definition _wait_for_not (fuel : nat) (wait_time check_interval : Q) : M (option val) :=
  do start_time <- time_time;
  wait_for_not_loop true fuel start_time wait_time check_interval.

Definition wait_for_not (fuel : nat) (wait_time check_interval : Q) : M (option val) :=
  do start_time <- time_time;
  wait_for_not_loop false fuel start_time wait_time check_interval.

End Polling.

(** ** The rounds of a polling run

    Both loops go round in the same way: read the clock and test it,
    sample the predicate, sleep.  The worlds below are those a run passes
    through for as long as neither a sample nor the clock ends it; the
    statements about the helpers are in terms of them. *)

Section Rounds.

Variable condition_func : world -> val.
Variable latency : world -> Q.
Variable check_interval : Q.

(** The world in which a round entered in [u] has read the clock and
    samples the predicate. *)
Definition at_sample (u : world) : world := snd (time_time u).

(** The world in which the next round is entered. *)
Definition next_round (u : world) : world :=
  snd (sleep check_interval (snd (sample condition_func latency (at_sample u)))).

Fixpoint round_entry (i : nat) (u : world) : world :=
  match i with
  | O => u
  | S i => round_entry i (next_round u)
  end.

(** For a loop entered in [u]: the world of its [i]-th sample, counted
    from 0, and its first [n] samples. *)
Definition poll (i : nat) (u : world) : world := at_sample (round_entry i u).
Definition polls (n : nat) (u : world) : list val :=
  map (fun i => condition_func (poll i u)) (seq 0 n).

(** For a call made in [w]: the world in which the loop is entered, after
    [start_time = time.time()]; the world of the [i]-th sample; the time
    since [start_time] that the clock test before that sample finds; and
    the first [n] samples. *)
Definition started (w : world) : world := snd (time_time w).
Definition sampled (i : nat) (w : world) : world := poll i (started w).
Definition elapsed (i : nat) (w : world) : Q := (now (sampled i w) - now (started w))%Q.
Definition samples (n : nat) (w : world) : list val := polls n (started w).

End Rounds.

(** ** Histories of sessions

    The objects a program has constructed so far, each with the thread
    that constructed it; a destroyed object leaves [None] behind.  An
    object is destroyed (and closed) by the thread that constructed it. *)

Inductive action : Type :=
  | New (thread_id : nat)       (* VibrationVIEW() on this thread *)
  | Close (i : nat)             (* close() on the i-th object *)
  | Del (i : nat).              (* the i-th object is collected *)

Record system : Type := mkSystem {
  objects : list (nat * option instance);
  state : world
}.

Definition system0 : system := mkSystem [] world0.

Section Histories.

Variable remote : world -> request -> outcome val.

(** A method that updates the i-th object in place; it does nothing on a
    missing or destroyed one. *)
Definition on_object (i : nat) (f : nat -> instance -> M instance)
    (after : instance -> option instance) (s : system) : system :=
  match objects s !! i with
  | Some (thread_id, Some self) =>
      match f thread_id self (state s) with
      | (Return self', w') =>
          mkSystem (<[i := (thread_id, after self')]> (objects s)) w'
      | (Raise _, w') => mkSystem (objects s) w'
      end
  | _ => s
  end.

Definition step (s : system) (a : action) : system :=
  match a with
  | New thread_id =>
      match __init__ remote thread_id (state s) with
      | (Return self, w') => mkSystem (objects s ++ [(thread_id, Some self)]) w'
      | (Raise _, w') => mkSystem (objects s) w'
      end
  | Close i => on_object i close Some s
  | Del i => on_object i __del__ (fun _ => None) s
  end.

Definition play (history : list action) : system := fold_left step history system0.

End Histories.

(** Some live object was constructed on this thread. *)
Definition has_live (thread_id : nat) (s : system) : bool :=
  existsb (fun o => match o with
                    | (t, Some _) => Nat.eqb t thread_id
                    | _ => false
                    end) (objects s).

(** The flag [_initialized_com] of an instance, as [__del__] reads it. *)
Definition initialised_flag (self : instance) : bool :=
  match self !! "_initialized_com" with
  | Some flag => truthy flag
  | None => false
  end.

(** A live object of this thread whose constructor initialised the
    transport. *)
Definition is_initialiser (thread_id : nat) (o : nat * option instance) : bool :=
  match o with
  | (t, Some self) => Nat.eqb t thread_id && initialised_flag self
  | _ => false
  end.

Definition registered (thread_id : nat) (w : world) : bool :=
  match registry w !! thread_id with
  | Some threads => bool_decide (thread_id ∈ threads)
  | None => false
  end.

(** The state of the registry that the constructor and the destructor
    keep: a thread with a live initialiser is registered, and it has at
    most one live initialiser. *)
Definition initialisers_registered (s : system) : Prop :=
  forall t,
    (forall i o, objects s !! i = Some o -> is_initialiser t o = true ->
       registered t (state s) = true) /\
    (forall i j oi oj,
       objects s !! i = Some oi -> objects s !! j = Some oj ->
       is_initialiser t oi = true -> is_initialiser t oj = true -> i = j).

(** How often a thread made a transport call. *)
Definition count_com (c : com_call) (thread_id : nat) (w : world) : nat :=
  length (List.filter (fun p => Nat.eqb (fst p) thread_id &&
                                match snd p, c with
                                | CoInitialize, CoInitialize => true
                                | CoUninitialize, CoUninitialize => true
                                | _, _ => false
                                end) (com_calls w)).

(** ** TEDS sheets

    A sheet as the endpoint fills it in: rows of two strings. *)

Definition row_val (r : string * string) : val := VList [VStr (fst r); VStr (snd r)].
Definition rows_val (rows : list (string * string)) : val := VList (map row_val rows).

Definition filled (r : string * string) : bool :=
  negb (String.eqb (fst r) "") && negb (String.eqb (snd r) "").
Definition blank (r : string * string) : bool :=
  String.eqb (fst r) "" && String.eqb (snd r) "".

(** The cleaning in the words of the specification: the trailing rows in
    which both columns are empty go, every earlier row stays. *)
Fixpoint drop_leading_blank (rows : list (string * string)) : list (string * string) :=
  match rows with
  | [] => []
  | r :: rest => if blank r then drop_leading_blank rest else rows
  end.
Definition strip_trailing_blank (rows : list (string * string)) : list (string * string) :=
  rev (drop_leading_blank (rev rows)).

(** What one channel contributes to the result of [Teds], given the
    outcome of its call. *)
Definition teds_record (ExtractComErrorInfo : exn -> val) (channel : Z)
    (o : outcome val) : val :=
  let cleaned :=
    match o with
    | Raise e => Raise e
    | Return tedsInfo =>
        match iter_items tedsInfo with
        | Raise e => Raise e
        | Return items => keep_filled items
        end
    end in
  match cleaned with
  | Return rows => VDict [("Channel", VInt (channel + 1)); ("Teds", VList rows)]
  | Raise e => VDict [("Channel", VInt (channel + 1)); ("Error", ExtractComErrorInfo e)]
  end.

(** ** Get/set pairs

    For an operation that is a get/set pair called with a value: the
    request that writes it, and the value. *)
Definition pair_write (o : operation) : option (request * val) :=
  match o with
  | op_DemandMultiplier v => Some (PropPut "DemandMultipler" v, v)
  | op_SweepMultiplier v => Some (PropPut "SweepMultiplier" v, v)
  | op_SystemCheckFrequency v => Some (PropPut "SystemCheckFrequency" v, v)
  | op_SystemCheckOutputVoltage v => Some (PropPut "SystemCheckOutputVoltage" v, v)
  | op_SineFrequency v => Some (PropPut "SineFrequency" v, v)
  | op_InputCapacitorCoupled c v => Some (Invoke "InputCapacitorCoupled" [c; v], v)
  | op_InputAccelPowerSource c v => Some (Invoke "InputAccelPowerSource" [c; v], v)
  | op_InputDifferential c v => Some (Invoke "InputDifferential" [c; v], v)
  | _ => None
  end.

(** For a pair called without a value: the request that reads it. *)
Definition pair_read (o : operation) : option request :=
  match o with
  | op_DemandMultiplier VNone => Some (PropGet "DemandMultipler")
  | op_SweepMultiplier VNone => Some (PropGet "SweepMultiplier")
  | op_TestType VNone => Some (PropGet "TestType")
  | op_SystemCheckFrequency VNone => Some (PropGet "SystemCheckFrequency")
  | op_SystemCheckOutputVoltage VNone => Some (PropGet "SystemCheckOutputVoltage")
  | op_SineFrequency VNone => Some (PropGet "SineFrequency")
  | op_InputCapacitorCoupled c VNone => Some (Invoke "InputCapacitorCoupled" [c])
  | op_InputAccelPowerSource c VNone => Some (Invoke "InputAccelPowerSource" [c])
  | op_InputDifferential c VNone => Some (Invoke "InputDifferential" [c])
  | _ => None
  end.

(** The world after one more request. *)
Definition logged (w : world) (rq : request) (o : outcome val) : world :=
  mkWorld (trace w ++ [(rq, o)]) (now w) (slept w) (observed w) (registry w) (com_calls w)
          (overrun w) (clock_calls w).

(** ** Measures used in the statements *)

Definition Qsum (l : list Q) : Q := fold_right Qplus 0%Q l.

(** The time that [f] rounds of sleeping take at least. *)
Fixpoint budget (f : nat) (check_interval : Q) : Q :=
  match f with
  | O => 0%Q
  | S f => (check_interval + budget f check_interval)%Q
  end.

(** A computation propagates remote failures when it only adds requests to
    the trace and raises the failure of any request it added. *)
Definition propagating {A} (m : M A) : Prop :=
  forall w, exists new,
    trace (snd (m w)) = (trace w ++ new)%list /\
    forall rq e, In (rq, Raise e) new -> fst (m w) = Raise e.

(** A cleaned sheet: nothing is added or
    reordered, every row with two non-empty cells is still there, and no
    row with two empty cells is left. *)
Definition well_cleaned (rows cleaned : list (string * string)) : Prop :=
  sublist cleaned rows /\
  List.filter filled cleaned = List.filter filled rows /\
  Forall (fun r => blank r = false) cleaned.

(** ** Endpoints used in the examples *)

Definition count_reads (member : string) (t : list (request * outcome val)) : nat :=
  length (List.filter (fun p => match fst p with
                                | PropGet m => String.eqb m member
                                | _ => false
                                end) t).

(** An application whose [IsReady] reads true from the k-th read on. *)
Definition ready_on (k : nat) : world -> request -> outcome val :=
  fun w rq =>
    match rq with
    | Dispatch _ => Return VCom
    | PropGet m =>
        if String.eqb m "IsReady"
        then Return (VBool (k <=? S (count_reads "IsReady" (trace w)))%nat)
        else Return (VInt 4)
    | PropPut _ _ => Return VNone
    | Invoke _ _ => Return (VInt 0)
    end.

(** An application that is running but never reports ready. *)
Definition never_ready : world -> request -> outcome val :=
  fun w rq =>
    match rq with
    | Dispatch _ => Return VCom
    | PropGet _ => Return (VBool false)
    | _ => Return VNone
    end.

(** An application on which every member access fails. *)
Definition failing : world -> request -> outcome val :=
  fun w rq =>
    match rq with
    | Dispatch _ => Return VCom
    | _ => Raise (com_error (-2147352567) "Exception occurred.")
    end.

(** An application with two input channels whose data calls fail. *)
Definition no_data : world -> request -> outcome val :=
  fun w rq =>
    match rq with
    | Dispatch _ => Return VCom
    | PropGet _ => Return (VInt 2)
    | PropPut _ _ => Return VNone
    | Invoke m _ =>
        if String.eqb m "VectorLength" then Return (VInt 3)
        else Raise (com_error (-2147352567) "Exception occurred.")
    end.

Definition error_record (e : exn) : val :=
  match e with
  | com_error h d => VDict [("message", VStr d); ("code", VInt h)]
  | AttributeError n => VDict [("message", VStr n)]
  | TypeError n => VDict [("message", VStr n)]
  | ValueError n => VDict [("message", VStr n)]
  | IndexError n => VDict [("message", VStr n)]
  end.

(** An application with one input channel whose sheet has a blank row
    between two entries, and one with a value-less entry. *)
Definition gap_rows : list (string * string) :=
  [("Manufacturer", "PCB"); ("", ""); ("Model", "352C33")] ++ repeat ("", "") 29.
Definition sheet_with_gap : world -> request -> outcome val :=
  fun w rq =>
    match rq with
    | Dispatch _ => Return VCom
    | PropGet _ => Return (VInt 1)
    | PropPut _ _ => Return VNone
    | Invoke _ _ => Return (rows_val gap_rows)
    end.

(** A live session: the handle is bound. *)
Definition connected : instance :=
  <["vv" := VCom]> (<["_initialized_com" := VBool true]> ∅).

(** ** Further measures

    The delays of the retry loop: [n] sleeps starting at [waitTime] and
    doubling. *)
Fixpoint doubling (waitTime : Q) (n : nat) : list Q :=
  match n with
  | O => []
  | S n => waitTime :: doubling (waitTime * 2)%Q n
  end.

(** The reads of [IsReady] that gave these outcomes. *)
Definition ready_reads (outs : list (outcome val)) : list (request * outcome val) :=
  map (fun o => (PropGet "IsReady", o)) outs.

(** A read of [IsReady] that does not end the retry loop with a
    connection: a false value, or a failure. *)
Definition not_ready (o : outcome val) : Prop :=
  match o with
  | Return v => truthy v = false
  | Raise _ => True
  end.

(** The AttributeError that [self.vv.member] raises on a session without
    a dispatch object: for the missing attribute [vv], or for the member
    that the object bound to [vv] does not have. *)
Definition handle_error (self : instance) (member : string) : exn :=
  match self !! "vv" with
  | Some _ => AttributeError member
  | None => AttributeError "vv"
  end.

(** ** The channel example (example_channels.py)

    [item.get(key)] on a dictionary with distinct keys, [None] for a
    missing key. *)
Definition dict_get (item : val) (key : string) : outcome val :=
  match item with
  | VDict d =>
      Return (match List.find (fun kv => String.eqb (fst kv) key) d with
              | Some kv => snd kv
              | None => VNone
              end)
  | _ => Raise (AttributeError "get")
  end.

(** [v == n] for an integer [n]. *)
Definition eq_int (v : val) (n : Z) : bool :=
  match v with
  | VInt z => Z.eqb z n
  | VBool b => Z.eqb (if b then 1 else 0) n
  | VEnum _ z => Z.eqb z n
  | VFloat q => Qeq_bool q (inject_Z n)
  | _ => false
  end.

(** [next((item for item in teds_data if item.get("Channel") == channel_num), None)]. *)
Fixpoint channel_teds (teds_data : list val) (channel_num : Z) : outcome val :=
  match teds_data with
  | [] => Return VNone
  | item :: rest =>
      match dict_get item "Channel" with
      | Raise e => Raise e
      | Return v => if eq_int v channel_num then Return item
                    else channel_teds rest channel_num
      end
  end.

(** A history in which no session is closed explicitly. *)
Definition without_close (history : list action) : bool :=
  forallb (fun a => match a with Close _ => false | _ => true end) history.

(** ** Window state detection (tests/window_process_state.py)

    The calls to win32gui go to the same outside world as the automation
    calls: a request that the world answers or fails.  Window handles are
    integers; logging is left out. *)

Definition SW_SHOWNORMAL : Z := 1.
Definition SW_SHOWMAXIMIZED : Z := 3.
Definition SW_MAXIMIZE : Z := 3.
Definition SW_MINIMIZE : Z := 6.
Definition SW_RESTORE : Z := 9.

Section WindowState.

Variable remote : world -> request -> outcome val.

Definition win32gui (function : string) (args : list val) : M val :=
  call remote (Invoke function args).

Definition is_window_minimized (hwnd : Z) : M val :=
  try_except (win32gui "IsIconic" [VInt hwnd]) (fun e => ret VNone).

(** [placement[1] == show], the shared body of the next two. *)
Definition placement_shows (hwnd : Z) (show : Z) : M val :=
  try_except
    (do placement <- win32gui "GetWindowPlacement" [VInt hwnd];
     do cmd <- lift (item_at placement 1);
     ret (VBool (eq_int cmd show)))
    (fun e => ret VNone).

Definition is_window_maximized (hwnd : Z) : M val := placement_shows hwnd SW_SHOWMAXIMIZED.
Definition is_window_normal (hwnd : Z) : M val := placement_shows hwnd SW_SHOWNORMAL.

Definition get_window_state (hwnd : Z) : M string :=
  do minimized <- is_window_minimized hwnd;
  if truthy minimized then ret "minimized"
  else
    do maximized <- is_window_maximized hwnd;
    if truthy maximized then ret "maximized"
    else
      do normal <- is_window_normal hwnd;
      if truthy normal then ret "normal"
      else ret "unknown".

(** The loop of [wait_for_window_state]; [fuel] bounds its rounds. *)
Fixpoint wait_for_window_state_loop (fuel : nat) (hwnd : Z) (expected_state : string)
    (start_time timeout interval : Q) : M (option bool) :=
  match fuel with
  | O => ret None
  | S fuel =>
      do t <- time_time;
      if Qltb (t - start_time) timeout then
        do current_state <- get_window_state hwnd;
        if String.eqb current_state expected_state then ret (Some true)
        else
          run sleep interval;
          wait_for_window_state_loop fuel hwnd expected_state start_time timeout interval
      else ret (Some false)
  end.

Definition wait_for_window_state (fuel : nat) (hwnd : Z) (expected_state : string)
    (timeout interval : Q) : M (option bool) :=
  do start_time <- time_time;
  wait_for_window_state_loop fuel hwnd expected_state start_time timeout interval.

(** [maximize_window], [minimize_window] and [restore_window] have one
    body, with the show command and the state they wait for (at the
    default timeout of 5 and interval of 0.5). *)
Definition show_and_wait (fuel : nat) (hwnd : Z) (command : Z) (state : string)
    : M (option bool) :=
  try_except
    (run win32gui "ShowWindow" [VInt hwnd; VInt command];
     wait_for_window_state fuel hwnd state 5 (1 # 2))
    (fun e => ret (Some false)).

Definition maximize_window (fuel : nat) (hwnd : Z) := show_and_wait fuel hwnd SW_MAXIMIZE "maximized".
Definition minimize_window (fuel : nat) (hwnd : Z) := show_and_wait fuel hwnd SW_MINIMIZE "minimized".
Definition restore_window (fuel : nat) (hwnd : Z) := show_and_wait fuel hwnd SW_RESTORE "normal".

Definition activate_window (hwnd : Z) : M bool :=
  try_except
    (do minimized <- is_window_minimized hwnd;
     run (if truthy minimized
          then win32gui "ShowWindow" [VInt hwnd; VInt SW_RESTORE]
          else ret VNone);
     run win32gui "SetForegroundWindow" [VInt hwnd];
     do foreground_hwnd <- win32gui "GetForegroundWindow" [];
     ret (eq_int foreground_hwnd hwnd))
    (fun e => ret false).

End WindowState.

(** An answer that an [if] takes for true. *)
Definition answered_true (o : outcome val) : bool :=
  match o with
  | Return v => truthy v
  | Raise _ => false
  end.

Definition window_states : list string := ["minimized"; "maximized"; "normal"; "unknown"].

(** ** The test application (app.py)

    The tester object: its wrapper ([self.vv], [None] until the connection
    test ran) and the results it logged.  Its methods change it in place,
    also when they end in an exception, so it is threaded through like the
    world.  Printing and the log file are left out. *)

Record tester : Type := mkTester {
  wrapper : option instance;
  results : list (string * val)
}.

Definition T (A : Type) : Type := tester -> world -> outcome A * tester * world.

(** [self.log(message, success)]. *)
Definition log (message : string) (success : val) (t : tester) : tester :=
  mkTester (wrapper t) (results t ++ [(message, success)]).

(** [summarize_results]: the four counts and the success rate it prints.
    [success is True] holds for the boolean [True] only. *)
Definition is_True (v : val) : bool := match v with VBool true => true | _ => false end.
Definition is_False (v : val) : bool := match v with VBool false => true | _ => false end.

Definition summarize_results (t : tester) : nat * nat * nat * nat * Q :=
  let total := length (results t) in
  let passed := length (List.filter (fun r => is_True (snd r)) (results t)) in
  let failed := length (List.filter (fun r => is_False (snd r)) (results t)) in
  let skipped := length (List.filter (fun r => is_None (snd r)) (results t)) in
  let success_rate :=
    if (0 <? passed + failed)%nat
    then (inject_Z (Z.of_nat passed) / inject_Z (Z.of_nat (passed + failed)) * 100)%Q
    else 0%Q in
  (total, passed, failed, skipped, success_rate).

Section Tester.

Variable remote : world -> request -> outcome val.
Variable ExtractComErrorInfo : exn -> val.
(** What an f-string makes of an object. *)
Variable format : val -> string.
(** The thread the application runs on. *)
Variable thread_id : nat.

Definition run_test (test_name : string) (test_func : T val) : T val :=
  fun t w =>
    match test_func t w with
    | (Return result, t1, w1) =>
        (Return result, log (test_name ++ " - Completed successfully") (VBool true) t1, w1)
    | (Raise e, t1, w1) =>
        (Return VNone,
         log (test_name ++ " - Failed with error: " ++ format (ExtractComErrorInfo e))
             (VBool false) t1, w1)
    end.

Definition test_connection : T val :=
  fun t w =>
    match __init__ remote thread_id w with
    | (Raise e, w1) => (Raise e, t, w1)
    | (Return session, w1) =>
        let t1 := mkTester (Some session) (results t) in     (* self.vv = VibrationVIEW() *)
        match vv_is_None session with                        (* self.vv.vv is None *)
        | Raise e => (Raise e, t1, w1)
        | Return true =>
            (Return (VBool false), log "Connection to VibrationVIEW failed" (VBool false) t1, w1)
        | Return false =>
            (Return (VBool true),
             log "Connected to VibrationVIEW successfully" (VBool true) t1, w1)
        end
    end.

(** The calls [self.run_test(name, test)] that follow the connection test,
    one after the other, their results dropped. *)
Fixpoint run_tests (tests : list (string * T val)) : T unit :=
  fun t w =>
    match tests with
    | [] => (Return tt, t, w)
    | (test_name, test_func) :: rest =>
        match run_test test_name test_func t w with
        | (Return _, t1, w1) => run_tests rest t1 w1
        | (Raise e, t1, w1) => (Raise e, t1, w1)
        end
    end.

(** [run_all_tests], over the nine tests that it runs after the connection
    test (their names and bodies are the argument). *)
Definition run_all_tests (tests : list (string * T val)) : T val :=
  fun t w =>
    match run_test "Connection test" test_connection t w with
    | (Raise e, t1, w1) => (Raise e, t1, w1)
    | (Return connected, t1, w1) =>
        if negb (truthy connected) then (Return (VBool false), t1, w1)
        else
          match run_tests tests t1 w1 with
          | (Return _, t2, w2) => (Return (VBool true), t2, w2)
          | (Raise e, t2, w2) => (Raise e, t2, w2)
          end
    end.

End Tester.

(** ** Expected channel configurations (tests/channelconfigs.py) *)

Module ChannelConfigs.

Record TedsConfig : Type := mkTedsConfig {
  manufacturer : string;
  model_number : string;
  version_letter : string;
  version_number : string;
  serial_no : string;
  teds_sensitivity : string;        (* field [sensitivity] of TedsConfig *)
  high_pass_cutoff : string;
  sensitivity_direction : string;
  weight : string;
  polarity : string;
  low_pass_cutoff : string;
  resonance_frequency : string;
  quality_factor : string;
  amplitude_slope : string;
  temperature_coefficient : string;
  reference_frequency : string;
  reference_temperature : string;
  calibration_date : string;
  calibration_initials : string;
  calibration_period : string;
  measurement_position_id : string
}.

Definition as_tuples (self : TedsConfig) : list (string * string) :=
  [ ("Manufacturer", manufacturer self);
    ("Model number", model_number self);
    ("Version letter", version_letter self);
    ("Version number", version_number self);
    ("Serial no.", serial_no self);
    ("Sensitivity @ ref. cond. (S ref)", teds_sensitivity self);
    ("High pass cut-off frequency (F hp)", high_pass_cutoff self);
    ("Sensitivity direction (x,y,z, n/a)", sensitivity_direction self);
    ("Transducer weight", weight self);
    ("Polarity (Sign)", polarity self);
    ("Low pass cut-off frequency (F lp)", low_pass_cutoff self);
    ("Resonance frequency (F res)", resonance_frequency self);
    ("Quality factor @ F res (Q)", quality_factor self);
    ("Amplitude slope (a)", amplitude_slope self);
    ("Temperature coefficient (b)", temperature_coefficient self);
    ("Reference frequency (F ref)", reference_frequency self);
    ("Reference temperature (T ref)", reference_temperature self);
    ("Calibration date", calibration_date self);
    ("Calibration initials", calibration_initials self);
    ("Calibration Period", calibration_period self);
    ("Measurement position ID", measurement_position_id self) ].

Record ChannelConfig : Type := mkChannelConfig {
  sensitivity : Q;                  (* the decimal literal, exactly *)
  unit_ : string;                   (* field [unit] *)
  label : string;
  cap_coupled : bool;
  accel_power : bool;
  differential : bool;
  serial : string;
  cal_date : string;
  teds : option TedsConfig
}.

Definition CHANNEL1_TEDS : TedsConfig :=
  mkTedsConfig "Dytran Instruments" "3055" "B" "1" "5065" "10.41 mV/G" "0.313 Hz" "X"
    "7.95 gm" "+1" "33 kHz" "31.8 kHz" "56.5 " "-2.3 %/decade" "0.1 %/°C" "98.7 Hz"
    "22.0 °C" "2008-03-12T17:00:00Z" "ED " "365 days" "0".

Definition DEFAULT_CHANNEL : ChannelConfig :=
  mkChannelConfig 10 "g" "Acceleration" false false false "" "" None.

Definition channel_specific : list (Z * ChannelConfig) :=
  [ (0%Z, mkChannelConfig (10409000396728516 # 1000000000000000) "g" "Acceleration"
            false true false "5065" "Mar 12, 2008" (Some CHANNEL1_TEDS));
    (1%Z, mkChannelConfig 10 "g" "Acceleration" false true false "" "" None) ].

Definition get_channel_config (channel_index : Z) : ChannelConfig :=
  match List.find (fun kv => Z.eqb (fst kv) channel_index) channel_specific with
  | Some kv => snd kv
  | None => DEFAULT_CHANNEL
  end.

(** One list of the table [channel_configs]:
    [[get_channel_config(i).field for i in range(16)]]. *)
Definition column {A} (field : ChannelConfig -> A) : list A :=
  map (fun i => field (get_channel_config (Z.of_nat i))) (seq 0 16).

End ChannelConfigs.

(** ** The configuration test of the application (app.py,
    [test_input_configuration_file]): its literal tables and its check of
    a TEDS sheet. *)

Module InputConfigurationTest.

Definition sensitivities : list Q :=
  (10409000396728516 # 1000000000000000)%Q :: repeat 10%Q 15.
Definition units : list string := repeat "g" 16.
Definition labels : list string := repeat "Acceleration" 16.
Definition cap_coupled : list bool := repeat false 16.
Definition accel_power : list bool := [true; true] ++ repeat false 14.
Definition differential : list bool := repeat false 16.
Definition serials : list string := "5065" :: repeat "" 15.
Definition cal_dates : list string := "Mar 12, 2008" :: repeat "" 15.

Definition expected_teds_channel1 : list (string * string) :=
  [ ("Manufacturer", "Dytran Instruments");
    ("Model number", "3055");
    ("Version letter", "B");
    ("Version number", "1");
    ("Serial no.", "5065");
    ("Sensitivity @ ref. cond. (S ref)", "10.41 mV/G");
    ("High pass cut-off frequency (F hp)", "0.313 Hz");
    ("Sensitivity direction (x,y,z, n/a)", "X");
    ("Transducer weight", "7.95 gm");
    ("Polarity (Sign)", "+1");
    ("Low pass cut-off frequency (F lp)", "33 kHz");
    ("Resonance frequency (F res)", "31.8 kHz");
    ("Quality factor @ F res (Q)", "56.5 ");
    ("Amplitude slope (a)", "-2.3 %/decade");
    ("Temperature coefficient (b)", "0.1 %/°C");
    ("Reference frequency (F ref)", "98.7 Hz");
    ("Reference temperature (T ref)", "22.0 °C");
    ("Calibration date", "2008-03-12T17:00:00Z");
    ("Calibration initials", "ED ");
    ("Calibration Period", "365 days");
    ("Measurement position ID", "0") ].

(** The inner loop: is this expected pair among the actual ones? *)
Definition found (teds_info : list (string * string)) (expected : string * string) : bool :=
  existsb (fun actual => String.eqb (fst actual) (fst expected)
                         && String.eqb (snd actual) (snd expected)) teds_info.

(** [matches] after the outer loop. *)
Definition matches (expected teds_info : list (string * string)) : nat :=
  length (List.filter (found teds_info) expected).

(** [match_percentage >= 90], the verdict that is logged. *)
Definition validation (expected teds_info : list (string * string)) : bool :=
  let total_expected := length expected in
  let match_percentage :=
    if (0 <? total_expected)%nat
    then (inject_Z (Z.of_nat (matches expected teds_info))
          / inject_Z (Z.of_nat total_expected) * 100)%Q
    else 0%Q in
  Qle_bool 90 match_percentage.

End InputConfigurationTest.

(** ** The connection fixture (tests/conftest.py, [vv]) *)

(** How the part of the fixture before its [yield] ends, when it does not
    raise: with [pytest.fail(msg)] or with the connection it yields. *)
Inductive fixture_setup : Type :=
| Failed (msg : string)
| Yielded (connection : instance).

Section Fixture.

Variable remote : world -> request -> outcome val.
Variable thread_id : nat.

Definition vv_setup : M fixture_setup :=
  do connection <- __init__ remote thread_id;
  do none <- lift (vv_is_None connection);
  if none then ret (Failed "Connection to VibrationVIEW failed")
  else ret (Yielded connection).

(** The part after the [yield]. *)
Definition vv_cleanup (connection : instance) : M unit :=
  try_except
    (if hasattr connection "IsRunning" then
       do running <- IsRunning remote connection;
       if truthy running then run StopTest remote connection; ret tt
       else ret tt
     else ret tt)
    (fun _ => ret tt).

End Fixture.

(** * Properties *)

Local Open Scope list_scope.

(** ** The builtin [int] *)

(** What Python makes of some strings. *)
Example int_of_string_examples :
  map int_of_string [" 12 "; "+1_2_3 "; "-0"; "0012"]
  = [Return (VInt 12); Return (VInt 123); Return (VInt 0); Return (VInt 12)] /\
  Forall (fun s => int_of_string s
                   = Raise (ValueError "invalid literal for int() with base 10"))
         ["- 5"; "1__0"; "_1"; "1_"; ""; "  "; "0x10"; "1.5"; "1 2"; "+"].
Proof. split; [reflexivity | repeat constructor]. Qed.

(** ** The monad *)

Lemma bind_Return {A B} (m : M A) (k : A -> M B) w a w' :
  m w = (Return a, w') -> bind m k w = k a w'.
Proof. intros H. unfold bind. now rewrite H. Qed.

Lemma bind_Raise {A B} (m : M A) (k : A -> M B) w e w' :
  m w = (Raise e, w') -> bind m k w = (Raise e, w').
Proof. intros H. unfold bind. now rewrite H. Qed.

Lemma sleep_ok d w :
  Qltb d 0 = false ->
  sleep d w = (Return tt, mkWorld (trace w) (now w + d + seconds (overrun w (clock_calls w)))
                                  (slept w ++ [d]) (observed w) (registry w) (com_calls w)
                                  (overrun w) (S (clock_calls w))).
Proof. intros H. unfold sleep. now rewrite H. Qed.

(** A sleep touches neither the registry nor the transport. *)
Lemma sleep_frame d w :
  registry (snd (sleep d w)) = registry w /\ com_calls (snd (sleep d w)) = com_calls w.
Proof. unfold sleep. destruct (Qltb d 0); auto. Qed.

Lemma call_frame remote rq w :
  registry (snd (call remote rq w)) = registry w /\
  com_calls (snd (call remote rq w)) = com_calls w.
Proof. unfold call. auto. Qed.

(** ** Construction *)

(** The guarded test of an attempt never lets an exception through. *)
Lemma attempt_ready_total remote vv w :
  exists r w', attempt_ready remote vv w = (Return r, w') /\
    registry w' = registry w /\ com_calls w' = com_calls w /\
    (r = Some true -> truthy vv = true).
Proof.
  unfold attempt_ready, try_except, bind.
  destruct (truthy vv) eqn:Hvv.
  - destruct vv; simpl;
      try (eexists _, _; split; [reflexivity | auto]).
    unfold call. destruct (remote w (PropGet "IsReady")); simpl;
      eexists _, _; (split; [reflexivity | auto]).
  - simpl. eexists _, _. split; [reflexivity |]. repeat split; auto. discriminate.
Qed.

(** Whatever the endpoint does, the retry loop either leaves the instance
    as it was or binds [vv] to a true object. *)
Lemma attempt_loop_result remote attempts : forall vv waitTime self w,
  let '(r, w') := attempt_loop remote attempts vv waitTime self w in
  registry w' = registry w /\ com_calls w' = com_calls w /\
  match r with
  | Return self' => self' = self \/ (self' = <["vv" := vv]> self /\ truthy vv = true)
  | Raise _ => True
  end.
Proof.
  induction attempts as [|attempt rest IH]; intros vv waitTime self w; simpl.
  - auto.
  - destruct (attempt_ready_total remote vv w) as (r & w1 & Hr & Hreg & Hcom & Htrue).
    rewrite (bind_Return _ _ _ _ _ Hr).
    assert (Hnext :
      let '(r', w') := bind (sleep waitTime)
                         (fun _ => attempt_loop remote rest vv (waitTime * 2) self) w1 in
      registry w' = registry w /\ com_calls w' = com_calls w /\
      match r' with
      | Return self' => self' = self \/ (self' = <["vv" := vv]> self /\ truthy vv = true)
      | Raise _ => True
      end).
    { unfold bind. destruct (sleep waitTime w1) as [[[]|e] w2] eqn:Hs.
      - specialize (IH vv (waitTime * 2)%Q self w2).
        destruct (attempt_loop remote rest vv (waitTime * 2) self w2) as [r' w'].
        destruct (sleep_frame waitTime w1) as [H1 H2]. rewrite Hs in H1, H2. simpl in H1, H2.
        destruct IH as (IH1 & IH2 & IH3). repeat split; first [congruence | exact IH3].
      - destruct (sleep_frame waitTime w1) as [H1 H2]. rewrite Hs in H1, H2. simpl in H1, H2.
        repeat split; congruence. }
    destruct r as [[|]|].
    + unfold ret. repeat split; auto.
    + exact Hnext.
    + destruct (attempt =? retryAttempts)%nat; [unfold ret; auto | exact Hnext].
Qed.

Lemma connect_result remote self w :
  exists self' w', connect remote self w = (Return self', w') /\
    registry w' = registry w /\ com_calls w' = com_calls w /\
    (self' = self \/ exists vv, self' = <["vv" := vv]> self /\ truthy vv = true).
Proof.
  unfold connect, try_except.
  pose proof (call_frame remote (Dispatch "VibrationVIEW.TestControl") w) as [Hc1 Hc2].
  destruct (call remote (Dispatch "VibrationVIEW.TestControl") w) as [[vv|e] w1] eqn:Hcall;
    cbn [snd] in Hc1, Hc2.
  - rewrite (bind_Return _ _ _ _ _ Hcall).
    generalize (attempt_loop_result remote (seq 1 retryAttempts) vv (1 # 2) self w1).
    destruct (attempt_loop remote (seq 1 retryAttempts) vv (1 # 2) self w1) as [[self'|e] w2].
    + intros (H1 & H2 & H3). exists self', w2. split; [reflexivity |].
      split; [congruence |]. split; [congruence |].
      destruct H3 as [H3 | [H3 H4]]; eauto.
    + intros (H1 & H2 & _). exists self, w2. split; [reflexivity |].
      split; [congruence |]. split; [congruence | auto].
  - rewrite (bind_Raise _ _ _ _ _ Hcall). exists self, w1. auto.
Qed.

(** The transport part of the constructor: it calls [CoInitialize] exactly
    when the thread is not in its own registry, and the flag it stores
    says whether it did. *)
Lemma init_com_spec thread_id w :
  exists w',
    init_com thread_id w
    = (Return (<["_initialized_com" := VBool (negb (registered thread_id w))]> ∅), w') /\
    trace w' = trace w /\
    registered thread_id w' = true /\
    (forall t, t <> thread_id -> registry w' !! t = registry w !! t) /\
    com_calls w' = com_calls w ++
      (if registered thread_id w then [] else [(thread_id, CoInitialize)]).
Proof.
  unfold init_com, registered, bind, get_registry, pythoncom, set_registry, ret.
  destruct (registry w !! thread_id) as [threads|] eqn:Hreg; simpl.
  - destruct (bool_decide (thread_id ∈ threads)) eqn:Hin; simpl.
    + eexists. split; [reflexivity |]. rewrite Hreg, Hin, app_nil_r. auto.
    + eexists. split; [reflexivity |]. simpl. rewrite lookup_insert_eq.
      repeat split; auto.
      * apply bool_decide_eq_true. set_solver.
      * intros t Ht. now rewrite lookup_insert_ne.
  - eexists. split; [reflexivity |]. simpl. rewrite lookup_insert_eq.
    repeat split; auto.
    + apply bool_decide_eq_true. set_solver.
    + intros t Ht. now rewrite lookup_insert_ne.
Qed.

Lemma vv_absent_raises (self : instance) :
  self !! "vv" = None -> vv_is_None self = Raise (AttributeError "vv").
Proof. intros H. unfold vv_is_None, self_vv, getattr. now rewrite H. Qed.

(** C4, as the code has it. The constructor never raises, and the session
    it leaves either has [vv] bound to an object that tested true or has no
    [vv] attribute at all: [vv] is never bound to [None].  On a session
    that did not connect, the liveness test [connection.vv is None] of the
    callers therefore raises AttributeError instead of reading true. *)
Theorem init_never_binds_null_handle remote thread_id w :
  exists self w', __init__ remote thread_id w = (Return self, w') /\
    ((exists vv, self !! "vv" = Some vv /\ truthy vv = true /\ is_None vv = false)
     \/ (self !! "vv" = None /\ vv_is_None self = Raise (AttributeError "vv"))).
Proof.
  unfold __init__.
  destruct (init_com_spec thread_id w) as (w1 & Hinit & _).
  rewrite (bind_Return _ _ _ _ _ Hinit).
  destruct (connect_result remote
              (<["_initialized_com" := VBool (negb (registered thread_id w))]> ∅) w1)
    as (self & w2 & Hc & _ & _ & Hself).
  exists self, w2. split; [exact Hc |].
  destruct Hself as [-> | (vv & -> & Hvv)].
  - right. assert (H : (<["_initialized_com" := VBool (negb (registered thread_id w))]>
                          (∅ : instance)) !! "vv" = None)
      by now rewrite lookup_insert_ne.
    split; [exact H | now apply vv_absent_raises].
  - left. exists vv. rewrite lookup_insert_eq. repeat split; auto.
    destruct vv; simpl in *; congruence.
Qed.

(** The same on an application that never reports ready: five reads of
    [IsReady], no [vv] attribute afterwards, and a liveness test that
    raises. *)
Example never_ready_session_has_no_vv :
  let r := __init__ never_ready 1 world0 in
  count_reads "IsReady" (trace (snd r)) = 5%nat /\
  match fst r with
  | Return self => self !! "vv" = None /\
                   vv_is_None self = Raise (AttributeError "vv")
  | Raise _ => False
  end.
Proof. vm_compute. auto. Qed.

(** So does a failed dispatch. *)
Example failed_dispatch_session_has_no_vv :
  let unreachable := fun (w : world) (rq : request) =>
                       @Raise val (com_error (-2147221005) "Invalid class string") in
  match fst (__init__ unreachable 1 world0) with
  | Return self => self !! "vv" = None /\
                   vv_is_None self = Raise (AttributeError "vv")
  | Raise _ => False
  end.
Proof. vm_compute. auto. Qed.

(** On the last attempt, a read of [IsReady] that returns a false value is
    followed by a sleep of the current delay ... *)
Lemma last_attempt_not_ready_sleeps remote waitTime self w v :
  remote w (PropGet "IsReady") = Return v -> truthy v = false ->
  Qltb waitTime 0 = false ->
  exists w', attempt_loop remote [retryAttempts] VCom waitTime self w = (Return self, w') /\
    slept w' = slept w ++ [waitTime].
Proof.
  intros Hv Hf Hq. simpl. unfold attempt_ready, try_except, bind, obj_get, call, ret. simpl.
  rewrite Hv, Hf. unfold sleep. simpl. rewrite Hq. eexists. split; reflexivity.
Qed.

(** ... while a read that raises is not: the handler leaves the loop. *)
Lemma last_attempt_raising_does_not_sleep remote waitTime self w e :
  remote w (PropGet "IsReady") = Raise e ->
  exists w', attempt_loop remote [retryAttempts] VCom waitTime self w = (Return self, w') /\
    slept w' = slept w.
Proof.
  intros He. simpl. unfold attempt_ready, try_except, bind, obj_get, call, ret. simpl.
  rewrite He. eexists. split; reflexivity.
Qed.

(** C3, where the code departs from it. On an application that never
    reports ready (and never fails), the constructor reads [IsReady] five
    times and sleeps five times, 0.5, 1, 2, 4 and 8 seconds: the last
    sleep follows the fifth and final attempt, and the total wait is 15.5
    seconds rather than 7.5. *)
Theorem never_ready_sleeps_after_final_attempt :
  let w := snd (__init__ never_ready 1 world0) in
  count_reads "IsReady" (trace w) = retryAttempts /\
  Forall2 Qeq (slept w) [1 # 2; 1; 2; 4; 8]%Q /\
  Qsum (slept w) == 31 # 2.
Proof.
  vm_compute. split; [reflexivity |]. split.
  - repeat constructor.
  - reflexivity.
Qed.

(** The part of C3 that holds: on an application that reports ready on
    the third read, the session is connected after sleeps of 0.5 and 1
    second, 1.5 seconds in all. *)
Example ready_on_third_attempt :
  let r := __init__ (ready_on 3) 1 world0 in
  match fst r with
  | Return self => self !! "vv" = Some VCom
  | Raise _ => False
  end /\
  count_reads "IsReady" (trace (snd r)) = 3%nat /\
  Forall2 Qeq (slept (snd r)) [1 # 2; 1]%Q /\
  Qsum (slept (snd r)) == 3 # 2.
Proof.
  vm_compute. split; [reflexivity |]. split; [reflexivity |]. split.
  - repeat constructor.
  - reflexivity.
Qed.

(** ** Release *)

Lemma release_handle_released (self : instance) :
  self !! "vv" = None \/ self !! "vv" = Some VNone -> release_handle self = self.
Proof. intros [H | H]; unfold release_handle; now rewrite H. Qed.

Lemma release_handle_idem (self : instance) :
  release_handle (release_handle self) = release_handle self.
Proof.
  apply release_handle_released. unfold release_handle.
  destruct (self !! "vv") as [v|] eqn:Hv; [| now left].
  destruct (is_None v) eqn:Hn.
  - right. rewrite Hv. destruct v; simpl in Hn; congruence.
  - right. apply lookup_insert_eq.
Qed.

Lemma close_spec thread_id self w :
  close thread_id self w
  = (Return (release_handle self),
     mkWorld (trace w) (now w) (slept w) (observed w) (registry w)
             (com_calls w ++ [(thread_id, CoUninitialize)]) (overrun w) (clock_calls w)).
Proof. reflexivity. Qed.

(** C2. On a session whose handle was released ([vv] is [None]) or never
    acquired (no [vv] attribute), [close()] returns normally and leaves
    the session as it is; and on any session a first [close()] and then a
    second one both return normally. (The transport call at the end of
    [close], [pythoncom.CoUninitialize], reports no errors.) *)
Theorem close_on_released_handle_returns thread_id (self : instance) w :
  (self !! "vv" = None \/ self !! "vv" = Some VNone ->
   fst (close thread_id self w) = Return self) /\
  (exists s1 w1 w2,
     close thread_id self w = (Return s1, w1) /\
     close thread_id s1 w1 = (Return s1, w2)).
Proof.
  split.
  - intros H. rewrite close_spec. simpl. now rewrite release_handle_released.
  - eexists _, _, _. split; [apply close_spec |].
    rewrite close_spec. now rewrite release_handle_idem.
Qed.

(** On a session that never acquired a handle. *)
Lemma close_on_released_handle_returns_witness :
  fst (close 1 (<["_initialized_com" := VBool true]> ∅) world0)
  = Return (<["_initialized_com" := VBool true]> ∅).
Proof.
  apply (proj1 (close_on_released_handle_returns 1 (<["_initialized_com" := VBool true]> ∅) world0)).
  left. reflexivity.
Defined.

(** ** Vector *)

(** What [Vector] does when the data call fails, for any endpoint: the
    handler looks up [self.log], which neither the instance nor the class
    has, and the AttributeError leaves the method. *)
Lemma Vector_handler_raises remote builtin_int (self : instance) vectorEnum columns w
    rows dataArray n e :
  self !! "vv" = Some VCom -> self !! "log" = None ->
  remote w (Invoke "VectorLength" [vectorEnum]) = Return rows ->
  zero_matrix rows columns = Return dataArray ->
  builtin_int vectorEnum = Return n ->
  remote (logged w (Invoke "VectorLength" [vectorEnum]) (Return rows))
         (Invoke "Vector" [VList dataArray; n]) = Raise e ->
  fst (Vector remote builtin_int self vectorEnum columns w) = Raise (AttributeError "log").
Proof.
  intros Hvv Hlog Hrows Hm Hn He.
  unfold Vector, vv_invoke, self_vv, getattr, bind, lift, try_except, obj_invoke, call.
  rewrite Hvv, Hrows, Hm, Hn. fold (logged w (Invoke "VectorLength" [vectorEnum]) (Return rows)).
  rewrite He. unfold self_log, bind, lift, getattr. rewrite Hlog. reflexivity.
Qed.

(** C1, where the code departs from it. With three rows reported by
    [VectorLength] and a data call that fails, [Vector(20, 2)] on a
    connected session does not return the 3-by-2 matrix of zeros: it raises
    AttributeError, because its handler calls [self.log] and the class has
    no such method. *)
Theorem Vector_raises_when_data_call_fails :
  zero_matrix (VInt 3) (VInt 2)
  = Return (repeat (VList [VFloat 0; VFloat 0]) 3) /\
  fst (Vector no_data int_of_number connected (VInt 20) (VInt 2) world0)
  = Raise (AttributeError "log").
Proof. split; vm_compute; reflexivity. Qed.

(** The row count is read outside the [try]: its failure leaves [Vector]
    as it is. *)
Example Vector_raises_when_length_call_fails :
  fst (Vector failing int_of_number connected (VInt 20) (VInt 2) world0)
  = Raise (com_error (-2147352567) "Exception occurred.").
Proof. vm_compute. reflexivity. Qed.

(** When the data call succeeds, its result is returned. *)
Lemma Vector_returns_data remote builtin_int (self : instance) vectorEnum columns w
    rows dataArray n arr :
  self !! "vv" = Some VCom ->
  remote w (Invoke "VectorLength" [vectorEnum]) = Return rows ->
  zero_matrix rows columns = Return dataArray ->
  builtin_int vectorEnum = Return n ->
  remote (logged w (Invoke "VectorLength" [vectorEnum]) (Return rows))
         (Invoke "Vector" [VList dataArray; n]) = Return arr ->
  fst (Vector remote builtin_int self vectorEnum columns w) = Return arr.
Proof.
  intros Hvv Hrows Hm Hn He.
  unfold Vector, vv_invoke, self_vv, getattr, bind, lift, try_except, obj_invoke, call.
  rewrite Hvv, Hrows, Hm, Hn. fold (logged w (Invoke "VectorLength" [vectorEnum]) (Return rows)).
  now rewrite He.
Qed.

(** ** Get/set pairs *)

Ltac run_connected Hvv :=
  unfold property_pair, channel_pair, vv_get, vv_put, vv_invoke, self_vv, getattr,
         bind, lift, ret, logged;
  rewrite Hvv; cbn [is_None obj_get obj_put obj_invoke];
  unfold bind, call, ret; cbn [fst snd].

Lemma property_pair_write remote (self : instance) member v w :
  self !! "vv" = Some VCom -> is_None v = false ->
  property_pair remote self member v w
  = (match remote w (PropPut member v) with
     | Return _ => Return v
     | Raise e => Raise e
     end, logged w (PropPut member v) (remote w (PropPut member v))).
Proof.
  intros Hvv Hv. unfold property_pair. rewrite Hv. run_connected Hvv.
  now destruct (remote w (PropPut member v)).
Qed.

Lemma property_pair_read remote (self : instance) member w :
  self !! "vv" = Some VCom ->
  property_pair remote self member VNone w
  = (remote w (PropGet member), logged w (PropGet member) (remote w (PropGet member))).
Proof. intros Hvv. run_connected Hvv. reflexivity. Qed.

Lemma channel_pair_write remote (self : instance) member channel v w :
  self !! "vv" = Some VCom -> is_None v = false ->
  channel_pair remote self member channel v w
  = (match remote w (Invoke member [channel; v]) with
     | Return _ => Return v
     | Raise e => Raise e
     end, logged w (Invoke member [channel; v]) (remote w (Invoke member [channel; v]))).
Proof.
  intros Hvv Hv. unfold channel_pair. rewrite Hv. run_connected Hvv.
  now destruct (remote w (Invoke member [channel; v])).
Qed.

Lemma channel_pair_read remote (self : instance) member channel w :
  self !! "vv" = Some VCom ->
  channel_pair remote self member channel VNone w
  = (remote w (Invoke member [channel]),
     logged w (Invoke member [channel]) (remote w (Invoke member [channel]))).
Proof. intros Hvv. run_connected Hvv. reflexivity. Qed.

(** C9. On a connected session, a get/set pair called with a value [v]
    other than [None] sends exactly one request, the write of [v], and
    hands back [v] itself when the write went through (the failure of the
    write otherwise); nothing is read back.  [TestType] writes [int(v)]
    and hands back [v].  Called without a value, a pair sends exactly one
    request, the read, and hands back what it gave. *)
Theorem pair_returns_the_value_it_wrote remote ExtractComErrorInfo builtin_int
    (self : instance) w :
  self !! "vv" = Some VCom ->
  (forall o rq v, pair_write o = Some (rq, v) -> is_None v = false ->
     perform remote ExtractComErrorInfo builtin_int self o w
     = (match remote w rq with Return _ => Return v | Raise e => Raise e end,
        logged w rq (remote w rq))) /\
  (forall v n, is_None v = false -> builtin_int v = Return n ->
     perform remote ExtractComErrorInfo builtin_int self (op_TestType v) w
     = (match remote w (PropPut "TestType" n) with
        | Return _ => Return v
        | Raise e => Raise e
        end, logged w (PropPut "TestType" n) (remote w (PropPut "TestType" n)))) /\
  (forall o rq, pair_read o = Some rq ->
     perform remote ExtractComErrorInfo builtin_int self o w
     = (remote w rq, logged w rq (remote w rq))).
Proof.
  intros Hvv. split; [| split].
  - intros o rq v Ho Hv.
    destruct o; simpl in Ho; try discriminate; injection Ho as <- <-; simpl;
      first [ now apply property_pair_write | now apply channel_pair_write ].
  - intros v n Hv Hn. simpl. unfold TestType. rewrite Hv. run_connected Hvv.
    rewrite Hn. now destruct (remote w (PropPut "TestType" n)).
  - intros o rq Ho.
    destruct o; simpl in Ho; try discriminate;
      repeat match goal with
             | v : val |- _ => destruct v; simpl in Ho; try discriminate
             end.
    all: injection Ho as <-; simpl;
      first [ now apply property_pair_read | now apply channel_pair_read
            | (unfold TestType; run_connected Hvv; reflexivity) ].
Qed.

(** [SweepMultiplier(0.5)] on a connected session. *)
Lemma pair_returns_the_value_it_wrote_witness :
  perform (ready_on 1) error_record int_of_number connected
          (op_SweepMultiplier (VFloat (1 # 2))) world0
  = (Return (VFloat (1 # 2)),
     logged world0 (PropPut "SweepMultiplier" (VFloat (1 # 2))) (Return VNone)).
Proof.
  apply (proj1 (pair_returns_the_value_it_wrote (ready_on 1) error_record int_of_number
                  connected world0 eq_refl)
               (op_SweepMultiplier (VFloat (1 # 2)))
               (PropPut "SweepMultiplier" (VFloat (1 # 2))) (VFloat (1 # 2))
               eq_refl eq_refl).
Defined.

(** ** Propagation of remote failures *)

Lemma issued_app w w' new : trace w' = trace w ++ new -> issued w w' = new.
Proof. intros H. unfold issued. rewrite H. apply drop_app_length. Qed.

Lemma propagating_ret {A} (a : A) : propagating (ret a).
Proof. intros w. exists []. simpl. rewrite app_nil_r. split; [reflexivity | contradiction]. Qed.

Lemma propagating_raise {A} (e : exn) : propagating (@raise A e).
Proof. intros w. exists []. simpl. rewrite app_nil_r. split; [reflexivity | contradiction]. Qed.

Lemma propagating_lift {A} (o : outcome A) : propagating (lift o).
Proof. intros w. exists []. simpl. rewrite app_nil_r. split; [reflexivity | contradiction]. Qed.

Lemma propagating_call remote rq : propagating (call remote rq).
Proof.
  intros w. exists [(rq, remote w rq)]. split; [reflexivity |].
  intros rq' e [H | []]. unfold call. simpl. congruence.
Qed.

Lemma propagating_bind {A B} (m : M A) (k : A -> M B) :
  propagating m -> (forall a, propagating (k a)) -> propagating (bind m k).
Proof.
  intros Hm Hk w. destruct (Hm w) as (new1 & Ht1 & Hf1). unfold bind.
  destruct (m w) as [[a|e] w1] eqn:Hmw; simpl in *.
  - destruct (Hk a w1) as (new2 & Ht2 & Hf2).
    exists (new1 ++ new2). split.
    + rewrite Ht2, Ht1. now rewrite app_assoc.
    + intros rq e Hin. apply in_app_or in Hin. destruct Hin as [Hin | Hin].
      * specialize (Hf1 _ _ Hin). discriminate.
      * exact (Hf2 _ _ Hin).
  - exists new1. split; [exact Ht1 |].
    intros rq e0 Hin. specialize (Hf1 _ _ Hin). congruence.
Qed.

Section Propagation.

Variable remote : world -> request -> outcome val.
Variable ExtractComErrorInfo : exn -> val.
Variable builtin_int : val -> outcome val.

Create HintDb propagate.
Hint Resolve propagating_ret propagating_raise propagating_lift
  propagating_call : propagate.

Ltac propagate :=
  repeat first
    [ apply propagating_ret | apply propagating_raise | apply propagating_lift
    | apply propagating_call
    | apply propagating_bind; [| intros ?]
    | match goal with
      | |- propagating (match ?v with _ => _ end) => destruct v
      | |- propagating (if ?b then _ else _) => destruct b
      end ].

Lemma propagating_vv_get self member : propagating (vv_get remote self member).
Proof. unfold vv_get, obj_get. propagate. Qed.

Lemma propagating_vv_invoke self member args :
  propagating (vv_invoke remote self member args).
Proof. unfold vv_invoke, obj_invoke. propagate. Qed.

Lemma propagating_vv_put self member v : propagating (vv_put remote self member v).
Proof. unfold vv_put, obj_put. propagate. Qed.

Lemma propagating_vv_invoke_int self member x :
  propagating (vv_invoke_int remote builtin_int self member x).
Proof. unfold vv_invoke_int. propagate. Qed.

Lemma propagating_vv_flag self member : propagating (vv_flag remote self member).
Proof. unfold vv_flag. apply propagating_bind; [apply propagating_vv_get | intros; propagate]. Qed.

Lemma propagating_property_pair self member v :
  propagating (property_pair remote self member v).
Proof.
  unfold property_pair. destruct (is_None v).
  - apply propagating_vv_get.
  - apply propagating_bind; [apply propagating_vv_put | intros; propagate].
Qed.

Lemma propagating_channel_pair self member channel v :
  propagating (channel_pair remote self member channel v).
Proof.
  unfold channel_pair. destruct (is_None v).
  - apply propagating_vv_invoke.
  - apply propagating_bind; [apply propagating_vv_invoke | intros; propagate].
Qed.

Hint Resolve propagating_vv_get propagating_vv_invoke propagating_vv_put
  propagating_vv_invoke_int propagating_vv_flag propagating_property_pair
  propagating_channel_pair : propagate.

(** Every operation without a handler of its own propagates. *)
Lemma perform_propagating self o :
  has_handler o = false ->
  propagating (perform remote ExtractComErrorInfo builtin_int self o).
Proof.
  intros Ho. destruct o; try discriminate Ho; simpl;
    cbv beta delta
      [ RunTest OpenTest EditTest StartTest StopTest AbortEdit SaveData Minimize Restore Maximize Activate MenuCommand
      IsRunning IsStarting IsChangingLevel IsHoldLevel IsOpenLoop IsAborted CanResumeTest IsReady ResumeTest
      VectorUnit VectorLabel VectorLength ControlUnit ControlLabel ChannelUnit ChannelLabel ReportField
      RearInputUnit RearInputLabel SweepUp SweepDown SweepStepUp SweepStepDown SweepHold SweepResonanceHold
      DemandMultiplier SweepMultiplier SystemCheckFrequency SystemCheckOutputVoltage SineFrequency
      GetHardwareInputChannels GetHardwareOutputChannels GetHardwareSerialNumber GetSoftwareVersion
      InputCalDate InputSerialNumber InputCapacitorCoupled InputAccelPowerSource InputDifferential
      InputSensitivity InputEngineeringScale InputMode InputCalibration HardwareSupportsCapacitorCoupled
      HardwareSupportsAccelPowerSource HardwareSupportsDifferential GetActiveTest RecordStart RecordStop
      RecordPause RecordGetFilename SetInputConfigurationFile ];
    try solve [ auto with propagate ].
  - (* Status *)
    unfold Status. apply propagating_bind; [auto with propagate | intros; propagate].
  - (* Demand *)
    unfold Demand, GetHardwareOutputChannels.
    apply propagating_bind; [auto with propagate | intros].
    apply propagating_bind; [propagate | intros; auto with propagate].
  - (* Control *)
    unfold Control, GetHardwareOutputChannels.
    apply propagating_bind; [auto with propagate | intros].
    apply propagating_bind; [propagate | intros].
    apply propagating_bind; [auto with propagate | intros; propagate].
  - (* Output *)
    unfold Output, GetHardwareOutputChannels.
    apply propagating_bind; [auto with propagate | intros].
    apply propagating_bind; [propagate | intros].
    apply propagating_bind; [auto with propagate | intros; propagate].
  - (* RearInput *)
    unfold RearInput.
    apply propagating_bind; [auto with propagate | intros; propagate].
  - (* TestType *)
    unfold TestType, obj_put. destruct (is_None value); [auto with propagate |].
    propagate.
Qed.

End Propagation.

Lemma propagating_issued {A} (m : M A) w rq e :
  propagating m -> In (rq, Raise e) (issued w (snd (m w))) -> fst (m w) = Raise e.
Proof.
  intros Hm Hin. destruct (Hm w) as (new & Ht & Hf).
  rewrite (issued_app _ _ _ Ht) in Hin. exact (Hf _ _ Hin).
Qed.

(** A handler that returns a constant hides every failure of the body. *)
Lemma handler_hides {A} (m : M A) (a : A) w rq e :
  propagating m ->
  In (rq, Raise e) (issued w (snd (try_except m (fun _ => ret a) w))) ->
  fst (try_except m (fun _ => ret a) w) = Return a.
Proof.
  intros Hm Hin. destruct (Hm w) as (new & Ht & Hf). unfold try_except in *.
  destruct (m w) as [[x|e'] w1]; simpl in *.
  - rewrite (issued_app _ _ _ Ht) in Hin. specialize (Hf _ _ Hin). discriminate.
  - reflexivity.
Qed.

Lemma handler_total {A} (m : M A) (a : A) w :
  exists x, fst (try_except m (fun _ => ret a) w) = Return x.
Proof. unfold try_except. destruct (m w) as [[x|e] w1]; simpl; eauto. Qed.

Lemma Channel_body_propagating remote self :
  propagating (do num_channels <- GetHardwareInputChannels remote self;
               do arr <- lift (zeros num_channels);
               vv_invoke remote self "Channel" [VList arr]).
Proof.
  apply propagating_bind; [apply propagating_vv_get | intros a].
  apply propagating_bind; [apply propagating_lift | intros arr].
  apply propagating_vv_invoke.
Qed.

(** C8 as stated does not hold: [Channel] is not one of the two documented
    soft-fail paths, and on an application whose calls fail it returns the
    empty list although the request it sent failed. *)
Lemma Channel_swallows_remote_failure :
  let r := perform failing error_record int_of_number connected op_Channel world0 in
  documented_soft_fail op_Channel = false /\
  In (PropGet "HardwareInputChannels", Raise (com_error (-2147352567) "Exception occurred."))
     (issued world0 (snd r)) /\
  fst r = Return (VList []).
Proof. vm_compute. split; [reflexivity |]. split; [left |]; reflexivity. Qed.

(** C8, amended. An operation whose body has no handler of its own (every
    operation but [Vector], [Teds] and [Channel]) raises the failure of any
    request it sent.  [Channel] returns the empty list when a request it
    sent failed, and [Teds] never raises. *)
Theorem operations_without_handler_propagate remote ExtractComErrorInfo builtin_int
    (self : instance) w :
  (forall o rq e,
     has_handler o = false ->
     In (rq, Raise e)
        (issued w (snd (perform remote ExtractComErrorInfo builtin_int self o w))) ->
     fst (perform remote ExtractComErrorInfo builtin_int self o w) = Raise e) /\
  (forall rq e,
     In (rq, Raise e) (issued w (snd (Channel remote self w))) ->
     fst (Channel remote self w) = Return (VList [])) /\
  (forall channel, exists v,
     fst (Teds remote ExtractComErrorInfo self channel w) = Return v).
Proof.
  split; [| split].
  - intros o rq e Ho Hin.
    exact (propagating_issued _ w rq e
             (perform_propagating remote ExtractComErrorInfo builtin_int self o Ho) Hin).
  - intros rq e Hin. unfold Channel in *.
    exact (handler_hides _ _ w rq e (Channel_body_propagating remote self) Hin).
  - intros channel. unfold Teds. apply handler_total.
Qed.

(** [StartTest()] on an application whose calls fail. *)
Lemma operations_without_handler_propagate_witness :
  fst (perform failing error_record int_of_number connected op_StartTest world0)
  = Raise (com_error (-2147352567) "Exception occurred.").
Proof.
  apply (proj1 (operations_without_handler_propagate failing error_record int_of_number
                  connected world0)
               op_StartTest (Invoke "StartTest" [])
               (com_error (-2147352567) "Exception occurred.") eq_refl).
  vm_compute. left. reflexivity.
Defined.

(** ** TEDS retrieval *)

Lemma filled_not_blank r : filled r = true -> blank r = false.
Proof.
  unfold filled, blank. destruct (String.eqb (fst r) ""); simpl; [discriminate | reflexivity].
Qed.

(** On a sheet of string pairs the comprehension keeps exactly the rows
    whose two cells are both non-empty. *)
Lemma keep_filled_rows rows :
  keep_filled (map row_val rows) = Return (map row_val (List.filter filled rows)).
Proof.
  induction rows as [|[k v] rows IH]; [reflexivity |].
  cbn [map List.filter keep_filled]. unfold row_val at 1 2. cbn [item_at nth_error fst snd truthy].
  unfold filled at 1. cbn [fst snd].
  destruct (String.eqb k "") eqn:Hk; cbn [negb andb].
  - exact IH.
  - rewrite IH. destruct (String.eqb v ""); reflexivity.
Qed.

Lemma filter_sublist {A} (f : A -> bool) (l : list A) : sublist (List.filter f l) l.
Proof.
  induction l as [|a l IH]; simpl; [constructor |].
  destruct (f a); now constructor.
Qed.

Lemma filter_idem {A} (f : A -> bool) (l : list A) :
  List.filter f (List.filter f l) = List.filter f l.
Proof.
  induction l as [|a l IH]; simpl; [reflexivity |].
  destruct (f a) eqn:Hf; simpl; [rewrite Hf; now f_equal | exact IH].
Qed.

Lemma filter_filled_well_cleaned rows : well_cleaned rows (List.filter filled rows).
Proof.
  split; [apply filter_sublist |]. split; [apply filter_idem |].
  apply List.Forall_forall. intros r Hr. apply List.filter_In in Hr.
  apply filled_not_blank, Hr.
Qed.

Section TedsLoop.

Variable remote : world -> request -> outcome val.
Variable ExtractComErrorInfo : exn -> val.
Variable self : instance.
Hypothesis Hvv : self !! "vv" = Some VCom.

Let teds_call (c : Z) : request := Invoke "Teds" [VInt c; string_buffer].

(** One channel: the call is logged, and the entry depends on its outcome
    alone. *)
Lemma teds_channel c w :
  try_except (teds_entry remote self string_buffer (VInt c))
             (teds_error ExtractComErrorInfo (VInt c)) w
  = (Return (teds_record ExtractComErrorInfo c (remote w (teds_call c))),
     logged w (teds_call c) (remote w (teds_call c))).
Proof.
  unfold try_except, teds_entry, teds_error, teds_record, vv_invoke, self_vv, getattr,
    bind, lift, ret, logged.
  rewrite Hvv. cbn [obj_invoke]. unfold call. fold (teds_call c).
  destruct (remote w (teds_call c)) as [tedsInfo|e]; cbn [plus_one]; [| reflexivity].
  destruct (iter_items tedsInfo) as [items|e]; [| reflexivity].
  destruct (keep_filled items); reflexivity.
Qed.

(** The loop: one call and one entry per channel, in order, whatever the
    outcomes of the calls. *)
Lemma teds_loop_entries cs : forall acc w,
  exists entries calls w',
    teds_loop remote ExtractComErrorInfo self string_buffer (map VInt cs) acc w
    = (Return (acc ++ entries), w') /\
    trace w' = trace w ++ calls /\
    length entries = length cs /\
    forall i c, cs !! i = Some c ->
      exists o, calls !! i = Some (teds_call c, o) /\
                entries !! i = Some (teds_record ExtractComErrorInfo c o).
Proof.
  induction cs as [|c cs IH]; intros acc w.
  - exists [], [], w. simpl. unfold ret. rewrite !app_nil_r.
    repeat split; auto. intros i c Hi. discriminate.
  - cbn [map teds_loop].
    rewrite (bind_Return _ _ _ _ _ (teds_channel c w)).
    set (o := remote w (teds_call c)).
    destruct (IH (acc ++ [teds_record ExtractComErrorInfo c o]) (logged w (teds_call c) o))
      as (entries & calls & w' & Hrun & Htrace & Hlen & Hi).
    exists (teds_record ExtractComErrorInfo c o :: entries), ((teds_call c, o) :: calls), w'.
    split; [rewrite Hrun; now rewrite <- app_assoc |].
    split; [rewrite Htrace; simpl; now rewrite <- app_assoc |].
    split; [simpl; now rewrite Hlen |].
    intros [|i] c' Hc'; simpl in Hc'.
    + injection Hc' as <-. exists o. split; reflexivity.
    + exact (Hi i c' Hc').
Qed.

End TedsLoop.

(** C7 as stated does not hold. On a sheet with a blank row between two
    entries, stripping the trailing blank rows keeps that row, and [Teds]
    does not: its comprehension drops it. *)
Lemma Teds_drops_blank_row_between_entries :
  strip_trailing_blank gap_rows
  = [("Manufacturer", "PCB"); ("", ""); ("Model", "352C33")] /\
  fst (Teds sheet_with_gap error_record connected VNone world0)
  = Return (VList [VDict [("Channel", VInt 1);
                          ("Teds", rows_val [("Manufacturer", "PCB"); ("Model", "352C33")])]]) /\
  fst (Teds sheet_with_gap error_record connected VNone world0)
  <> Return (VList [VDict [("Channel", VInt 1);
                           ("Teds", rows_val (strip_trailing_blank gap_rows))]]).
Proof.
  split; [vm_compute; reflexivity |]. split; [vm_compute; reflexivity |].
  vm_compute. discriminate.
Qed.

(** C7, amended. On a connected session with [n] input channels, [Teds()]
    sends one TEDS call per channel, in order, and returns one entry per
    channel, whatever the calls do.  The entry of a channel whose call
    failed is its 1-based number with the error record of the failure.
    The entry of a channel whose call returned a sheet of string pairs is
    its 1-based number with a cleaned sheet: the rows of the sheet in
    their order, with every row of two non-empty cells kept and every row
    of two empty cells removed, wherever it stands. *)
Theorem Teds_entry_per_channel remote ExtractComErrorInfo (self : instance) w n :
  self !! "vv" = Some VCom ->
  remote w (PropGet "HardwareInputChannels") = Return (VInt (Z.of_nat n)) ->
  exists entries calls w',
    Teds remote ExtractComErrorInfo self VNone w = (Return (VList entries), w') /\
    issued w w'
    = (PropGet "HardwareInputChannels", Return (VInt (Z.of_nat n))) :: calls /\
    length entries = n /\
    forall i, (i < n)%nat ->
      exists o,
        calls !! i = Some (Invoke "Teds" [VInt (Z.of_nat i); string_buffer], o) /\
        match o with
        | Raise e =>
            entries !! i
            = Some (VDict [("Channel", VInt (Z.of_nat i + 1));
                           ("Error", ExtractComErrorInfo e)])
        | Return tedsInfo =>
            forall rows, tedsInfo = rows_val rows ->
              exists cleaned,
                entries !! i
                = Some (VDict [("Channel", VInt (Z.of_nat i + 1));
                               ("Teds", rows_val cleaned)]) /\
                well_cleaned rows cleaned
        end.
Proof.
  intros Hvv Hn.
  set (w1 := logged w (PropGet "HardwareInputChannels") (Return (VInt (Z.of_nat n)))).
  destruct (teds_loop_entries remote ExtractComErrorInfo self Hvv
              (map Z.of_nat (seq 0 n)) [] w1)
    as (entries & calls & w' & Hrun & Htrace & Hlen & Hi).
  exists entries, calls, w'. split; [| split; [| split]].
  - unfold Teds, try_except, GetHardwareInputChannels, vv_get, self_vv, getattr, bind, lift.
    rewrite Hvv. cbn [obj_get is_None]. unfold call. rewrite Hn.
    cbn [index_of]. rewrite Nat2Z.id, <- (map_map Z.of_nat VInt).
    unfold w1, logged in Hrun. rewrite Hrun. reflexivity.
  - apply issued_app. rewrite Htrace. unfold w1, logged. simpl.
    now rewrite <- app_assoc.
  - rewrite Hlen. now rewrite length_map, length_seq.
  - intros i Hlt.
    assert (Hci : map Z.of_nat (seq 0 n) !! i = Some (Z.of_nat i)).
    { rewrite list_lookup_fmap, lookup_seq_lt by exact Hlt. reflexivity. }
    destruct (Hi i _ Hci) as (o & Hcall & Hentry).
    exists o. split; [exact Hcall |].
    destruct o as [tedsInfo|e]; [| exact Hentry].
    intros rows ->. exists (List.filter filled rows).
    split; [| apply filter_filled_well_cleaned].
    rewrite Hentry. unfold teds_record, rows_val. cbn [iter_items].
    now rewrite keep_filled_rows.
Qed.

(** [Teds()] on an application with one input channel. *)
Lemma Teds_entry_per_channel_witness :
  exists entries,
    fst (Teds sheet_with_gap error_record connected VNone world0) = Return (VList entries) /\
    length entries = 1%nat.
Proof.
  destruct (Teds_entry_per_channel sheet_with_gap error_record connected world0 1
              eq_refl eq_refl)
    as (entries & calls & w' & Hrun & _ & Hlen & _).
  exists entries. rewrite Hrun. split; [reflexivity | exact Hlen].
Defined.

(** The comprehension also drops an entry whose value is empty, which its
    own comment ("those where both key and value are empty") does not
    announce. *)
Example keep_filled_drops_entry_without_value :
  keep_filled (map row_val [("Manufacturer", "PCB"); ("Comment", "")])
  = Return [row_val ("Manufacturer", "PCB")].
Proof. reflexivity. Qed.

(** ** The polling helpers *)

Local Open Scope Q_scope.

Lemma Qltb_true x y : Qltb x y = true <-> x < y.
Proof.
  unfold Qltb. rewrite negb_true_iff. split.
  - intros H. apply Qnot_le_lt. intros Hle. apply Qle_bool_iff in Hle. congruence.
  - intros H. destruct (Qle_bool y x) eqn:Hb; [| reflexivity].
    apply Qle_bool_iff in Hb. exfalso. exact (Qlt_not_le _ _ H Hb).
Qed.

Lemma Qltb_false x y : Qltb x y = false <-> y <= x.
Proof.
  unfold Qltb. rewrite negb_false_iff. apply Qle_bool_iff.
Qed.

Lemma budget_eq f ci : budget f ci == inject_Z (Z.of_nat f) * ci.
Proof.
  induction f as [|f IH].
  - simpl. ring.
  - cbn [budget]. rewrite IH, Nat2Z.inj_succ. unfold Z.succ. rewrite inject_Z_plus. ring.
Qed.

Lemma budget_mono f g ci : 0 <= ci -> (f <= g)%nat -> budget f ci <= budget g ci.
Proof.
  intros Hci Hle. induction Hle as [|g Hle IH].
  - apply Qle_refl.
  - cbn [budget]. lra.
Qed.

(** Any span of time is covered by enough rounds of a positive interval. *)
Lemma budget_reaches x ci : 0 < ci -> exists f, x <= budget f ci.
Proof.
  intros Hci. exists (Z.to_nat (Qnum x * Z.pos (Qden ci))).
  rewrite budget_eq. destruct x as [a b], ci as [c d].
  unfold Qlt in Hci. unfold Qle, Qmult, inject_Z. simpl in *.
  change (Z.pos (1 * d)) with (Z.pos d).
  pose proof (Pos2Z.is_pos d) as Hd. pose proof (Pos2Z.is_pos b) as Hb.
  destruct (Z_le_gt_dec a 0) as [Ha | Ha].
  - rewrite Z2Nat.nonpos by nia. simpl. nia.
  - rewrite Z2Nat.id by nia.
    assert (Hcb : (1 <= c * Z.pos b)%Z) by nia.
    assert (Had : (0 <= a * Z.pos d)%Z) by nia.
    rewrite <- Z.mul_assoc. nia.
Qed.

Lemma last_cons {A} (l : list A) : forall a d, List.last (a :: l) d = List.last l a.
Proof.
  induction l as [|b l IH]; intros a d; [reflexivity |].
  change (List.last (a :: b :: l) d) with (List.last (b :: l) d).
  rewrite (IH b d). symmetry. apply (IH b a).
Qed.

(** The clock does not run backwards. *)
Lemma seconds_ge0 (d : duration) : 0 <= seconds d.
Proof. apply Qle_bool_iff, seconds_nonneg. Qed.

Lemma time_time_eq u : time_time u = (Return (now (at_sample u)), at_sample u).
Proof. reflexivity. Qed.

Lemma at_sample_frame u :
  slept (at_sample u) = slept u /\ observed (at_sample u) = observed u /\
  now u <= now (at_sample u).
Proof.
  unfold at_sample, time_time. cbn [snd slept observed now].
  pose proof (seconds_ge0 (overrun u (clock_calls u))). repeat split; lra.
Qed.

Lemma sleep_inv d x w2 :
  sleep d x = (Return tt, w2) ->
  0 <= d /\ slept w2 = slept x ++ [d] /\ observed w2 = observed x /\ now x + d <= now w2.
Proof.
  unfold sleep. destruct (Qltb d 0) eqn:Hd; [discriminate |].
  intros H. injection H as <-. cbn [slept observed now].
  apply Qltb_false in Hd. pose proof (seconds_ge0 (overrun x (clock_calls x))).
  repeat split; auto; lra.
Qed.

Lemma sleep_returns d x : 0 <= d -> sleep d x = (Return tt, snd (sleep d x)).
Proof.
  intros Hd. apply Qltb_false in Hd. unfold sleep. rewrite Hd. reflexivity.
Qed.

Lemma map_seq_S {A} (f : nat -> A) n :
  map f (seq 0 (S n)) = f 0%nat :: map (fun i => f (S i)) (seq 0 n).
Proof. cbn [seq map]. f_equal. rewrite <- seq_shift, map_map. reflexivity. Qed.

Section PollingFacts.

Variable condition_func : world -> val.
Variable latency : world -> Q.
Variable check_interval : Q.

Local Abbreviation P := (poll condition_func latency check_interval).
Local Abbreviation Ps := (polls condition_func latency check_interval).
Local Abbreviation next := (next_round condition_func latency check_interval).

(** One round of either loop past the clock test: the sample. *)
Lemma sample_spec w :
  sample condition_func latency w
  = (Return (condition_func w), snd (sample condition_func latency w)).
Proof. reflexivity. Qed.

Lemma sample_frame w :
  slept (snd (sample condition_func latency w)) = slept w /\
  observed (snd (sample condition_func latency w)) = observed w ++ [condition_func w] /\
  now (snd (sample condition_func latency w)) = now w + latency w.
Proof. repeat split; reflexivity. Qed.

Lemma poll_S i u : P (S i) u = P i (next u).
Proof. reflexivity. Qed.

Lemma polls_S n u : Ps (S n) u = condition_func (P 0 u) :: Ps n (next u).
Proof. unfold polls. rewrite map_seq_S. reflexivity. Qed.

Lemma polls_snoc n u : Ps (S n) u = Ps n u ++ [condition_func (P n u)].
Proof. unfold polls. rewrite seq_S, map_app. reflexivity. Qed.

Lemma polls_length n u : length (Ps n u) = n.
Proof. unfold polls. now rewrite length_map, length_seq. Qed.

(** The round that follows a sample and a sleep that returned. *)
Lemma next_round_frame u w2 :
  sleep check_interval (snd (sample condition_func latency (at_sample u))) = (Return tt, w2) ->
  w2 = next u /\ 0 <= check_interval /\
  slept w2 = slept u ++ [check_interval] /\
  observed w2 = observed u ++ [condition_func (at_sample u)].
Proof.
  intros Hs. destruct (sleep_inv _ _ _ Hs) as (Hci & Hsl & Hob & _).
  destruct (at_sample_frame u) as (Hs1 & Ho1 & _).
  destruct (sample_frame (at_sample u)) as (Hs2 & Ho2 & _).
  split; [unfold next_round; now rewrite Hs |]. split; [exact Hci |].
  split; [now rewrite Hsl, Hs2, Hs1 | now rewrite Hob, Ho2, Ho1].
Qed.

(** Each round takes the length of its sleep at least. *)
Lemma next_round_now u :
  (forall w, 0 <= latency w) -> now u + check_interval <= now (next u).
Proof.
  intros Hlat. unfold next_round.
  destruct (at_sample_frame u) as (_ & _ & Hn1).
  destruct (sample_frame (at_sample u)) as (_ & _ & Hn2).
  pose proof (Hlat (at_sample u)) as Hl.
  set (x := snd (sample condition_func latency (at_sample u))) in *.
  assert (Hx : now u <= now x) by (rewrite Hn2; lra).
  unfold sleep. destruct (Qltb check_interval 0) eqn:Hd; cbn [snd now].
  - apply Qltb_true in Hd. lra.
  - pose proof (seconds_ge0 (overrun x (clock_calls x))). lra.
Qed.

Lemma round_entry_now i : forall u,
  (forall w, 0 <= latency w) ->
  now u + budget i check_interval
  <= now (round_entry condition_func latency check_interval i u).
Proof.
  induction i as [|i IH]; intros u Hlat; cbn [round_entry budget]; [lra |].
  pose proof (IH (next u) Hlat). pose proof (next_round_now u Hlat). lra.
Qed.

Lemma poll_now i u :
  (forall w, 0 <= latency w) -> now u + budget i check_interval <= now (P i u).
Proof.
  intros Hlat. unfold poll.
  pose proof (round_entry_now i u Hlat).
  destruct (at_sample_frame (round_entry condition_func latency check_interval i u))
    as (_ & _ & H1). lra.
Qed.

(** *** The loop of [wait_for_condition] *)

(** What a run of the loop that comes back has done: [k] rounds in which
    the clock test passed and the sample read false, each followed by a
    sleep, and then either a sample that read true, taken in time, or a
    clock test that failed. *)
Lemma wait_for_condition_loop_sound fuel : forall start wt result u r w',
  wait_for_condition_loop condition_func latency fuel start wt check_interval result u
  = (Return (Some r), w') ->
  exists k, (k < fuel)%nat /\
    (forall i, (i < k)%nat ->
       Qltb (now (P i u) - start) wt = true /\ truthy (condition_func (P i u)) = false) /\
    slept w' = slept u ++ repeat check_interval k /\
    ((Qltb (now (P k u) - start) wt = true /\
      truthy (condition_func (P k u)) = true /\
      r = condition_func (P k u) /\
      w' = snd (sample condition_func latency (P k u)) /\
      observed w' = observed u ++ Ps (S k) u)
     \/ (Qltb (now (P k u) - start) wt = false /\
         r = List.last (Ps k u) result /\
         w' = P k u /\
         observed w' = observed u ++ Ps k u)).
Proof.
  induction fuel as [|fuel IH]; intros start wt result u r w' H; [discriminate H |].
  cbn [wait_for_condition_loop] in H. unfold bind at 1 in H. rewrite time_time_eq in H.
  destruct (at_sample_frame u) as (Hs1 & Ho1 & _).
  destruct (Qltb (now (at_sample u) - start) wt) eqn:Hclock.
  - unfold bind at 1 in H. rewrite sample_spec in H.
    destruct (truthy (condition_func (at_sample u))) eqn:Hv.
    + injection H as <- <-. exists 0%nat. split; [lia |].
      split; [intros i Hi; lia |]. split; [cbn; now rewrite app_nil_r |].
      left. repeat split; auto.
    + unfold bind at 1 in H.
      destruct (sleep check_interval _) as [[[]|e] w2] eqn:Hs; [| discriminate H].
      destruct (next_round_frame u w2 Hs) as (-> & Hci & Hsl & Hob).
      destruct (IH _ _ _ _ _ _ H) as (k & Hk & Hall & Hslept & Hend).
      exists (S k). split; [lia |]. split; [| split].
      * intros [|i] Hi; [split; assumption |]. rewrite poll_S. apply Hall. lia.
      * rewrite Hslept, Hsl. cbn [repeat]. now rewrite <- app_assoc.
      * rewrite poll_S.
        destruct Hend as [(Ht & Hr & -> & -> & Ho) | (Ht & -> & -> & Ho)]; [left | right].
        -- repeat split; auto.
           rewrite Ho, Hob, (polls_S (S k)), <- app_assoc. reflexivity.
        -- repeat split; auto.
           ++ rewrite polls_S. now rewrite last_cons.
           ++ rewrite Ho, Hob, polls_S, <- app_assoc. reflexivity.
  - injection H as <- <-. exists 0%nat. split; [lia |].
    split; [intros i Hi; lia |]. split; [cbn; now rewrite app_nil_r |].
    right. repeat split; auto. cbn. now rewrite app_nil_r.
Qed.

(** Conversely, the loop comes back with the first sample that reads
    true in time, ... *)
Lemma wait_for_condition_loop_hit k : forall fuel start wt result u,
  (k < fuel)%nat -> (k = 0%nat \/ 0 <= check_interval) ->
  (forall i, (i < k)%nat ->
     Qltb (now (P i u) - start) wt = true /\ truthy (condition_func (P i u)) = false) ->
  Qltb (now (P k u) - start) wt = true ->
  truthy (condition_func (P k u)) = true ->
  wait_for_condition_loop condition_func latency fuel start wt check_interval result u
  = (Return (Some (condition_func (P k u))), snd (sample condition_func latency (P k u))).
Proof.
  induction k as [|k IH]; intros fuel start wt result u Hfuel Hci Hall Ht Hv;
    (destruct fuel as [|fuel]; [lia |]);
    cbn [wait_for_condition_loop]; unfold bind at 1; rewrite time_time_eq.
  - change (P 0 u) with (at_sample u) in *. rewrite Ht. unfold bind at 1.
    rewrite sample_spec, Hv. reflexivity.
  - destruct (Hall 0%nat ltac:(lia)) as [Ht0 Hv0].
    change (P 0 u) with (at_sample u) in *. rewrite Ht0. unfold bind at 1.
    rewrite sample_spec, Hv0. unfold bind at 1.
    destruct Hci as [Hci | Hci]; [discriminate Hci |].
    rewrite (sleep_returns _ _ Hci).
    change (snd (sleep check_interval (snd (sample condition_func latency (at_sample u)))))
      with (next u).
    rewrite poll_S in *. apply IH; auto; [lia |].
    intros i Hi. rewrite <- poll_S. apply Hall. lia.
Qed.

(** ... and otherwise with the last sample, or with what it started from,
    when the clock test fails. *)
Lemma wait_for_condition_loop_timeout k : forall fuel start wt result u,
  (k < fuel)%nat -> (k = 0%nat \/ 0 <= check_interval) ->
  (forall i, (i < k)%nat ->
     Qltb (now (P i u) - start) wt = true /\ truthy (condition_func (P i u)) = false) ->
  Qltb (now (P k u) - start) wt = false ->
  wait_for_condition_loop condition_func latency fuel start wt check_interval result u
  = (Return (Some (List.last (Ps k u) result)), P k u).
Proof.
  induction k as [|k IH]; intros fuel start wt result u Hfuel Hci Hall Ht;
    (destruct fuel as [|fuel]; [lia |]);
    cbn [wait_for_condition_loop]; unfold bind at 1; rewrite time_time_eq.
  - change (P 0 u) with (at_sample u) in *. rewrite Ht. reflexivity.
  - destruct (Hall 0%nat ltac:(lia)) as [Ht0 Hv0].
    change (P 0 u) with (at_sample u) in *. rewrite Ht0. unfold bind at 1.
    rewrite sample_spec, Hv0. unfold bind at 1.
    destruct Hci as [Hci | Hci]; [discriminate Hci |].
    rewrite (sleep_returns _ _ Hci).
    change (snd (sleep check_interval (snd (sample condition_func latency (at_sample u)))))
      with (next u).
    rewrite polls_S, last_cons, poll_S in *.
    apply IH; auto; [lia |].
    intros i Hi. rewrite <- poll_S. apply Hall. lia.
Qed.

(** With a positive interval the loop is over within the rounds that the
    remaining time allows. *)
Lemma wait_for_condition_loop_returns :
  0 < check_interval -> (forall w, 0 <= latency w) ->
  forall f start wt result u,
    wt - (now u - start) <= budget f check_interval ->
    forall fuel, (f < fuel)%nat ->
    exists r w',
      wait_for_condition_loop condition_func latency fuel start wt check_interval result u
      = (Return (Some r), w').
Proof.
  intros Hci Hlat. induction f as [|f IH]; intros start wt result u Hrem fuel Hfuel;
    (destruct fuel as [|fuel]; [lia |]);
    cbn [wait_for_condition_loop]; unfold bind at 1; rewrite time_time_eq;
    destruct (at_sample_frame u) as (_ & _ & Hn1);
    destruct (Qltb (now (at_sample u) - start) wt) eqn:Hclock;
    try (eexists _, _; reflexivity).
  - apply Qltb_true in Hclock. cbn [budget] in Hrem. lra.
  - unfold bind at 1. rewrite sample_spec.
    destruct (truthy (condition_func (at_sample u))); [eexists _, _; reflexivity |].
    unfold bind at 1. rewrite (sleep_returns _ _ (Qlt_le_weak _ _ Hci)).
    apply IH; [| lia].
    change (snd (sleep check_interval (snd (sample condition_func latency (at_sample u)))))
      with (next u).
    pose proof (next_round_now u Hlat). cbn [budget] in Hrem. lra.
Qed.

(** *** The loop of [_wait_for_not] and [wait_for_not] *)

Lemma wait_for_not_loop_sound literal fuel : forall start wt u r w',
  wait_for_not_loop condition_func latency literal fuel start wt check_interval u
  = (Return (Some r), w') ->
  exists k, (k < fuel)%nat /\
    (forall i, (i < k)%nat ->
       Qltb (now (P i u) - start) wt = true /\ truthy (condition_func (P i u)) = true) /\
    slept w' = slept u ++ repeat check_interval k /\
    ((Qltb (now (P k u) - start) wt = true /\
      truthy (condition_func (P k u)) = false /\
      r = (if literal then VBool false else condition_func (P k u)) /\
      w' = snd (sample condition_func latency (P k u)) /\
      observed w' = observed u ++ Ps (S k) u)
     \/ (Qltb (now (P k u) - start) wt = false /\
         r = VBool true /\
         w' = P k u /\
         observed w' = observed u ++ Ps k u)).
Proof.
  induction fuel as [|fuel IH]; intros start wt u r w' H; [discriminate H |].
  cbn [wait_for_not_loop] in H. unfold bind at 1 in H. rewrite time_time_eq in H.
  destruct (at_sample_frame u) as (Hs1 & Ho1 & _).
  destruct (Qltb (now (at_sample u) - start) wt) eqn:Hclock.
  - unfold bind at 1 in H. rewrite sample_spec in H.
    destruct (truthy (condition_func (at_sample u))) eqn:Hv; cbn [negb] in H.
    + unfold bind at 1 in H.
      destruct (sleep check_interval _) as [[[]|e] w2] eqn:Hs; [| discriminate H].
      destruct (next_round_frame u w2 Hs) as (-> & Hci & Hsl & Hob).
      destruct (IH _ _ _ _ _ H) as (k & Hk & Hall & Hslept & Hend).
      exists (S k). split; [lia |]. split; [| split].
      * intros [|i] Hi; [split; assumption |]. rewrite poll_S. apply Hall. lia.
      * rewrite Hslept, Hsl. cbn [repeat]. now rewrite <- app_assoc.
      * rewrite poll_S.
        destruct Hend as [(Ht & Hr & -> & -> & Ho) | (Ht & -> & -> & Ho)]; [left | right].
        -- repeat split; auto.
           rewrite Ho, Hob, (polls_S (S k)), <- app_assoc. reflexivity.
        -- repeat split; auto.
           rewrite Ho, Hob, polls_S, <- app_assoc. reflexivity.
    + injection H as <- <-. exists 0%nat. split; [lia |].
      split; [intros i Hi; lia |]. split; [cbn; now rewrite app_nil_r |].
      left. repeat split; auto.
  - injection H as <- <-. exists 0%nat. split; [lia |].
    split; [intros i Hi; lia |]. split; [cbn; now rewrite app_nil_r |].
    right. repeat split; auto. cbn. now rewrite app_nil_r.
Qed.

Lemma wait_for_not_loop_hit literal k : forall fuel start wt u,
  (k < fuel)%nat -> (k = 0%nat \/ 0 <= check_interval) ->
  (forall i, (i < k)%nat ->
     Qltb (now (P i u) - start) wt = true /\ truthy (condition_func (P i u)) = true) ->
  Qltb (now (P k u) - start) wt = true ->
  truthy (condition_func (P k u)) = false ->
  wait_for_not_loop condition_func latency literal fuel start wt check_interval u
  = (Return (Some (if literal then VBool false else condition_func (P k u))),
     snd (sample condition_func latency (P k u))).
Proof.
  induction k as [|k IH]; intros fuel start wt u Hfuel Hci Hall Ht Hv;
    (destruct fuel as [|fuel]; [lia |]);
    cbn [wait_for_not_loop]; unfold bind at 1; rewrite time_time_eq.
  - change (P 0 u) with (at_sample u) in *. rewrite Ht. unfold bind at 1.
    rewrite sample_spec, Hv. reflexivity.
  - destruct (Hall 0%nat ltac:(lia)) as [Ht0 Hv0].
    change (P 0 u) with (at_sample u) in *. rewrite Ht0. unfold bind at 1.
    rewrite sample_spec, Hv0. cbn [negb]. unfold bind at 1.
    destruct Hci as [Hci | Hci]; [discriminate Hci |].
    rewrite (sleep_returns _ _ Hci).
    change (snd (sleep check_interval (snd (sample condition_func latency (at_sample u)))))
      with (next u).
    rewrite poll_S in *. apply IH; auto; [lia |].
    intros i Hi. rewrite <- poll_S. apply Hall. lia.
Qed.

Lemma wait_for_not_loop_timeout literal k : forall fuel start wt u,
  (k < fuel)%nat -> (k = 0%nat \/ 0 <= check_interval) ->
  (forall i, (i < k)%nat ->
     Qltb (now (P i u) - start) wt = true /\ truthy (condition_func (P i u)) = true) ->
  Qltb (now (P k u) - start) wt = false ->
  wait_for_not_loop condition_func latency literal fuel start wt check_interval u
  = (Return (Some (VBool true)), P k u).
Proof.
  induction k as [|k IH]; intros fuel start wt u Hfuel Hci Hall Ht;
    (destruct fuel as [|fuel]; [lia |]);
    cbn [wait_for_not_loop]; unfold bind at 1; rewrite time_time_eq.
  - change (P 0 u) with (at_sample u) in *. rewrite Ht. reflexivity.
  - destruct (Hall 0%nat ltac:(lia)) as [Ht0 Hv0].
    change (P 0 u) with (at_sample u) in *. rewrite Ht0. unfold bind at 1.
    rewrite sample_spec, Hv0. cbn [negb]. unfold bind at 1.
    destruct Hci as [Hci | Hci]; [discriminate Hci |].
    rewrite (sleep_returns _ _ Hci).
    change (snd (sleep check_interval (snd (sample condition_func latency (at_sample u)))))
      with (next u).
    rewrite poll_S in *. apply IH; auto; [lia |].
    intros i Hi. rewrite <- poll_S. apply Hall. lia.
Qed.

Lemma wait_for_not_loop_returns literal :
  0 < check_interval -> (forall w, 0 <= latency w) ->
  forall f start wt u,
    wt - (now u - start) <= budget f check_interval ->
    forall fuel, (f < fuel)%nat ->
    exists r w',
      wait_for_not_loop condition_func latency literal fuel start wt check_interval u
      = (Return (Some r), w').
Proof.
  intros Hci Hlat. induction f as [|f IH]; intros start wt u Hrem fuel Hfuel;
    (destruct fuel as [|fuel]; [lia |]);
    cbn [wait_for_not_loop]; unfold bind at 1; rewrite time_time_eq;
    destruct (at_sample_frame u) as (_ & _ & Hn1);
    destruct (Qltb (now (at_sample u) - start) wt) eqn:Hclock;
    try (eexists _, _; reflexivity).
  - apply Qltb_true in Hclock. cbn [budget] in Hrem. lra.
  - unfold bind at 1. rewrite sample_spec.
    destruct (negb (truthy (condition_func (at_sample u)))); [eexists _, _; reflexivity |].
    unfold bind at 1. rewrite (sleep_returns _ _ (Qlt_le_weak _ _ Hci)).
    apply IH; [| lia].
    change (snd (sleep check_interval (snd (sample condition_func latency (at_sample u)))))
      with (next u).
    pose proof (next_round_now u Hlat). cbn [budget] in Hrem. lra.
Qed.

(** What [i] rounds leave behind, when their sleeps return. *)
Lemma round_entry_frame i : forall u,
  (i = 0%nat \/ 0 <= check_interval) ->
  observed (round_entry condition_func latency check_interval i u) = observed u ++ Ps i u /\
  slept (round_entry condition_func latency check_interval i u)
  = slept u ++ repeat check_interval i.
Proof.
  induction i as [|i IH]; intros u Hci.
  - cbn. now rewrite !app_nil_r.
  - destruct Hci as [Hci | Hci]; [discriminate Hci |].
    cbn [round_entry]. destruct (IH (next u) (or_intror Hci)) as [Ho Hs].
    destruct (next_round_frame u (next u)) as (_ & _ & Hsl & Hob).
    { unfold next_round. apply sleep_returns. exact Hci. }
    rewrite Ho, Hs, Hob, Hsl, polls_S. cbn [repeat]. now rewrite <- !app_assoc.
Qed.

Lemma poll_frame i u :
  (i = 0%nat \/ 0 <= check_interval) ->
  observed (P i u) = observed u ++ Ps i u /\
  slept (P i u) = slept u ++ repeat check_interval i.
Proof.
  intros Hci. destruct (round_entry_frame i u Hci) as [Ho Hs].
  destruct (at_sample_frame (round_entry condition_func latency check_interval i u))
    as (Hs1 & Ho1 & _).
  unfold poll. now rewrite Hs1, Ho1.
Qed.

End PollingFacts.

(** Samples that all read [True]. *)
Lemma polls_all_true (predicate : world -> bool) latency check_interval k u :
  (forall i, (i < k)%nat ->
     predicate (poll (fun w => VBool (predicate w)) latency check_interval i u) = true) ->
  polls (fun w => VBool (predicate w)) latency check_interval k u = repeat (VBool true) k.
Proof.
  induction k as [|k IH]; intros Hall; [reflexivity |].
  rewrite polls_snoc, IH by (intros i Hi; apply Hall; lia).
  rewrite (Hall k) by lia. now rewrite <- repeat_cons.
Qed.

(** The first clock test of a call finds that no negative time has
    passed, so it fails at once when the timeout is not positive. *)
Lemma elapsed_nonneg condition_func latency check_interval w :
  0 <= elapsed condition_func latency check_interval 0 w.
Proof.
  unfold elapsed, sampled, poll. cbn [round_entry].
  destruct (at_sample_frame (started w)) as (_ & _ & H). lra.
Qed.

Lemma started_frame w :
  slept (started w) = slept w /\ observed (started w) = observed w /\
  now w <= now (started w).
Proof. exact (at_sample_frame w). Qed.

(** C5 as stated does not hold. With a timeout of zero, on a predicate
    that is true whenever it is asked, [wait_for_condition] takes no
    sample at all and hands back the [False] it started with. *)
Lemma wait_for_condition_zero_timeout_reads_no_sample :
  let r := wait_for_condition (fun _ => VBool true) (fun _ => 0) 1 0 (1 # 10) world0 in
  fst r = Return (Some (VBool false)) /\ observed (snd r) = [].
Proof. vm_compute. split; reflexivity. Qed.

(** A positive timeout does not promise a sample either: the clock is
    read once for [start_time] and again for the first test of the loop,
    and when the time between the two readings reaches the timeout, the
    loop is not entered.  Here the timeout is a millisecond and each
    reading of the clock comes a hundredth of a second after the statement
    before it. *)
Example wait_for_condition_slow_clock_reads_no_sample :
  let r := wait_for_condition (fun _ => VBool true) (fun _ => 0) 1 (1 # 1000) (1 # 10)
             (world_slow (mkDuration (1 # 100) eq_refl)) in
  fst r = Return (Some (VBool false)) /\ observed (snd r) = [].
Proof. vm_compute. split; reflexivity. Qed.

(** C5, amended. [wait_for_condition] hands back the last sample it read,
    if it read one, and the [False] it starts with otherwise.  Its [i]-th
    sample is the value of the predicate in the world [sampled i]; a
    sample is taken only after a clock test that found the timeout not yet
    over, and every sample but the last read false.  It takes no sample at
    all exactly when its first clock test already finds the timeout over,
    which is always so for a timeout of zero or less.  Conversely it comes
    back with the first sample that reads true in time, and with the last
    sample read once a clock test fails.  With a positive interval (and a
    predicate that takes no negative time) it does come back. *)
Theorem wait_for_condition_returns_last_sample condition_func latency wait_time
    check_interval w :
  let taken n := samples condition_func latency check_interval n w in
  let value i := condition_func (sampled condition_func latency check_interval i w) in
  let in_time i := Qltb (elapsed condition_func latency check_interval i w) wait_time in
  let call fuel := wait_for_condition condition_func latency fuel wait_time check_interval in
  (forall fuel r w',
     call fuel w = (Return (Some r), w') ->
     exists n,
       observed w' = observed w ++ taken n /\
       r = List.last (taken n) (VBool false) /\
       (forall i, (i < n)%nat -> in_time i = true) /\
       (forall i, (S i < n)%nat -> truthy (value i) = false) /\
       ((0 < n)%nat /\ truthy r = true \/ truthy r = false /\ in_time n = false) /\
       (n = 0%nat <-> in_time 0%nat = false) /\
       (wait_time <= 0 -> n = 0%nat)) /\
  (forall k fuel,
     (k < fuel)%nat -> (k = 0%nat \/ 0 <= check_interval) ->
     (forall i, (i < k)%nat -> in_time i = true /\ truthy (value i) = false) ->
     (in_time k = true -> truthy (value k) = true ->
      fst (call fuel w) = Return (Some (value k)) /\
      observed (snd (call fuel w)) = observed w ++ taken (S k)) /\
     (in_time k = false ->
      fst (call fuel w) = Return (Some (List.last (taken k) (VBool false))) /\
      observed (snd (call fuel w)) = observed w ++ taken k)) /\
  (0 < check_interval -> (forall w, 0 <= latency w) ->
   exists fuel0, forall fuel, (fuel0 <= fuel)%nat ->
     exists r w', call fuel w = (Return (Some r), w')).
Proof.
  intros taken value in_time call.
  assert (Hcall : forall fuel,
            call fuel w
            = wait_for_condition_loop condition_func latency fuel (now (started w))
                wait_time check_interval (VBool false) (started w)) by reflexivity.
  destruct (started_frame w) as (Hs0 & Ho0 & Hn0).
  assert (Hfalsy : forall k,
            (forall i, (i < k)%nat -> truthy (value i) = false) ->
            truthy (List.last (taken k) (VBool false)) = false).
  { intros [|k] Hall; [reflexivity |].
    unfold taken, samples. rewrite polls_snoc, last_last. apply Hall. lia. }
  split; [| split].
  - intros fuel r w' H. rewrite Hcall in H.
    destruct (wait_for_condition_loop_sound _ _ _ _ _ _ _ _ _ _ H)
      as (k & _ & Hall & _ & Hend).
    assert (H0 : wait_time <= 0 -> in_time 0%nat = false).
    { intros Hwt. apply Qltb_false.
      pose proof (elapsed_nonneg condition_func latency check_interval w). lra. }
    destruct Hend as [(Ht & Hv & Hr & _ & Ho) | (Ht & Hr & _ & Ho)].
    + exists (S k). rewrite Ho, Ho0.
      assert (Hlast : r = List.last (taken (S k)) (VBool false)).
      { unfold taken, samples. now rewrite polls_snoc, last_last. }
      assert (Hin : forall i, (i < S k)%nat -> in_time i = true).
      { intros i Hi. destruct (Nat.eq_dec i k) as [-> | Hne]; [exact Ht |].
        apply Hall. lia. }
      split; [reflexivity |]. split; [exact Hlast |]. split; [exact Hin |].
      split; [intros i Hi; apply Hall; lia |].
      split; [left; split; [lia | now rewrite Hr] |].
      split.
      * split; [discriminate |]. intros Hf. rewrite (Hin 0%nat) in Hf by lia. discriminate Hf.
      * intros Hwt. specialize (H0 Hwt). rewrite (Hin 0%nat) in H0 by lia. discriminate H0.
    + exists k. rewrite Ho, Ho0.
      split; [reflexivity |]. split; [exact Hr |].
      split; [intros i Hi; apply Hall; exact Hi |].
      split; [intros i Hi; apply Hall; lia |].
      split; [right; split; [| exact Ht] |].
      { rewrite Hr. apply Hfalsy. intros i Hi. now apply Hall. }
      split.
      * split; [now intros -> |]. intros Hf.
        destruct k as [|k]; [reflexivity |].
        destruct (Hall 0%nat ltac:(lia)) as [Hin _].
        change (in_time 0%nat = true) in Hin. rewrite Hf in Hin. discriminate Hin.
      * intros Hwt. specialize (H0 Hwt).
        destruct k as [|k]; [reflexivity |].
        destruct (Hall 0%nat ltac:(lia)) as [Hin _].
        change (in_time 0%nat = true) in Hin. rewrite H0 in Hin. discriminate Hin.
  - intros k fuel Hfuel Hci Hall. rewrite Hcall. split.
    + intros Ht Hv.
      rewrite (wait_for_condition_loop_hit condition_func latency check_interval k fuel
                 _ _ _ _ Hfuel Hci Hall Ht Hv).
      split; [reflexivity |]. cbn [snd].
      destruct (poll_frame condition_func latency check_interval k (started w) Hci)
        as [Ho _].
      destruct (sample_frame condition_func latency
                  (poll condition_func latency check_interval k (started w)))
        as (_ & Ho2 & _).
      rewrite Ho2, Ho, Ho0. unfold taken, samples.
      now rewrite polls_snoc, <- app_assoc.
    + intros Ht.
      rewrite (wait_for_condition_loop_timeout condition_func latency check_interval k fuel
                 _ _ _ _ Hfuel Hci Hall Ht).
      split; [reflexivity |]. cbn [snd].
      destruct (poll_frame condition_func latency check_interval k (started w) Hci)
        as [Ho _].
      now rewrite Ho, Ho0.
  - intros Hci Hlat.
    destruct (budget_reaches wait_time check_interval Hci) as [f Hf].
    exists (S f). intros fuel Hfuel. rewrite Hcall.
    apply (wait_for_condition_loop_returns condition_func latency check_interval Hci Hlat f);
      [lra | lia].
Qed.

(** A one-second wait at the interval of a tenth on a predicate that stays
    false. *)
Lemma wait_for_condition_returns_last_sample_witness :
  exists fuel0, forall fuel, (fuel0 <= fuel)%nat ->
    exists r w',
      wait_for_condition (fun _ => VBool false) (fun _ => 0) fuel 1 (1 # 10) world0
      = (Return (Some r), w').
Proof.
  apply (proj2 (proj2 (wait_for_condition_returns_last_sample
                         (fun _ => VBool false) (fun _ => 0) 1 (1 # 10) world0))).
  - reflexivity.
  - intros w. apply Qle_refl.
Defined.

(** C6 as stated does not hold. With a timeout of zero, on a predicate
    that is false whenever it is asked, both helpers take no sample and
    hand back [True]. *)
Lemma wait_for_not_zero_timeout_returns_True :
  let r1 := _wait_for_not (fun _ => VBool false) (fun _ => 0) 1 0 (1 # 10) world0 in
  let r2 := wait_for_not (fun _ => VBool false) (fun _ => 0) 1 0 (1 # 10) world0 in
  (fst r1 = Return (Some (VBool true)) /\ observed (snd r1) = []) /\
  (fst r2 = Return (Some (VBool true)) /\ observed (snd r2) = []).
Proof. vm_compute. repeat split; reflexivity. Qed.

(** The same with a timeout of a millisecond on a clock whose readings
    come a hundredth of a second apart. *)
Example wait_for_not_slow_clock_returns_True :
  let r := _wait_for_not (fun _ => VBool false) (fun _ => 0) 1 (1 # 1000) (1 # 10)
             (world_slow (mkDuration (1 # 100) eq_refl)) in
  fst r = Return (Some (VBool true)) /\ observed (snd r) = [].
Proof. vm_compute. split; reflexivity. Qed.

(** C6, amended. For [_wait_for_not] and [wait_for_not] on a boolean
    predicate, whose [i]-th sample is the value of the predicate in the
    world [sampled i].  Whenever the call comes back, it took [k] samples
    that read true, each after a clock test that found the timeout not yet
    over and each followed by one sleep, and then either a sample in time
    that read false, which it answers with [False] at once and without
    another sleep, or a clock test that found the timeout over, which it
    answers with [True].  Conversely the first sample in time that reads
    false makes the call come back with [False], and the first clock test
    that fails with [True]; for [k = 0] this is the predicate that is false
    when the call is made: one sample, no sleep and [False], provided the
    first clock test finds the timeout not yet over.  With a positive
    interval the call does come back, and on a predicate that never reads
    false it comes back with [True]. *)
Theorem wait_for_not_returns_on_first_false_sample predicate latency (literal : bool)
    wait_time check_interval w :
  let condition_func := fun w => VBool (predicate w) in
  let call fuel :=
    (if literal then _wait_for_not else wait_for_not)
      condition_func latency fuel wait_time check_interval in
  let value i := predicate (sampled condition_func latency check_interval i w) in
  let in_time i := Qltb (elapsed condition_func latency check_interval i w) wait_time in
  (forall fuel r w',
     call fuel w = (Return (Some r), w') ->
     exists k,
       (forall i, (i < k)%nat -> in_time i = true /\ value i = true) /\
       slept w' = slept w ++ repeat check_interval k /\
       ((r = VBool false /\ in_time k = true /\ value k = false /\
         observed w' = observed w ++ repeat (VBool true) k ++ [VBool false])
        \/ (r = VBool true /\ in_time k = false /\
            observed w' = observed w ++ repeat (VBool true) k /\
            wait_time <= now w' - now w))) /\
  (forall k fuel,
     (k < fuel)%nat -> (k = 0%nat \/ 0 <= check_interval) ->
     (forall i, (i < k)%nat -> in_time i = true /\ value i = true) ->
     (in_time k = true -> value k = false ->
      exists w',
        call fuel w = (Return (Some (VBool false)), w') /\
        slept w' = slept w ++ repeat check_interval k /\
        observed w' = observed w ++ repeat (VBool true) k ++ [VBool false]) /\
     (in_time k = false ->
      exists w',
        call fuel w = (Return (Some (VBool true)), w') /\
        slept w' = slept w ++ repeat check_interval k /\
        observed w' = observed w ++ repeat (VBool true) k)) /\
  (0 < check_interval -> (forall w, 0 <= latency w) ->
   exists fuel0, forall fuel, (fuel0 <= fuel)%nat ->
     exists r w', call fuel w = (Return (Some r), w')) /\
  ((forall w, predicate w = true) ->
   forall fuel r w', call fuel w = (Return (Some r), w') -> r = VBool true).
Proof.
  intros condition_func call value in_time.
  assert (Hcall : forall fuel,
            call fuel w
            = wait_for_not_loop condition_func latency literal fuel (now (started w))
                wait_time check_interval (started w)).
  { intros fuel. unfold call. destruct literal; reflexivity. }
  destruct (started_frame w) as (Hs0 & Ho0 & Hn0).
  assert (Htrue : forall k,
            (forall i, (i < k)%nat -> in_time i = true /\ value i = true) ->
            polls condition_func latency check_interval k (started w)
            = repeat (VBool true) k).
  { intros k Hall. apply polls_all_true. intros i Hi. now apply Hall. }
  assert (Hsound : forall fuel r w',
     call fuel w = (Return (Some r), w') ->
     exists k,
       (forall i, (i < k)%nat -> in_time i = true /\ value i = true) /\
       slept w' = slept w ++ repeat check_interval k /\
       ((r = VBool false /\ in_time k = true /\ value k = false /\
         observed w' = observed w ++ repeat (VBool true) k ++ [VBool false])
        \/ (r = VBool true /\ in_time k = false /\
            observed w' = observed w ++ repeat (VBool true) k /\
            wait_time <= now w' - now w))).
  { intros fuel r w' H. rewrite Hcall in H.
    destruct (wait_for_not_loop_sound _ _ _ _ _ _ _ _ _ _ H)
      as (k & _ & Hall & Hsl & Hend).
    assert (Hall' : forall i, (i < k)%nat -> in_time i = true /\ value i = true).
    { intros i Hi. destruct (Hall i Hi) as [Ht Hv]. split; [exact Ht |].
      unfold condition_func in Hv. cbn [truthy] in Hv. exact Hv. }
    exists k. split; [exact Hall' |]. split; [now rewrite Hsl, Hs0 |].
    destruct Hend as [(Ht & Hv & Hr & _ & Ho) | (Ht & Hr & Hw & Ho)]; [left | right].
    - unfold condition_func in Hv, Hr. cbn [truthy] in Hv.
      split; [rewrite Hr, Hv; now destruct literal |].
      split; [exact Ht |]. split; [exact Hv |].
      rewrite Ho, Ho0, polls_snoc, (Htrue k Hall').
      unfold condition_func. now rewrite Hv.
    - split; [exact Hr |]. split; [exact Ht |].
      split; [now rewrite Ho, Ho0, (Htrue k Hall') |].
      apply Qltb_false in Ht. subst w'. lra. }
  split; [exact Hsound |]. split; [| split].
  - intros k fuel Hfuel Hci Hall.
    assert (Hall' : forall i, (i < k)%nat ->
              Qltb (now (poll condition_func latency check_interval i (started w))
                    - now (started w)) wait_time = true /\
              truthy (condition_func
                        (poll condition_func latency check_interval i (started w))) = true).
    { intros i Hi. destruct (Hall i Hi) as [Ht Hv]. split; [exact Ht | exact Hv]. }
    destruct (poll_frame condition_func latency check_interval k (started w) Hci)
      as [Ho Hs].
    split.
    + intros Ht Hv. eexists. split; [| split].
      * rewrite Hcall.
        rewrite (wait_for_not_loop_hit condition_func latency check_interval literal k fuel
                   _ _ _ Hfuel Hci Hall' Ht Hv).
        assert (E : (if literal then VBool false
                     else condition_func
                            (poll condition_func latency check_interval k (started w)))
                    = VBool false).
        { destruct literal; [reflexivity |]. unfold condition_func at 1.
          f_equal. exact Hv. }
        rewrite E. reflexivity.
      * cbn [snd sample slept]. now rewrite Hs, Hs0.
      * assert (E : condition_func
                       (poll condition_func latency check_interval k (started w))
                     = VBool false)
          by (unfold condition_func at 1; f_equal; exact Hv).
        cbn [snd sample observed]. rewrite Ho, Ho0, (Htrue k Hall), E.
        now rewrite <- app_assoc.
    + intros Ht. eexists. split; [| split].
      * rewrite Hcall.
        apply (wait_for_not_loop_timeout condition_func latency check_interval literal k
                 fuel _ _ _ Hfuel Hci Hall' Ht).
      * now rewrite Hs, Hs0.
      * now rewrite Ho, Ho0, (Htrue k Hall).
  - intros Hci Hlat.
    destruct (budget_reaches wait_time check_interval Hci) as [f Hf].
    exists (S f). intros fuel Hfuel. rewrite Hcall.
    apply (wait_for_not_loop_returns condition_func latency check_interval literal
             Hci Hlat f); [lra | lia].
  - intros Hp fuel r w' H.
    destruct (Hsound fuel r w' H) as (k & _ & _ & [(_ & _ & Hv & _) | (Hr & _)]);
      [| exact Hr].
    unfold value in Hv. rewrite Hp in Hv. discriminate Hv.
Qed.

(** A predicate that is false when [_wait_for_not] is called with a
    timeout of five seconds. *)
Lemma wait_for_not_returns_on_first_false_sample_witness :
  exists w',
    _wait_for_not (fun _ => VBool false) (fun _ => 0) 1 5 (1 # 10) world0
    = (Return (Some (VBool false)), w') /\
    slept w' = slept world0 ++ repeat (1 # 10) 0 /\
    observed w' = observed world0 ++ repeat (VBool true) 0 ++ [VBool false].
Proof.
  destruct (proj1 (proj2 (wait_for_not_returns_on_first_false_sample
                            (fun _ => false) (fun _ => 0) true 5 (1 # 10) world0))
                  0%nat 1%nat) as [Hfalse _].
  - lia.
  - left. reflexivity.
  - intros i Hi. lia.
  - apply Hfalse; reflexivity.
Defined.

(** ** The thread registry *)

Local Close Scope Q_scope.

Lemma registered_ext t w w' :
  registry w' !! t = registry w !! t -> registered t w' = registered t w.
Proof. unfold registered. now intros ->. Qed.

Lemma release_handle_flag (self : instance) :
  initialised_flag (release_handle self) = initialised_flag self.
Proof.
  unfold release_handle, initialised_flag.
  destruct (self !! "vv") as [v|]; [| reflexivity].
  destruct (is_None v); [reflexivity |]. now rewrite lookup_insert_ne.
Qed.

(** The constructor, as far as the transport goes: it calls
    [CoInitialize] exactly when the thread is not registered, its flag
    says whether it did, and the thread is registered afterwards. *)
Lemma init_spec remote t w :
  exists self w', __init__ remote t w = (Return self, w') /\
    initialised_flag self = negb (registered t w) /\
    registered t w' = true /\
    (forall t', t' <> t -> registry w' !! t' = registry w !! t') /\
    com_calls w' = com_calls w ++ (if registered t w then [] else [(t, CoInitialize)]).
Proof.
  unfold __init__.
  destruct (init_com_spec t w) as (w1 & Hinit & _ & Hreg & Hother & Hcom).
  rewrite (bind_Return _ _ _ _ _ Hinit).
  destruct (connect_result remote (<["_initialized_com" := VBool (negb (registered t w))]> ∅) w1)
    as (self & w2 & Hc & Hr2 & Hc2 & Hself).
  exists self, w2. split; [exact Hc |]. split; [| split; [| split]].
  - unfold initialised_flag.
    destruct Hself as [-> | (vv & -> & _)].
    + now rewrite lookup_insert_eq.
    + rewrite lookup_insert_ne by done. now rewrite lookup_insert_eq.
  - rewrite <- Hreg. apply registered_ext. now rewrite Hr2.
  - intros t' Ht'. rewrite Hr2. now apply Hother.
  - now rewrite Hc2.
Qed.

Lemma release_handle_twice (self : instance) (flag : val) :
  release_handle (<["_initialized_com" := flag]> (release_handle self))
  = <["_initialized_com" := flag]> (release_handle self).
Proof.
  apply release_handle_released. rewrite lookup_insert_ne by done.
  unfold release_handle. destruct (self !! "vv") as [v|] eqn:Hv; [| now left].
  destruct (is_None v) eqn:Hn.
  - right. rewrite Hv. destruct v; simpl in Hn; congruence.
  - right. apply lookup_insert_eq.
Qed.

(** The destructor: it calls [CoUninitialize] and unregisters the thread
    exactly when its flag is set and the thread is registered, and a
    second run on what it left changes nothing. *)
Lemma del_spec t (self : instance) w :
  exists self' w', __del__ t self w = (Return self', w') /\
    (forall t', t' <> t -> registry w' !! t' = registry w !! t') /\
    __del__ t self' w' = (Return self', w') /\
    (if initialised_flag self && registered t w
     then registered t w' = false /\
          com_calls w' = com_calls w ++ [(t, CoUninitialize)]
     else w' = w).
Proof.
  unfold __del__.
  change (match release_handle self !! "_initialized_com" with
          | Some flag => truthy flag
          | None => false
          end) with (initialised_flag (release_handle self)).
  rewrite release_handle_flag.
  destruct (initialised_flag self) eqn:Hflag; cbn [andb].
  - unfold bind, get_registry, registered.
    destruct (registry w !! t) as [threads|] eqn:Hreg.
    + destruct (bool_decide (t ∈ threads)) eqn:Hin.
      * eexists _, _. split; [reflexivity |]. cbn [set_registry pythoncom ret registry com_calls].
        split; [intros t' Ht'; now rewrite lookup_insert_ne |]. split.
        -- rewrite release_handle_twice, lookup_insert_eq. reflexivity.
        -- rewrite lookup_insert_eq. split; [| reflexivity].
           apply bool_decide_eq_false. intros Hmem.
           apply elem_of_difference in Hmem as [_ Hn]. apply Hn.
           now apply elem_of_singleton.
      * eexists _, _. split; [reflexivity |]. split; [auto |]. split; [| reflexivity].
        rewrite release_handle_idem.
        change (match release_handle self !! "_initialized_com" with
                | Some flag => truthy flag
                | None => false
                end) with (initialised_flag (release_handle self)).
        rewrite release_handle_flag, Hflag, Hreg, Hin. reflexivity.
    + eexists _, _. split; [reflexivity |]. split; [auto |]. split; [| reflexivity].
      rewrite release_handle_idem.
      change (match release_handle self !! "_initialized_com" with
              | Some flag => truthy flag
              | None => false
              end) with (initialised_flag (release_handle self)).
      rewrite release_handle_flag, Hflag, Hreg. reflexivity.
  - eexists _, _. split; [reflexivity |]. split; [auto |]. split; [| reflexivity].
    rewrite release_handle_idem.
    change (match release_handle self !! "_initialized_com" with
            | Some flag => truthy flag
            | None => false
            end) with (initialised_flag (release_handle self)).
    rewrite release_handle_flag, Hflag. reflexivity.
Qed.

Section Registry.

Variable remote : world -> request -> outcome val.

(** A step that adds no initialiser and unregisters no thread that still
    has one keeps the registry sound. *)
Lemma shrink_preserves s s' :
  (forall j o', objects s' !! j = Some o' ->
     exists o, objects s !! j = Some o /\
               forall t, is_initialiser t o' = true -> is_initialiser t o = true) ->
  (forall t j o', objects s' !! j = Some o' -> is_initialiser t o' = true ->
     registered t (state s) = true -> registered t (state s') = true) ->
  initialisers_registered s -> initialisers_registered s'.
Proof.
  intros Hobj Hreg Inv t. destruct (Inv t) as [Inv1 Inv2]. split.
  - intros j o' Hj Ho'. apply (Hreg t j o' Hj Ho').
    destruct (Hobj j o' Hj) as (o & Hjo & Himp). exact (Inv1 j o Hjo (Himp t Ho')).
  - intros i j oi oj Hi Hj Hoi Hoj.
    destruct (Hobj i oi Hi) as (oi' & Hi' & Himpi).
    destruct (Hobj j oj Hj) as (oj' & Hj' & Himpj).
    exact (Inv2 i j oi' oj' Hi' Hj' (Himpi t Hoi) (Himpj t Hoj)).
Qed.

Lemma new_preserves s t0 :
  initialisers_registered s -> initialisers_registered (step remote s (New t0)).
Proof.
  intros Inv. cbn [step].
  destruct (init_spec remote t0 (state s)) as (self & w' & Hrun & Hflag & Hreg & Hother & _).
  rewrite Hrun.
  assert (Hnew : forall t, is_initialiser t (t0, Some self) = true ->
                           t0 = t /\ registered t (state s) = false).
  { intros t H. cbn [is_initialiser] in H. rewrite Hflag in H.
    apply andb_true_iff in H as [H1 H2]. apply Nat.eqb_eq in H1. subst t0.
    split; [reflexivity | now apply negb_true_iff]. }
  intros t. destruct (Inv t) as [Inv1 Inv2]. cbn [objects state]. split.
  - intros i o Hi Ho. apply lookup_snoc_Some in Hi as [[_ Hi] | [_ <-]].
    + specialize (Inv1 i o Hi Ho). destruct (decide (t = t0)) as [-> | Hne]; [exact Hreg |].
      rewrite <- Inv1. apply registered_ext. now apply Hother.
    + destruct (Hnew t Ho) as [<- _]. exact Hreg.
  - intros i j oi oj Hi Hj Hoi Hoj.
    apply lookup_snoc_Some in Hi as [[_ Hi] | [-> <-]];
      apply lookup_snoc_Some in Hj as [[_ Hj] | [-> <-]].
    + exact (Inv2 i j oi oj Hi Hj Hoi Hoj).
    + destruct (Hnew t Hoj) as [_ Hf]. rewrite (Inv1 i oi Hi Hoi) in Hf. discriminate.
    + destruct (Hnew t Hoi) as [_ Hf]. rewrite (Inv1 j oj Hj Hoj) in Hf. discriminate.
    + reflexivity.
Qed.

Lemma close_preserves s i :
  initialisers_registered s -> initialisers_registered (step remote s (Close i)).
Proof.
  intros Inv. cbn [step]. unfold on_object.
  destruct (objects s !! i) as [[t0 [self|]]|] eqn:Hi; try exact Inv.
  rewrite close_spec. apply (shrink_preserves s); [| | exact Inv]; cbn [objects state].
  - intros j o' Hj. apply list_lookup_insert_Some in Hj as [(<- & <- & _) | [_ Hj]].
    + exists (t0, Some self). split; [exact Hi |]. intros t.
      cbn [is_initialiser]. now rewrite release_handle_flag.
    + exists o'. split; [exact Hj | auto].
  - intros t j o' _ _ H. exact H.
Qed.

Lemma del_preserves s i :
  initialisers_registered s -> initialisers_registered (step remote s (Del i)).
Proof.
  intros Inv. cbn [step]. unfold on_object.
  destruct (objects s !! i) as [[t0 [self|]]|] eqn:Hi; try exact Inv.
  destruct (del_spec t0 self (state s)) as (self' & w' & Hrun & Hother & _ & Hcase).
  rewrite Hrun. apply (shrink_preserves s); [| | exact Inv]; cbn [objects state].
  - intros j o' Hj. apply list_lookup_insert_Some in Hj as [(<- & <- & _) | [_ Hj]].
    + exists (t0, Some self). split; [exact Hi |]. intros t H. discriminate H.
    + exists o'. split; [exact Hj | auto].
  - intros t j o' Hj Ho' Hreg.
    apply list_lookup_insert_Some in Hj as [(<- & <- & _) | [Hne Hj]]; [discriminate Ho' |].
    destruct (initialised_flag self && registered t0 (state s)) eqn:Hb.
    + apply andb_true_iff in Hb as [Hflag _].
      destruct (decide (t = t0)) as [-> | Hne'].
      * exfalso. apply Hne. destruct (Inv t0) as [_ Inv2].
        apply (Inv2 i j (t0, Some self) o' Hi Hj); [| exact Ho'].
        cbn [is_initialiser]. now rewrite Nat.eqb_refl, Hflag.
      * rewrite <- Hreg. apply registered_ext. now apply Hother.
    + now subst w'.
Qed.

(** The registry is sound after every history. *)
Lemma play_sound history : initialisers_registered (play remote history).
Proof.
  unfold play. induction history as [|a history IH] using rev_ind.
  - intros t. split; intros; discriminate.
  - rewrite fold_left_app. cbn [fold_left].
    destruct a; [apply new_preserves | apply close_preserves | apply del_preserves];
      exact IH.
Qed.

End Registry.

(** C10 as stated does not hold. After two sessions were constructed on
    thread 1 and the first of them was collected, the second is still
    alive; constructing a third one on the thread runs [CoInitialize]
    again. *)
Lemma construction_reinitialises_beside_live_session :
  let s := play (ready_on 1) [New 1; New 1; Del 0] in
  has_live 1 s = true /\
  com_calls (state s) = [(1, CoInitialize); (1, CoUninitialize)]%nat /\
  com_calls (state (step (ready_on 1) s (New 1)))
  = com_calls (state s) ++ [(1%nat, CoInitialize)].
Proof. vm_compute. repeat split. Qed.

(** C10, amended. After any history of constructions, [close()] calls and
    destructions (each object destroyed by its own thread):
    - a thread that has a live session whose constructor initialised the
      transport is registered, and it has at most one such session;
    - constructing a session on a registered thread does not call
      [CoInitialize] and leaves the flag of the new session unset, while
      on an unregistered thread it calls it once and sets the flag;
    - destroying a session whose flag is unset changes nothing, and
      destroying one whose flag is set calls [CoUninitialize] once and
      unregisters the thread; running the destructor again on what it left
      changes nothing. *)
Theorem registry_follows_initialiser remote history :
  let s := play remote history in
  (forall t i o, objects s !! i = Some o -> is_initialiser t o = true ->
     registered t (state s) = true) /\
  (forall t i j oi oj, objects s !! i = Some oi -> objects s !! j = Some oj ->
     is_initialiser t oi = true -> is_initialiser t oj = true -> i = j) /\
  (forall t, exists self,
     objects (step remote s (New t)) = objects s ++ [(t, Some self)] /\
     initialised_flag self = negb (registered t (state s)) /\
     com_calls (state (step remote s (New t)))
     = com_calls (state s) ++
       (if registered t (state s) then [] else [(t, CoInitialize)])) /\
  (forall i t self, objects s !! i = Some (t, Some self) ->
     (initialised_flag self = false -> state (step remote s (Del i)) = state s) /\
     (initialised_flag self = true ->
        com_calls (state (step remote s (Del i)))
        = com_calls (state s) ++ [(t, CoUninitialize)] /\
        registered t (state (step remote s (Del i))) = false) /\
     (exists self' w', __del__ t self (state s) = (Return self', w') /\
                       __del__ t self' w' = (Return self', w'))).
Proof.
  intros s. pose proof (play_sound remote history) as Inv. fold s in Inv.
  split; [| split; [| split]].
  - intros t. exact (proj1 (Inv t)).
  - intros t. exact (proj2 (Inv t)).
  - intros t. cbn [step].
    destruct (init_spec remote t (state s)) as (self & w' & Hrun & Hflag & _ & _ & Hcom).
    rewrite Hrun. exists self. cbn [objects state]. auto.
  - intros i t self Hi. cbn [step]. unfold on_object. rewrite Hi.
    destruct (del_spec t self (state s)) as (self' & w' & Hrun & _ & Hagain & Hcase).
    rewrite Hrun. cbn [state]. split; [| split].
    + intros Hflag. rewrite Hflag in Hcase. exact Hcase.
    + intros Hflag.
      assert (Hreg : registered t (state s) = true).
      { apply (proj1 (Inv t) i (t, Some self) Hi). cbn [is_initialiser].
        now rewrite Nat.eqb_refl, Hflag. }
      rewrite Hflag, Hreg in Hcase. destruct Hcase as [H1 H2]. auto.
    + exists self', w'. auto.
Qed.

(** Two sessions constructed on one thread: the thread is registered. *)
Lemma registry_follows_initialiser_witness :
  registered 1 (state (play (ready_on 1) [New 1; New 1])) = true.
Proof.
  apply (proj1 (registry_follows_initialiser (ready_on 1) [New 1; New 1]) 1%nat 0%nat
               (1%nat, Some (<["vv" := VCom]> (<["_initialized_com" := VBool true]> ∅)))).
  - vm_compute. reflexivity.
  - vm_compute. reflexivity.
Defined.

(** * Further properties of the session manager *)

Lemma Qltb_double wt : Qltb wt 0 = false -> Qltb (wt * 2)%Q 0 = false.
Proof. rewrite !Qltb_false. intros H. lra. Qed.

Lemma attempt_ready_com remote w :
  attempt_ready remote VCom w
  = (Return (match remote w (PropGet "IsReady") with
             | Return v => Some (truthy v)
             | Raise _ => None
             end),
     logged w (PropGet "IsReady") (remote w (PropGet "IsReady"))).
Proof.
  unfold attempt_ready, try_except, bind, obj_get, call, ret, logged. cbn [truthy].
  destruct (remote w (PropGet "IsReady")); reflexivity.
Qed.

(** The retry loop over the attempts [a .. retryAttempts] on a dispatch
    object: the reads it makes, the sleeps it takes, and how it ends. *)
Lemma attempt_loop_shape remote n : forall a wt (self : instance) w,
  (a + n = S retryAttempts)%nat -> Qltb wt 0 = false ->
  exists self' w' outs j,
    attempt_loop remote (seq a n) VCom wt self w = (Return self', w') /\
    trace w' = trace w ++ ready_reads outs /\
    slept w' = slept w ++ doubling wt j /\
    ((self' = <["vv" := VCom]> self /\
      exists pre v, outs = pre ++ [Return v] /\ truthy v = true /\
                    Forall not_ready pre /\ j = length pre /\ (length pre < n)%nat)
     \/ (self' = self /\ length outs = n /\ Forall not_ready outs /\
         (j = n \/ (S j = n /\ exists pre e, outs = pre ++ [Raise e])))).
Proof.
  induction n as [|n IH]; intros a wt self w Han Hwt.
  - exists self, w, [], 0%nat. cbn [seq attempt_loop ready_reads map doubling].
    unfold ret. rewrite !app_nil_r. repeat split; auto. right. repeat split; auto.
  - cbn [seq attempt_loop]. rewrite (bind_Return _ _ _ _ _ (attempt_ready_com remote w)).
    set (o := remote w (PropGet "IsReady")).
    set (w1 := logged w (PropGet "IsReady") o).
    assert (Hnext : not_ready o ->
      exists self' w' outs j,
        bind (sleep wt) (fun _ => attempt_loop remote (seq (S a) n) VCom (wt * 2)%Q self) w1
        = (Return self', w') /\
        trace w' = trace w ++ ready_reads outs /\
        slept w' = slept w ++ doubling wt j /\
        ((self' = <["vv" := VCom]> self /\
          exists pre v, outs = pre ++ [Return v] /\ truthy v = true /\
                        Forall not_ready pre /\ j = length pre /\ (length pre < S n)%nat)
         \/ (self' = self /\ length outs = S n /\ Forall not_ready outs /\
             (j = S n \/ (S j = S n /\ exists pre e, outs = pre ++ [Raise e]))))).
    { intros Hnr. rewrite (bind_Return _ _ _ _ _ (sleep_ok wt w1 Hwt)).
      destruct (IH (S a) (wt * 2)%Q self
                  (mkWorld (trace w1) (now w1 + wt + seconds (overrun w1 (clock_calls w1)))%Q
                           (slept w1 ++ [wt]) (observed w1) (registry w1) (com_calls w1)
                           (overrun w1) (S (clock_calls w1))))
        as (self' & w' & outs & j & Hrun & Htr & Hsl & Hend);
        [lia | now apply Qltb_double |].
      exists self', w', (o :: outs), (S j). split; [exact Hrun |].
      split; [rewrite Htr; cbn; now rewrite <- app_assoc |].
      split; [rewrite Hsl; cbn; now rewrite <- app_assoc |].
      destruct Hend as [(-> & pre & v & -> & Hv & Hpre & -> & Hlt)
                       | (-> & Hlen & Hall & Hj)].
      - left. split; [reflexivity |]. exists (o :: pre), v.
        repeat split; auto. cbn. lia.
      - right. split; [reflexivity |]. split; [cbn; now rewrite Hlen |].
        split; [now constructor |].
        destruct Hj as [-> | (Hj & pre & e & ->)]; [now left | right].
        split; [lia |]. now exists (o :: pre), e. }
    destruct o as [v|e] eqn:Ho.
    + destruct (truthy v) eqn:Hv.
      * exists (<["vv" := VCom]> self), w1, [Return v], 0%nat.
        split; [reflexivity |]. split; [reflexivity |].
        split; [cbn; now rewrite app_nil_r |]. left. split; [reflexivity |].
        exists [], v. repeat split; auto. cbn. lia.
      * apply Hnext. exact Hv.
    + destruct (a =? retryAttempts)%nat eqn:Ha.
      * apply Nat.eqb_eq in Ha. assert (n = 0%nat) by (unfold retryAttempts in *; lia). subst n.
        exists self, w1, [Raise e], 0%nat.
        split; [reflexivity |]. split; [reflexivity |].
        split; [cbn; now rewrite app_nil_r |]. right. split; [reflexivity |].
        split; [reflexivity |]. split; [repeat constructor |]. right.
        split; [reflexivity |]. now exists [], e.
      * apply Hnext. exact I.
Qed.

Lemma doubling_total_bound j :
  (j <= 5)%nat -> (Qsum (doubling (1 # 2) j) <= 31 # 2)%Q.
Proof.
  intros Hj. do 6 (destruct j as [|j]; [vm_compute; discriminate |]). lia.
Qed.



(** X2. A dispatch that fails is not retried: the constructor sends
    nothing else, does not sleep, and leaves the session without a [vv]
    attribute. *)
Theorem failed_dispatch_is_not_retried remote thread_id w e :
  (forall w0, remote w0 (Dispatch "VibrationVIEW.TestControl") = Raise e) ->
  exists self w',
    __init__ remote thread_id w = (Return self, w') /\
    trace w' = trace w ++ [(Dispatch "VibrationVIEW.TestControl", Raise e)] /\
    slept w' = slept w /\ now w' = now w /\
    self !! "vv" = None.
Proof.
  intros Hd. unfold __init__.
  destruct (init_com_spec thread_id w) as (w1 & Hinit & Htr1 & _).
  rewrite (bind_Return _ _ _ _ _ Hinit).
  unfold connect, try_except, bind, call. rewrite (Hd w1). unfold ret.
  eexists _, _. split; [reflexivity |]. cbn [trace slept now]. rewrite Htr1.
  assert (Hw : slept w1 = slept w /\ now w1 = now w).
  { unfold init_com, bind, get_registry, pythoncom, set_registry, ret in Hinit.
    destruct (match registry w !! thread_id with
              | Some threads => negb (bool_decide (thread_id ∈ threads))
              | None => true
              end); injection Hinit as _ <-; split; reflexivity. }
  destruct Hw as [-> ->]. repeat split.
Qed.

(** An application that is not installed. *)
Lemma failed_dispatch_is_not_retried_witness :
  exists self w',
    __init__ (fun _ _ => Raise (com_error (-2147221005) "Invalid class string")) 1 world0
    = (Return self, w') /\
    trace w' = trace world0 ++ [(Dispatch "VibrationVIEW.TestControl",
                                 Raise (com_error (-2147221005) "Invalid class string"))] /\
    slept w' = slept world0 /\ now w' = now world0 /\
    self !! "vv" = None.
Proof.
  apply (failed_dispatch_is_not_retried
           (fun _ _ => Raise (com_error (-2147221005) "Invalid class string")) 1 world0).
  intros w0. reflexivity.
Defined.

(** * Further properties of the call surface *)

Lemma vv_is_no_class_attr : bool_decide ("vv" ∈ class_attrs) = false.
Proof. vm_compute. reflexivity. Qed.

Section DeadSession.

Variable remote : world -> request -> outcome val.
Variable ExtractComErrorInfo : exn -> val.
Variable builtin_int : val -> outcome val.
Variable self : instance.
Hypothesis Hdead : self !! "vv" <> Some VCom.

Lemma dead_vv_get member w :
  vv_get remote self member w = (Raise (handle_error self member), w).
Proof.
  unfold vv_get, self_vv, getattr, handle_error, bind, lift.
  destruct (self !! "vv") as [v|]; [| now rewrite vv_is_no_class_attr].
  destruct v; try reflexivity. congruence.
Qed.

Lemma dead_vv_invoke member args w :
  vv_invoke remote self member args w = (Raise (handle_error self member), w).
Proof.
  unfold vv_invoke, self_vv, getattr, handle_error, bind, lift.
  destruct (self !! "vv") as [v|]; [| now rewrite vv_is_no_class_attr].
  destruct v; try reflexivity. congruence.
Qed.

Lemma dead_vv_put member x w :
  vv_put remote self member x w = (Raise (handle_error self member), w).
Proof.
  unfold vv_put, self_vv, getattr, handle_error, bind, lift.
  destruct (self !! "vv") as [v|]; [| now rewrite vv_is_no_class_attr].
  destruct v; try reflexivity. congruence.
Qed.

Lemma dead_vv_invoke_int member x w :
  vv_invoke_int remote builtin_int self member x w = (Raise (handle_error self member), w).
Proof.
  unfold vv_invoke_int, self_vv, getattr, handle_error, bind, lift.
  destruct (self !! "vv") as [v|]; [| now rewrite vv_is_no_class_attr].
  destruct v; try reflexivity. congruence.
Qed.

Lemma dead_TestType value w :
  exists e, TestType remote builtin_int self value w = (Raise e, w).
Proof.
  unfold TestType. destruct (is_None value); [rewrite dead_vv_get; eauto |].
  unfold self_vv, getattr, bind, lift.
  destruct (builtin_int value) as [n|e]; [| eauto].
  destruct (self !! "vv") as [v|]; [| rewrite vv_is_no_class_attr; eauto].
  destruct v; try congruence; cbn [obj_put]; eauto.
Qed.

Ltac dead_step :=
  first [ rewrite dead_vv_get | rewrite dead_vv_invoke | rewrite dead_vv_put
        | rewrite dead_vv_invoke_int
        | progress unfold bind, try_except, ret ].

(** No operation reaches the endpoint, or changes anything else, on a
    session without a dispatch object. *)
Lemma dead_perform o w :
  snd (perform remote ExtractComErrorInfo builtin_int self o w) = w /\
  match o with
  | op_Channel | op_Teds _ =>
      fst (perform remote ExtractComErrorInfo builtin_int self o w) = Return (VList [])
  | _ => exists e, fst (perform remote ExtractComErrorInfo builtin_int self o w) = Raise e
  end.
Proof.
  destruct o; cbn [perform];
    try (destruct (dead_TestType value w) as [e He]; rewrite He; cbn [fst snd];
         split; eauto; fail);
    cbv beta delta
      [ RunTest OpenTest EditTest StartTest StopTest AbortEdit SaveData Minimize Restore
        Maximize Activate MenuCommand IsRunning IsStarting IsChangingLevel IsHoldLevel
        IsOpenLoop IsAborted CanResumeTest IsReady ResumeTest VectorUnit VectorLabel
        VectorLength ControlUnit ControlLabel ChannelUnit ChannelLabel ReportField
        RearInputUnit RearInputLabel SweepUp SweepDown SweepStepUp SweepStepDown
        SweepHold SweepResonanceHold DemandMultiplier SweepMultiplier
        SystemCheckFrequency SystemCheckOutputVoltage SineFrequency
        GetHardwareInputChannels GetHardwareOutputChannels GetHardwareSerialNumber
        GetSoftwareVersion InputCalDate InputSerialNumber InputCapacitorCoupled
        InputAccelPowerSource InputDifferential InputSensitivity InputEngineeringScale
        InputMode InputCalibration HardwareSupportsCapacitorCoupled
        HardwareSupportsAccelPowerSource HardwareSupportsDifferential GetActiveTest
        RecordStart RecordStop RecordPause RecordGetFilename SetInputConfigurationFile
        Status Demand Control Channel Output Vector RearInput Teds
        vv_flag property_pair channel_pair ];
    try match goal with |- context [is_None ?v] => destruct (is_None v) end;
    repeat dead_step; cbn [fst snd]; split; eauto.
Qed.

End DeadSession.

(** X3. On a session that holds no dispatch object ([vv] missing, as after
    a failed construction, or [None], as after [close()]), no operation
    sends a request or changes anything else: every operation raises,
    except [Channel] and [Teds], which return the empty list. *)
Theorem operations_on_dead_session_send_nothing remote ExtractComErrorInfo builtin_int
    (self : instance) o w :
  self !! "vv" <> Some VCom ->
  snd (perform remote ExtractComErrorInfo builtin_int self o w) = w /\
  match o with
  | op_Channel | op_Teds _ =>
      fst (perform remote ExtractComErrorInfo builtin_int self o w) = Return (VList [])
  | _ => exists e, fst (perform remote ExtractComErrorInfo builtin_int self o w) = Raise e
  end.
Proof. intros Hdead. now apply dead_perform. Qed.

(** [StartTest()] on a session that was closed. *)
Lemma operations_on_dead_session_send_nothing_witness :
  snd (perform (ready_on 1) error_record int_of_number (<["vv" := VNone]> ∅)
               op_StartTest world0) = world0 /\
  exists e, fst (perform (ready_on 1) error_record int_of_number (<["vv" := VNone]> ∅)
                         op_StartTest world0) = Raise e.
Proof.
  apply (operations_on_dead_session_send_nothing (ready_on 1) error_record int_of_number
           (<["vv" := VNone]> ∅) op_StartTest world0).
  vm_compute. discriminate.
Defined.

Ltac run_surface Hvv :=
  unfold Demand, Control, Output, Channel, RearInput, Status,
         GetHardwareOutputChannels, GetHardwareInputChannels,
         vv_get, vv_invoke, self_vv, getattr, bind, lift, try_except, logged;
  rewrite Hvv; cbn [obj_get obj_invoke]; unfold call.

(** X4. [Control()] and [Output()] hand back the list of zeros they
    allocated, one per output channel, whatever their call to the endpoint
    returns, and [RearInput()] hands back eight zeros; [Demand()], which
    allocates the same list, hands back what its call returns. *)
Theorem Control_and_Output_return_their_zeros remote (self : instance) w n data :
  self !! "vv" = Some VCom ->
  remote w (PropGet "HardwareOutputChannels") = Return (VInt (Z.of_nat n)) ->
  let arr := VList (repeat (VFloat 0) n) in
  let w1 := logged w (PropGet "HardwareOutputChannels") (Return (VInt (Z.of_nat n))) in
  (remote w1 (Invoke "Control" [arr]) = Return data ->
   Control remote self w = (Return arr, logged w1 (Invoke "Control" [arr]) (Return data))) /\
  (remote w1 (Invoke "Output" [arr]) = Return data ->
   Output remote self w = (Return arr, logged w1 (Invoke "Output" [arr]) (Return data))) /\
  (remote w1 (Invoke "Demand" [arr]) = Return data ->
   Demand remote self w = (Return data, logged w1 (Invoke "Demand" [arr]) (Return data))) /\
  (remote w (Invoke "RearInput" [VList (repeat (VFloat 0) 8)]) = Return data ->
   RearInput remote self w
   = (Return (VList (repeat (VFloat 0) 8)),
      logged w (Invoke "RearInput" [VList (repeat (VFloat 0) 8)]) (Return data))).
Proof.
  intros Hvv Hn arr w1. unfold arr, w1. repeat split; intros Hdata.
  - run_surface Hvv. rewrite Hn. cbn [zeros index_of]. rewrite Nat2Z.id.
    unfold logged in Hdata. now rewrite Hdata.
  - run_surface Hvv. rewrite Hn. cbn [zeros index_of]. rewrite Nat2Z.id.
    unfold logged in Hdata. now rewrite Hdata.
  - run_surface Hvv. rewrite Hn. cbn [zeros index_of]. rewrite Nat2Z.id.
    unfold logged in Hdata. now rewrite Hdata.
  - run_surface Hvv. now rewrite Hdata.
Qed.

(** An application with four output channels. *)
Lemma Control_and_Output_return_their_zeros_witness :
  Control (ready_on 1) connected world0
  = (Return (VList (repeat (VFloat 0) 4)),
     logged (logged world0 (PropGet "HardwareOutputChannels") (Return (VInt 4)))
            (Invoke "Control" [VList (repeat (VFloat 0) 4)]) (Return (VInt 0))).
Proof.
  apply (proj1 (Control_and_Output_return_their_zeros (ready_on 1) connected world0 4
                  (VInt 0) eq_refl eq_refl) eq_refl).
Defined.

(** X5. [Channel()] sends the endpoint a list of zeros with one entry per
    input channel and hands back what the call returns; when the channel
    count it read is not an integer, it hands back the empty list and the
    data call is not made (where [Demand()], on a count of output channels
    that is not an integer, raises TypeError). *)
Theorem Channel_presizes_by_input_channels remote (self : instance) w :
  self !! "vv" = Some VCom ->
  (forall n data,
     remote w (PropGet "HardwareInputChannels") = Return (VInt (Z.of_nat n)) ->
     let arr := VList (repeat (VFloat 0) n) in
     let w1 := logged w (PropGet "HardwareInputChannels") (Return (VInt (Z.of_nat n))) in
     remote w1 (Invoke "Channel" [arr]) = Return data ->
     Channel remote self w = (Return data, logged w1 (Invoke "Channel" [arr]) (Return data))) /\
  (forall count e,
     remote w (PropGet "HardwareInputChannels") = Return count ->
     index_of count = Raise e ->
     Channel remote self w
     = (Return (VList []), logged w (PropGet "HardwareInputChannels") (Return count))) /\
  (forall count e,
     remote w (PropGet "HardwareOutputChannels") = Return count ->
     index_of count = Raise e ->
     Demand remote self w
     = (Raise e, logged w (PropGet "HardwareOutputChannels") (Return count))).
Proof.
  intros Hvv. repeat split.
  - intros n data Hn arr w1 Hdata. unfold arr, w1 in *.
    run_surface Hvv. rewrite Hn. cbn [zeros index_of]. rewrite Nat2Z.id.
    unfold logged in Hdata. now rewrite Hdata.
  - intros count e Hc He. run_surface Hvv. rewrite Hc. unfold zeros. now rewrite He.
  - intros count e Hc He. run_surface Hvv. rewrite Hc. unfold zeros. now rewrite He.
Qed.

(** An application that reports no channel count. *)
Lemma Channel_presizes_by_input_channels_witness :
  Channel (fun _ _ => Return VNone) connected world0
  = (Return (VList []),
     logged world0 (PropGet "HardwareInputChannels") (Return VNone)).
Proof.
  exact (proj1 (proj2 (Channel_presizes_by_input_channels (fun _ _ => Return VNone)
                         connected world0 eq_refl))
               VNone (TypeError "object cannot be interpreted as an integer")
               eq_refl eq_refl).
Defined.

(** X6. [Status()] packs the two items its call returns into a dictionary;
    when the call returns a list of any other length the unpacking raises
    ValueError, after the request was sent. *)
Theorem Status_unpacks_two_items remote (self : instance) w :
  self !! "vv" = Some VCom ->
  (forall a b,
     remote w (Invoke "Status" []) = Return (VList [a; b]) ->
     Status remote self w
     = (Return (VDict [("stop_code", a); ("stop_code_index", b)]),
        logged w (Invoke "Status" []) (Return (VList [a; b])))) /\
  (forall l,
     remote w (Invoke "Status" []) = Return (VList l) -> length l <> 2%nat ->
     exists what,
       Status remote self w
       = (Raise (ValueError what), logged w (Invoke "Status" []) (Return (VList l)))).
Proof.
  intros Hvv. split.
  - intros a b Hs. run_surface Hvv. now rewrite Hs.
  - intros l Hs Hlen. run_surface Hvv. rewrite Hs. unfold unpack2. cbn [iter_items].
    destruct l as [|a [|b [|c l]]]; cbn [length] in Hlen; eauto; congruence.
Qed.

(** An application whose status call returns a single item. *)
Lemma Status_unpacks_two_items_witness :
  exists what,
    Status (fun _ _ => Return (VList [VStr "Running"])) connected world0
    = (Raise (ValueError what),
       logged world0 (Invoke "Status" []) (Return (VList [VStr "Running"]))).
Proof.
  apply (proj2 (Status_unpacks_two_items (fun _ _ => Return (VList [VStr "Running"]))
                  connected world0 eq_refl)
               [VStr "Running"] eq_refl).
  cbn. lia.
Defined.

Lemma zero_matrix_int r c :
  zero_matrix (VInt r) (VInt c)
  = Return (repeat (VList (repeat (VFloat 0) (Z.to_nat c))) (Z.to_nat r)).
Proof. unfold zero_matrix. cbn [index_of]. now destruct (Z.to_nat r). Qed.

Lemma zero_matrix_no_rows r columns :
  (r <= 0)%Z -> zero_matrix (VInt r) columns = Return [].
Proof.
  intros Hr. unfold zero_matrix. cbn [index_of]. now rewrite Z2Nat.nonpos.
Qed.

Ltac run_Vector Hvv Hr :=
  unfold Vector, vv_invoke, self_vv, getattr, bind, lift, try_except;
  rewrite Hvv; cbn [obj_invoke]; unfold call; rewrite Hr.

(** X7. [Vector(vectorEnum, columns)] asks [VectorLength] with the
    identifier as given, then makes the data call with a matrix of zeros of
    that many rows and [columns] columns and with [int(vectorEnum)], and
    hands back what the data call returns.  With a row count of zero or
    less the matrix is empty and [columns] is never looked at; with a
    positive row count, a [columns] that is not an integer raises TypeError
    before the data call. *)
Theorem Vector_sends_zero_matrix remote builtin_int (self : instance) vectorEnum w r n data :
  self !! "vv" = Some VCom ->
  remote w (Invoke "VectorLength" [vectorEnum]) = Return (VInt r) ->
  builtin_int vectorEnum = Return n ->
  let w1 := logged w (Invoke "VectorLength" [vectorEnum]) (Return (VInt r)) in
  (forall c,
     let dataArray := VList (repeat (VList (repeat (VFloat 0) (Z.to_nat c))) (Z.to_nat r)) in
     remote w1 (Invoke "Vector" [dataArray; n]) = Return data ->
     Vector remote builtin_int self vectorEnum (VInt c) w
     = (Return data, logged w1 (Invoke "Vector" [dataArray; n]) (Return data))) /\
  (forall columns,
     (r <= 0)%Z ->
     remote w1 (Invoke "Vector" [VList []; n]) = Return data ->
     Vector remote builtin_int self vectorEnum columns w
     = (Return data, logged w1 (Invoke "Vector" [VList []; n]) (Return data))) /\
  (forall columns e,
     (0 < r)%Z -> index_of columns = Raise e ->
     Vector remote builtin_int self vectorEnum columns w = (Raise e, w1)).
Proof.
  intros Hvv Hr Hn w1. unfold w1. split; [| split].
  - intros c. cbv zeta. intros Hdata. run_Vector Hvv Hr.
    rewrite zero_matrix_int, Hn. unfold logged in Hdata. now rewrite Hdata.
  - intros columns Hle Hdata. run_Vector Hvv Hr.
    rewrite zero_matrix_no_rows by exact Hle. rewrite Hn.
    unfold logged in Hdata. now rewrite Hdata.
  - intros columns e Hpos He. run_Vector Hvv Hr. unfold zero_matrix. cbn [index_of].
    destruct (Z.to_nat r) eqn:Hnat; [lia |]. now rewrite He.
Qed.

(** The frequency axis before any test has run: no rows. *)
Lemma Vector_sends_zero_matrix_witness :
  Vector (fun _ _ => Return (VInt 0)) int_of_number connected (VInt 20) (VInt 5) world0
  = (Return (VInt 0),
     logged (logged world0 (Invoke "VectorLength" [VInt 20]) (Return (VInt 0)))
            (Invoke "Vector" [VList []; VInt 20]) (Return (VInt 0))).
Proof.
  apply (proj1 (proj2 (Vector_sends_zero_matrix (fun _ _ => Return (VInt 0)) int_of_number
                         connected (VInt 20) world0 0 (VInt 20) (VInt 0)
                         eq_refl eq_refl eq_refl))
               (VInt 5)).
  - lia.
  - reflexivity.
Defined.

(** X8. [Teds(c)] for one channel first reads the channel count, which it
    does not use to check [c], and then makes one TEDS call: it returns a
    single entry numbered [c + 1], with the error record when the call
    failed and with the rows of two non-empty cells when it returned a
    sheet.  When the read of the channel count fails, it returns the empty
    list and makes no TEDS call. *)
Theorem Teds_of_one_channel remote ExtractComErrorInfo (self : instance) w c :
  self !! "vv" = Some VCom ->
  let teds_call := Invoke "Teds" [VInt c; string_buffer] in
  (forall count e,
     let w1 := logged w (PropGet "HardwareInputChannels") (Return count) in
     remote w (PropGet "HardwareInputChannels") = Return count ->
     remote w1 teds_call = Raise e ->
     Teds remote ExtractComErrorInfo self (VInt c) w
     = (Return (VList [VDict [("Channel", VInt (c + 1));
                              ("Error", ExtractComErrorInfo e)]]),
        logged w1 teds_call (Raise e))) /\
  (forall count rows,
     let w1 := logged w (PropGet "HardwareInputChannels") (Return count) in
     remote w (PropGet "HardwareInputChannels") = Return count ->
     remote w1 teds_call = Return (rows_val rows) ->
     Teds remote ExtractComErrorInfo self (VInt c) w
     = (Return (VList [VDict [("Channel", VInt (c + 1));
                              ("Teds", rows_val (List.filter filled rows))]]),
        logged w1 teds_call (Return (rows_val rows)))) /\
  (forall e,
     remote w (PropGet "HardwareInputChannels") = Raise e ->
     Teds remote ExtractComErrorInfo self (VInt c) w
     = (Return (VList []), logged w (PropGet "HardwareInputChannels") (Raise e))).
Proof.
  intros Hvv teds_call.
  assert (Hone : forall count,
    remote w (PropGet "HardwareInputChannels") = Return count ->
    Teds remote ExtractComErrorInfo self (VInt c) w
    = (Return (VList [teds_record ExtractComErrorInfo c
                        (remote (logged w (PropGet "HardwareInputChannels") (Return count))
                                teds_call)]),
       logged (logged w (PropGet "HardwareInputChannels") (Return count)) teds_call
              (remote (logged w (PropGet "HardwareInputChannels") (Return count))
                      teds_call))).
  { intros count Hc.
    unfold Teds, try_except, GetHardwareInputChannels, vv_get, self_vv, getattr, bind, lift.
    rewrite Hvv. cbn [obj_get is_None]. unfold call.
    rewrite Hc. cbn [teds_loop].
    fold (logged w (PropGet "HardwareInputChannels") (Return count)).
    unfold bind.
    rewrite (teds_channel remote ExtractComErrorInfo self Hvv c). reflexivity. }
  split; [| split].
  - intros count e w1 Hc He. rewrite (Hone count Hc). fold w1. now rewrite He.
  - intros count rows w1 Hc Hrows. rewrite (Hone count Hc). fold w1. rewrite Hrows.
    unfold teds_record, rows_val. cbn [iter_items]. now rewrite keep_filled_rows.
  - intros e He.
    unfold Teds, try_except, GetHardwareInputChannels, vv_get, self_vv, getattr, bind, lift.
    rewrite Hvv. cbn [obj_get]. unfold call. now rewrite He.
Qed.

(** Channel 40 of an application with two input channels. *)
Lemma Teds_of_one_channel_witness :
  Teds no_data error_record connected (VInt 39) world0
  = (Return (VList [VDict [("Channel", VInt (39 + 1));
                           ("Error", error_record
                                       (com_error (-2147352567) "Exception occurred."))]]),
     logged (logged world0 (PropGet "HardwareInputChannels") (Return (VInt 2)))
            (Invoke "Teds" [VInt 39; string_buffer])
            (Raise (com_error (-2147352567) "Exception occurred."))).
Proof.
  apply (proj1 (Teds_of_one_channel no_data error_record connected world0 39 eq_refl)
               (VInt 2) (com_error (-2147352567) "Exception occurred.")
               eq_refl eq_refl).
Defined.

Lemma teds_record_channel ExtractComErrorInfo c o :
  exists rest, teds_record ExtractComErrorInfo c o = VDict (("Channel", VInt (c + 1)) :: rest).
Proof.
  unfold teds_record.
  destruct o as [tedsInfo|e]; [| eauto].
  destruct (iter_items tedsInfo) as [items|e]; [| eauto].
  destruct (keep_filled items); eauto.
Qed.

(** In a list whose entries are numbered from [base + 1] on, the lookup by
    number finds the entry at that place, and nothing for a number past the
    end. *)
Lemma channel_teds_numbered entries : forall base,
  (forall i item, entries !! i = Some item ->
     exists rest, item = VDict (("Channel", VInt (base + Z.of_nat i + 1)) :: rest)) ->
  forall k, channel_teds entries (base + Z.of_nat k + 1)
            = Return (default VNone (entries !! k)).
Proof.
  induction entries as [|item entries IH]; intros base Hnum k; [reflexivity |].
  destruct (Hnum 0%nat item eq_refl) as [rest ->].
  cbn [channel_teds dict_get List.find fst]. rewrite String.eqb_refl. cbn [snd eq_int].
  destruct k as [|k].
  - replace (base + Z.of_nat 0 + 1 =? base + Z.of_nat 0 + 1)%Z with true
      by (symmetry; apply Z.eqb_refl).
    reflexivity.
  - replace (base + Z.of_nat 0 + 1 =? base + Z.of_nat (S k) + 1)%Z with false
      by (symmetry; apply Z.eqb_neq; lia).
    replace (base + Z.of_nat (S k) + 1)%Z with ((base + 1) + Z.of_nat k + 1)%Z by lia.
    rewrite IH; [reflexivity |].
    intros i it Hi. destruct (Hnum (S i) it Hi) as [r ->]. exists r.
    replace (base + 1 + Z.of_nat i + 1)%Z with (base + Z.of_nat (S i) + 1)%Z by lia.
    reflexivity.
Qed.

(** The result of [Teds()] for all channels, entry by entry. *)
Lemma Teds_all_records remote ExtractComErrorInfo (self : instance) w n :
  self !! "vv" = Some VCom ->
  remote w (PropGet "HardwareInputChannels") = Return (VInt (Z.of_nat n)) ->
  exists entries,
    fst (Teds remote ExtractComErrorInfo self VNone w) = Return (VList entries) /\
    length entries = n /\
    forall i item, entries !! i = Some item ->
      exists o, item = teds_record ExtractComErrorInfo (Z.of_nat i) o.
Proof.
  intros Hvv Hn.
  set (w1 := logged w (PropGet "HardwareInputChannels") (Return (VInt (Z.of_nat n)))).
  destruct (teds_loop_entries remote ExtractComErrorInfo self Hvv
              (map Z.of_nat (seq 0 n)) [] w1)
    as (entries & calls & w' & Hrun & _ & Hlen & Hi).
  exists entries. split; [| split].
  - unfold Teds, try_except, GetHardwareInputChannels, vv_get, self_vv, getattr, bind, lift.
    rewrite Hvv. cbn [obj_get is_None]. unfold call. rewrite Hn.
    cbn [index_of]. rewrite Nat2Z.id, <- (map_map Z.of_nat VInt).
    unfold w1, logged in Hrun. rewrite Hrun. reflexivity.
  - rewrite Hlen. now rewrite length_map, length_seq.
  - intros i item Hitem.
    assert (Hlt : (i < n)%nat).
    { apply lookup_lt_Some in Hitem. rewrite Hlen, length_map, length_seq in Hitem. exact Hitem. }
    assert (Hci : map Z.of_nat (seq 0 n) !! i = Some (Z.of_nat i)).
    { rewrite list_lookup_fmap, lookup_seq_lt by exact Hlt. reflexivity. }
    destruct (Hi i _ Hci) as (o & _ & Hentry). exists o. congruence.
Qed.

(** X9. The entries that [Teds()] returns are numbered 1, 2, ... in order,
    whichever calls failed, so the lookup of the channel example,
    [next(item for item in teds_data if item.get("Channel") == k)], finds
    for [k] the entry at place [k - 1], and finds nothing ([None]) for a
    number past the last channel. *)
Theorem example_lookup_finds_channel_entry remote ExtractComErrorInfo (self : instance)
    w n :
  self !! "vv" = Some VCom ->
  remote w (PropGet "HardwareInputChannels") = Return (VInt (Z.of_nat n)) ->
  exists teds_data,
    fst (Teds remote ExtractComErrorInfo self VNone w) = Return (VList teds_data) /\
    length teds_data = n /\
    forall i, channel_teds teds_data (Z.of_nat i + 1)
              = Return (default VNone (teds_data !! i)).
Proof.
  intros Hvv Hn.
  destruct (Teds_all_records remote ExtractComErrorInfo self w n Hvv Hn)
    as (entries & Hrun & Hlen & Hrec).
  exists entries. split; [exact Hrun |]. split; [exact Hlen |].
  intros i. apply (channel_teds_numbered entries 0).
  intros j item Hj. destruct (Hrec j item Hj) as [o ->].
  apply teds_record_channel.
Qed.

(** Two channels whose TEDS calls fail: the second entry is found under
    number 2. *)
Lemma example_lookup_finds_channel_entry_witness :
  exists teds_data,
    fst (Teds no_data error_record connected VNone world0) = Return (VList teds_data) /\
    length teds_data = 2%nat /\
    forall i, channel_teds teds_data (Z.of_nat i + 1)
              = Return (default VNone (teds_data !! i)).
Proof.
  apply (example_lookup_finds_channel_entry no_data error_record connected world0 2
           eq_refl eq_refl).
Defined.

(** * Further properties of the transport bookkeeping *)

Lemma count_com_snoc c t w l t' c' :
  com_calls w = l ++ [(t', c')] ->
  count_com c t w
  = (length (List.filter (fun p => Nat.eqb (fst p) t &&
                                   match snd p, c with
                                   | CoInitialize, CoInitialize => true
                                   | CoUninitialize, CoUninitialize => true
                                   | _, _ => false
                                   end) l)
     + (if Nat.eqb t' t && match c', c with
                           | CoInitialize, CoInitialize => true
                           | CoUninitialize, CoUninitialize => true
                           | _, _ => false
                           end then 1 else 0))%nat.
Proof.
  intros H. unfold count_com. rewrite H, List.filter_app, length_app. cbn [List.filter fst snd].
  now destruct (Nat.eqb t' t && _).
Qed.

Section Balance.

Variable remote : world -> request -> outcome val.

Lemma close_then_destroy_calls history i t (self : instance) :
  let s := play remote history in
  objects s !! i = Some (t, Some self) ->
  com_calls (state (step remote (step remote s (Close i)) (Del i)))
  = com_calls (state s) ++
    (t, CoUninitialize) :: (if initialised_flag self then [(t, CoUninitialize)] else []).
Proof.
  intros s Hi. pose proof (play_sound remote history) as Inv. fold s in Inv.
  cbn [step]. unfold on_object at 2. rewrite Hi, close_spec.
  unfold on_object. cbn [objects state].
  rewrite list_lookup_insert_eq by (apply lookup_lt_Some in Hi; exact Hi).
  set (w1 := mkWorld _ _ _ _ _ _ _ _).
  destruct (del_spec t (release_handle self) w1) as (self' & w' & Hrun & _ & _ & Hcase).
  rewrite Hrun. cbn [state]. rewrite release_handle_flag in Hcase.
  assert (Hreg : registered t w1 = registered t (state s)) by reflexivity.
  destruct (initialised_flag self) eqn:Hflag.
  - assert (Hr : registered t (state s) = true).
    { apply (proj1 (Inv t) i (t, Some self) Hi). cbn [is_initialiser].
      now rewrite Nat.eqb_refl, Hflag. }
    rewrite Hreg, Hr in Hcase. cbn [andb] in Hcase. destruct Hcase as [_ ->].
    unfold w1. cbn [com_calls]. now rewrite <- app_assoc.
  - cbn [andb] in Hcase. subst w'. reflexivity.
Qed.

Lemma new_balance s t0 :
  (forall t, count_com CoInitialize t (state s)
             = (count_com CoUninitialize t (state s)
                + (if registered t (state s) then 1 else 0))%nat) ->
  forall t, count_com CoInitialize t (state (step remote s (New t0)))
            = (count_com CoUninitialize t (state (step remote s (New t0)))
               + (if registered t (state (step remote s (New t0))) then 1 else 0))%nat.
Proof.
  intros Hbal t. cbn [step].
  destruct (init_spec remote t0 (state s)) as (self & w' & Hrun & _ & Hreg & Hother & Hcom).
  rewrite Hrun. cbn [state]. specialize (Hbal t).
  destruct (registered t0 (state s)) eqn:Hr0.
  - rewrite app_nil_r in Hcom.
    assert (Hsame : registered t w' = registered t (state s)).
    { destruct (decide (t = t0)) as [-> | Hne]; [congruence |].
      apply registered_ext. now apply Hother. }
    unfold count_com in *. rewrite Hcom, Hsame. exact Hbal.
  - rewrite (count_com_snoc CoInitialize t w' _ _ _ Hcom).
    rewrite (count_com_snoc CoUninitialize t w' _ _ _ Hcom).
    fold (count_com CoInitialize t (state s)). fold (count_com CoUninitialize t (state s)).
    destruct (decide (t = t0)) as [-> | Hne].
    + rewrite Nat.eqb_refl, Hreg. rewrite Hr0 in Hbal. cbn [andb]. lia.
    + replace (Nat.eqb t0 t) with false by (symmetry; apply Nat.eqb_neq; congruence).
      rewrite (registered_ext t (state s) w') by now apply Hother.
      cbn [andb]. lia.
Qed.

Lemma del_balance s i :
  (forall t, count_com CoInitialize t (state s)
             = (count_com CoUninitialize t (state s)
                + (if registered t (state s) then 1 else 0))%nat) ->
  forall t, count_com CoInitialize t (state (step remote s (Del i)))
            = (count_com CoUninitialize t (state (step remote s (Del i)))
               + (if registered t (state (step remote s (Del i))) then 1 else 0))%nat.
Proof.
  intros Hbal t. cbn [step]. unfold on_object.
  destruct (objects s !! i) as [[t0 [self|]]|] eqn:Hi; try exact (Hbal t).
  destruct (del_spec t0 self (state s)) as (self' & w' & Hrun & Hother & _ & Hcase).
  rewrite Hrun. cbn [state]. specialize (Hbal t).
  destruct (initialised_flag self && registered t0 (state s)) eqn:Hb.
  - destruct Hcase as [Hreg Hcom]. apply andb_true_iff in Hb as [_ Hr0].
    rewrite (count_com_snoc CoInitialize t w' _ _ _ Hcom).
    rewrite (count_com_snoc CoUninitialize t w' _ _ _ Hcom).
    fold (count_com CoInitialize t (state s)). fold (count_com CoUninitialize t (state s)).
    destruct (decide (t = t0)) as [-> | Hne].
    + rewrite Nat.eqb_refl, Hreg. rewrite Hr0 in Hbal. cbn [andb]. lia.
    + replace (Nat.eqb t0 t) with false by (symmetry; apply Nat.eqb_neq; congruence).
      rewrite (registered_ext t (state s) w') by now apply Hother.
      cbn [andb]. lia.
  - subst w'. exact Hbal.
Qed.

Lemma play_balance history :
  without_close history = true ->
  forall t, count_com CoInitialize t (state (play remote history))
            = (count_com CoUninitialize t (state (play remote history))
               + (if registered t (state (play remote history)) then 1 else 0))%nat.
Proof.
  unfold play. induction history as [|a history IH] using rev_ind; intros Hnc.
  - intros t. reflexivity.
  - unfold without_close in Hnc. rewrite forallb_app in Hnc.
    apply andb_true_iff in Hnc as [Hh Ha]. cbn [forallb] in Ha.
    rewrite fold_left_app. cbn [fold_left].
    destruct a as [t0 | j | j]; [| discriminate Ha |].
    + apply new_balance. now apply IH.
    + apply del_balance. now apply IH.
Qed.

End Balance.

(** X10. [close()] does not clear the flag of the session or unregister
    the thread, so closing a session and then destroying it calls
    [CoUninitialize] twice when the session had initialised the transport,
    and once when it had not. *)
Theorem close_then_destroy_uninitialises_again remote history i t (self : instance) :
  let s := play remote history in
  objects s !! i = Some (t, Some self) ->
  com_calls (state (step remote (step remote s (Close i)) (Del i)))
  = com_calls (state s) ++
    (t, CoUninitialize) :: (if initialised_flag self then [(t, CoUninitialize)] else []).
Proof. intros s Hi. now apply close_then_destroy_calls. Qed.

(** One session, constructed, closed and collected. *)
Lemma close_then_destroy_uninitialises_again_witness :
  com_calls (state (step (ready_on 1) (step (ready_on 1) (play (ready_on 1) [New 1])
                                            (Close 0)) (Del 0)))
  = com_calls (state (play (ready_on 1) [New 1])) ++
    (1%nat, CoUninitialize)
    :: (if initialised_flag (<["vv" := VCom]> (<["_initialized_com" := VBool true]> ∅))
        then [(1%nat, CoUninitialize)] else []).
Proof.
  apply (close_then_destroy_uninitialises_again (ready_on 1) [New 1] 0 1
           (<["vv" := VCom]> (<["_initialized_com" := VBool true]> ∅))).
  vm_compute. reflexivity.
Defined.

(** X11. As long as no session is closed explicitly, the calls to the
    transport stay balanced on every thread: after any history of
    constructions and destructions a thread has made as many
    [CoInitialize] calls as [CoUninitialize] calls, plus one exactly when
    the thread is registered. *)
Theorem transport_calls_are_balanced_without_close remote history t :
  without_close history = true ->
  count_com CoInitialize t (state (play remote history))
  = (count_com CoUninitialize t (state (play remote history))
     + (if registered t (state (play remote history)) then 1 else 0))%nat.
Proof. intros Hnc. now apply play_balance. Qed.

(** Three sessions on one thread, the first of them collected. *)
Lemma transport_calls_are_balanced_without_close_witness :
  count_com CoInitialize 1 (state (play (ready_on 1) [New 1; New 1; Del 0; New 1]))
  = (count_com CoUninitialize 1 (state (play (ready_on 1) [New 1; New 1; Del 0; New 1]))
     + (if registered 1 (state (play (ready_on 1) [New 1; New 1; Del 0; New 1]))
        then 1 else 0))%nat.
Proof.
  apply (transport_calls_are_balanced_without_close (ready_on 1)
           [New 1; New 1; Del 0; New 1] 1).
  reflexivity.
Defined.

(** * Further properties of the polling helpers *)

Local Open Scope Q_scope.

(** X12. Whenever [wait_for_condition] returns, it has slept once after
    each sample that read false and not after a sample that read true: it
    hands back a true value the moment it reads one, and a false value
    only when the timeout has run out. *)
Theorem wait_for_condition_sleeps_after_false_samples condition_func latency fuel
    wait_time check_interval w r w' :
  wait_for_condition condition_func latency fuel wait_time check_interval w
  = (Return (Some r), w') ->
  exists misses,
    Forall (fun v => truthy v = false) misses /\
    slept w' = slept w ++ repeat check_interval (length misses) /\
    ((truthy r = true /\ observed w' = observed w ++ misses ++ [r])
     \/ (truthy r = false /\ observed w' = observed w ++ misses /\
         wait_time <= now w' - now w)).
Proof.
  intros H.
  change (wait_for_condition_loop condition_func latency fuel (now (started w))
            wait_time check_interval (VBool false) (started w) = (Return (Some r), w')) in H.
  destruct (started_frame w) as (Hs0 & Ho0 & Hn0).
  destruct (wait_for_condition_loop_sound _ _ _ _ _ _ _ _ _ _ H)
    as (k & _ & Hall & Hsl & Hend).
  set (misses := polls condition_func latency check_interval k (started w)).
  assert (Hmiss : Forall (fun v => truthy v = false) misses).
  { unfold misses, polls. apply List.Forall_forall. intros v Hv.
    apply in_map_iff in Hv as (i & <- & Hi).
    apply in_seq in Hi. apply Hall. lia. }
  exists misses. split; [exact Hmiss |].
  split; [unfold misses; now rewrite polls_length, Hsl, Hs0 |].
  destruct Hend as [(_ & Hv & Hr & _ & Ho) | (Ht & Hr & Hw & Ho)]; [left | right].
  - split; [now rewrite Hr |]. rewrite Ho, Ho0, polls_snoc, Hr. reflexivity.
  - split; [| split; [now rewrite Ho, Ho0 |]].
    + rewrite Hr. fold misses.
      destruct misses as [|m l] using rev_ind; [reflexivity |].
      rewrite last_last. apply Forall_app in Hmiss as [_ Hm]. now inversion Hm.
    + apply Qltb_false in Ht. subst w'. lra.
Qed.

(** A predicate that reads false once and then true. *)
Lemma wait_for_condition_sleeps_after_false_samples_witness :
  exists misses,
    Forall (fun v => truthy v = false) misses /\
    slept (snd (wait_for_condition (fun w => VBool (Nat.eqb (length (observed w)) 1))
                  (fun _ => 0) 3 5 (1 # 10) world0))
    = slept world0 ++ repeat (1 # 10) (length misses) /\
    ((truthy (VBool true) = true /\
      observed (snd (wait_for_condition (fun w => VBool (Nat.eqb (length (observed w)) 1))
                       (fun _ => 0) 3 5 (1 # 10) world0))
      = observed world0 ++ misses ++ [VBool true])
     \/ (truthy (VBool true) = false /\
         observed (snd (wait_for_condition (fun w => VBool (Nat.eqb (length (observed w)) 1))
                          (fun _ => 0) 3 5 (1 # 10) world0))
         = observed world0 ++ misses /\
         5 <= now (snd (wait_for_condition
                          (fun w => VBool (Nat.eqb (length (observed w)) 1))
                          (fun _ => 0) 3 5 (1 # 10) world0)) - now world0)).
Proof.
  apply (wait_for_condition_sleeps_after_false_samples
           (fun w => VBool (Nat.eqb (length (observed w)) 1)) (fun _ => 0) 3 5 (1 # 10)
           world0 (VBool true)).
  vm_compute. reflexivity.
Defined.

(** A run that took [n] samples found the timeout not yet over before the
    last of them, after [n - 1] rounds that each lasted the interval at
    least. *)
Lemma samples_within_timeout condition_func latency check_interval wait_time n u start :
  (forall w, 0 <= latency w) ->
  now u == start ->
  (forall i, (i < n)%nat ->
     Qltb (now (poll condition_func latency check_interval i u) - start) wait_time = true) ->
  n = 0%nat \/ inject_Z (Z.of_nat (n - 1)) * check_interval < wait_time.
Proof.
  intros Hlat Hstart Hin. destruct n as [|n]; [now left | right].
  replace (S n - 1)%nat with n by lia.
  specialize (Hin n ltac:(lia)). apply Qltb_true in Hin.
  pose proof (poll_now condition_func latency check_interval n u Hlat) as Hnow.
  rewrite budget_eq in Hnow. lra.
Qed.

(** X13. However much the clock overruns, a polling helper that comes
    back has not sampled the predicate more often than the timeout allows:
    its [n] samples are the values of the predicate in the worlds
    [sampled 0], ..., [sampled (n - 1)], it slept at most once per sample,
    and [(n - 1) * check_interval < wait_time], since the last sample was
    taken after [n - 1] sleeps and a clock test that found the timeout not
    yet over.  With a positive interval the helper does come back.  (The
    predicate takes no negative time.) *)
Theorem polling_samples_are_bounded_by_timeout condition_func latency wait_time
    check_interval w :
  (forall w, 0 <= latency w) ->
  forall helper,
    In helper [wait_for_condition condition_func latency;
               _wait_for_not condition_func latency;
               wait_for_not condition_func latency] ->
    (forall fuel r w',
       helper fuel wait_time check_interval w = (Return (Some r), w') ->
       exists n k,
         observed w' = observed w ++ samples condition_func latency check_interval n w /\
         slept w' = slept w ++ repeat check_interval k /\
         (k <= n)%nat /\
         (n = 0%nat \/ inject_Z (Z.of_nat (n - 1)) * check_interval < wait_time)) /\
    (0 < check_interval ->
     exists fuel0, forall fuel, (fuel0 <= fuel)%nat ->
       exists r w', helper fuel wait_time check_interval w = (Return (Some r), w')).
Proof.
  intros Hlat helper Hin.
  destruct (started_frame w) as (Hs0 & Ho0 & Hn0).
  assert (Hnot : forall literal,
    (forall fuel r w',
       wait_for_not_loop condition_func latency literal fuel (now (started w)) wait_time
         check_interval (started w) = (Return (Some r), w') ->
       exists n k,
         observed w' = observed w ++ samples condition_func latency check_interval n w /\
         slept w' = slept w ++ repeat check_interval k /\
         (k <= n)%nat /\
         (n = 0%nat \/ inject_Z (Z.of_nat (n - 1)) * check_interval < wait_time)) /\
    (0 < check_interval ->
     exists fuel0, forall fuel, (fuel0 <= fuel)%nat ->
       exists r w',
         wait_for_not_loop condition_func latency literal fuel (now (started w)) wait_time
           check_interval (started w) = (Return (Some r), w'))).
  { intros literal. split.
    - intros fuel r w' H.
      destruct (wait_for_not_loop_sound _ _ _ _ _ _ _ _ _ _ H)
        as (k & _ & Hall & Hsl & Hend).
      destruct Hend as [(Ht & _ & _ & _ & Ho) | (_ & _ & _ & Ho)].
      + exists (S k), k. split; [now rewrite Ho, Ho0 |]. split; [now rewrite Hsl, Hs0 |].
        split; [lia |].
        apply (samples_within_timeout condition_func latency check_interval wait_time
                 (S k) (started w) (now (started w)) Hlat (Qeq_refl _)).
        intros i Hi. destruct (Nat.eq_dec i k) as [-> | Hne]; [exact Ht |].
        apply Hall. lia.
      + exists k, k. split; [now rewrite Ho, Ho0 |]. split; [now rewrite Hsl, Hs0 |].
        split; [lia |].
        apply (samples_within_timeout condition_func latency check_interval wait_time
                 k (started w) (now (started w)) Hlat (Qeq_refl _)).
        intros i Hi. now apply Hall.
    - intros Hci. destruct (budget_reaches wait_time check_interval Hci) as [f Hf].
      exists (S f). intros fuel Hfuel.
      apply (wait_for_not_loop_returns condition_func latency check_interval literal
               Hci Hlat f); [lra | lia]. }
  destruct Hin as [<- | [<- | [<- | []]]].
  - split.
    + intros fuel r w' H.
      change (wait_for_condition_loop condition_func latency fuel (now (started w))
                wait_time check_interval (VBool false) (started w)
              = (Return (Some r), w')) in H.
      destruct (wait_for_condition_loop_sound _ _ _ _ _ _ _ _ _ _ H)
        as (k & _ & Hall & Hsl & Hend).
      destruct Hend as [(Ht & _ & _ & _ & Ho) | (_ & _ & _ & Ho)].
      * exists (S k), k. split; [now rewrite Ho, Ho0 |]. split; [now rewrite Hsl, Hs0 |].
        split; [lia |].
        apply (samples_within_timeout condition_func latency check_interval wait_time
                 (S k) (started w) (now (started w)) Hlat (Qeq_refl _)).
        intros i Hi. destruct (Nat.eq_dec i k) as [-> | Hne]; [exact Ht |].
        apply Hall. lia.
      * exists k, k. split; [now rewrite Ho, Ho0 |]. split; [now rewrite Hsl, Hs0 |].
        split; [lia |].
        apply (samples_within_timeout condition_func latency check_interval wait_time
                 k (started w) (now (started w)) Hlat (Qeq_refl _)).
        intros i Hi. now apply Hall.
    + intros Hci. destruct (budget_reaches wait_time check_interval Hci) as [f Hf].
      exists (S f). intros fuel Hfuel.
      change (exists r w',
                wait_for_condition_loop condition_func latency fuel (now (started w))
                  wait_time check_interval (VBool false) (started w)
                = (Return (Some r), w')).
      apply (wait_for_condition_loop_returns condition_func latency check_interval
               Hci Hlat f); [lra | lia].
  - exact (Hnot true).
  - exact (Hnot false).
Qed.

(** Half a second at an interval of two tenths: at most three samples. *)
Lemma polling_samples_are_bounded_by_timeout_witness :
  exists n k,
    observed (snd (wait_for_condition (fun _ => VBool false) (fun _ => 0) 9 (1 # 2) (2 # 10)
                     world0))
    = observed world0 ++ samples (fun _ => VBool false) (fun _ => 0) (2 # 10) n world0 /\
    slept (snd (wait_for_condition (fun _ => VBool false) (fun _ => 0) 9 (1 # 2) (2 # 10)
                  world0))
    = slept world0 ++ repeat (2 # 10) k /\
    (k <= n)%nat /\
    (n = 0%nat \/ inject_Z (Z.of_nat (n - 1)) * (2 # 10) < 1 # 2).
Proof.
  destruct (polling_samples_are_bounded_by_timeout (fun _ => VBool false) (fun _ => 0)
              (1 # 2) (2 # 10) world0) with
    (helper := wait_for_condition (fun _ => VBool false) (fun _ => 0)) as [Hrun _].
  - intros w. apply Qle_refl.
  - left. reflexivity.
  - apply (Hrun 9%nat (VBool false)). vm_compute. reflexivity.
Defined.

Local Close Scope Q_scope.

(** * Properties of the window state detection *)

Section WindowFacts.

Variable remote : world -> request -> outcome val.

Lemma is_window_minimized_spec hwnd w :
  let o := remote w (Invoke "IsIconic" [VInt hwnd]) in
  is_window_minimized remote hwnd w
  = (Return (match o with Return v => v | Raise _ => VNone end),
     logged w (Invoke "IsIconic" [VInt hwnd]) o).
Proof.
  unfold is_window_minimized, win32gui, try_except, call, logged, ret. cbv zeta.
  now destruct (remote w (Invoke "IsIconic" [VInt hwnd])).
Qed.

Lemma placement_shows_spec hwnd show w :
  let o := remote w (Invoke "GetWindowPlacement" [VInt hwnd]) in
  exists v, placement_shows remote hwnd show w
            = (Return v, logged w (Invoke "GetWindowPlacement" [VInt hwnd]) o) /\
            ((exists e, o = Raise e) -> v = VNone).
Proof.
  unfold placement_shows, win32gui, try_except, bind, call, logged, lift, ret. cbv zeta.
  destruct (remote w (Invoke "GetWindowPlacement" [VInt hwnd])) as [p|e].
  - destruct (item_at p 1); eexists; (split; [reflexivity |]);
      intros [e' He']; discriminate He'.
  - eexists. split; [reflexivity | auto].
Qed.

(** What [get_window_state] does to the world: up to three requests, no
    sleep, no time. *)
Lemma get_window_state_spec hwnd w :
  exists s w' new,
    get_window_state remote hwnd w = (Return s, w') /\
    trace w' = trace w ++ new /\ (length new <= 3)%nat /\
    now w' = now w /\ slept w' = slept w /\
    In s window_states /\
    (s = "minimized"
     <-> answered_true (remote w (Invoke "IsIconic" [VInt hwnd])) = true) /\
    ((forall rq o, In (rq, o) new -> exists e, o = Raise e) -> s = "unknown").
Proof.
  unfold get_window_state.
  rewrite (bind_Return _ _ _ _ _ (is_window_minimized_spec hwnd w)).
  set (o1 := remote w (Invoke "IsIconic" [VInt hwnd])).
  set (w1 := logged w (Invoke "IsIconic" [VInt hwnd]) o1).
  destruct (truthy match o1 with Return v => v | Raise _ => VNone end) eqn:Hmin.
  - exists "minimized", w1, [(Invoke "IsIconic" [VInt hwnd], o1)].
    split; [reflexivity |]. split; [reflexivity |]. split; [cbn; lia |].
    split; [reflexivity |]. split; [reflexivity |]. split; [now left |].
    split.
    + split; [intros _ | reflexivity]. unfold answered_true. now destruct o1.
    + intros Hall. destruct (Hall _ _ (or_introl eq_refl)) as [e He].
      rewrite He in Hmin. discriminate Hmin.
  - assert (Hno : answered_true o1 = false) by (unfold answered_true; now destruct o1).
    destruct (placement_shows_spec hwnd SW_SHOWMAXIMIZED w1) as (v2 & Hrun2 & Hfail2).
    set (o2 := remote w1 (Invoke "GetWindowPlacement" [VInt hwnd])) in *.
    set (w2 := logged w1 (Invoke "GetWindowPlacement" [VInt hwnd]) o2) in *.
    unfold is_window_maximized. rewrite (bind_Return _ _ _ _ _ Hrun2).
    destruct (truthy v2) eqn:Hmax.
    + exists "maximized", w2,
        [(Invoke "IsIconic" [VInt hwnd], o1); (Invoke "GetWindowPlacement" [VInt hwnd], o2)].
      split; [reflexivity |].
      split; [unfold w2, w1, logged; cbn [trace]; now rewrite <- app_assoc |].
      split; [cbn; lia |]. split; [reflexivity |]. split; [reflexivity |].
      split; [right; now left |]. split.
      * rewrite Hno. split; discriminate.
      * intros Hall. destruct (Hall _ _ (or_intror (or_introl eq_refl))) as [e He].
        rewrite (Hfail2 (ex_intro _ e He)) in Hmax. discriminate Hmax.
    + destruct (placement_shows_spec hwnd SW_SHOWNORMAL w2) as (v3 & Hrun3 & Hfail3).
      set (o3 := remote w2 (Invoke "GetWindowPlacement" [VInt hwnd])) in *.
      set (w3 := logged w2 (Invoke "GetWindowPlacement" [VInt hwnd]) o3) in *.
      unfold is_window_normal. rewrite (bind_Return _ _ _ _ _ Hrun3).
      assert (Htr : trace w3 = trace w ++
                [(Invoke "IsIconic" [VInt hwnd], o1);
                 (Invoke "GetWindowPlacement" [VInt hwnd], o2);
                 (Invoke "GetWindowPlacement" [VInt hwnd], o3)]).
      { unfold w3, w2, w1, logged. cbn [trace]. now rewrite <- !app_assoc. }
      destruct (truthy v3) eqn:Hnorm.
      * eexists "normal", w3, _. split; [reflexivity |]. split; [exact Htr |].
        split; [cbn; lia |]. split; [reflexivity |]. split; [reflexivity |].
        split; [right; right; now left |]. split.
        -- rewrite Hno. split; discriminate.
        -- intros Hall.
           destruct (Hall _ _ (or_intror (or_intror (or_introl eq_refl)))) as [e He].
           rewrite (Hfail3 (ex_intro _ e He)) in Hnorm. discriminate Hnorm.
      * eexists "unknown", w3, _. split; [reflexivity |]. split; [exact Htr |].
        split; [cbn; lia |]. split; [reflexivity |]. split; [reflexivity |].
        split; [right; right; right; now left |]. split.
        -- rewrite Hno. split; discriminate.
        -- reflexivity.
Qed.

End WindowFacts.

(** X14. [get_window_state] never raises, whatever the window calls do: it
    makes at most three of them and returns one of the four state names,
    ["minimized"] exactly when [IsIconic] answered with a true value, and
    ["unknown"] when every call it made failed. *)
Theorem get_window_state_names_a_state remote hwnd w :
  exists s w' new,
    get_window_state remote hwnd w = (Return s, w') /\
    trace w' = trace w ++ new /\ (length new <= 3)%nat /\
    In s window_states /\
    (s = "minimized"
     <-> answered_true (remote w (Invoke "IsIconic" [VInt hwnd])) = true) /\
    ((forall rq o, In (rq, o) new -> exists e, o = Raise e) -> s = "unknown").
Proof.
  destruct (get_window_state_spec remote hwnd w)
    as (s & w' & new & H1 & H2 & H3 & _ & _ & H4 & H5 & H6).
  exists s, w', new. repeat (split; [assumption |]). exact H6.
Qed.

Local Open Scope Q_scope.

Lemma budget_nonneg f ci : 0 <= ci -> 0 <= budget f ci.
Proof. intros Hci. induction f as [|f IH]; cbn [budget]; lra. Qed.

Section WindowWait.

Variable remote : world -> request -> outcome val.

(** With [n] rounds of half a second left before the timeout, the loop
    sleeps at most [n] times, and gives up only when the timeout is over. *)
Lemma wait_for_window_state_loop_rounds hwnd expected start timeout n :
  forall fuel w,
    timeout - budget n (1 # 2) <= now w - start ->
    (n < fuel)%nat ->
    exists b w' k,
      wait_for_window_state_loop remote fuel hwnd expected start timeout (1 # 2) w
      = (Return (Some b), w') /\
      slept w' = slept w ++ repeat (1 # 2) k /\
      (k <= n)%nat /\ (b = false -> timeout <= now w' - start).
Proof.
  induction n as [|n IH]; intros fuel w Hnow Hfuel;
    (destruct fuel as [|fuel]; [lia |]);
    cbn [wait_for_window_state_loop]; unfold bind at 1; rewrite time_time_eq;
    destruct (at_sample_frame w) as (Hs0 & _ & Hn0);
    cbn [budget] in Hnow;
    destruct (Qltb (now (at_sample w) - start) timeout) eqn:Hclock.
  - apply Qltb_true in Hclock. lra.
  - apply Qltb_false in Hclock. exists false, (at_sample w), 0%nat.
    cbn [repeat]. rewrite app_nil_r.
    split; [reflexivity |]. split; [exact Hs0 |]. split; [lia |]. intros _. exact Hclock.
  - destruct (get_window_state_spec remote hwnd (at_sample w))
      as (s & w1 & new & Hrun & _ & _ & Hnow1 & Hsl1 & _).
    rewrite (bind_Return _ _ _ _ _ Hrun).
    destruct (String.eqb s expected).
    + exists true, w1, 0%nat. cbn [repeat]. rewrite app_nil_r.
      split; [reflexivity |]. split; [now rewrite Hsl1 |]. split; [lia | discriminate].
    + rewrite (bind_Return _ _ _ _ _ (sleep_ok (1 # 2) w1 eq_refl)).
      match goal with |- context [wait_for_window_state_loop _ _ _ _ _ _ _ ?w2] =>
        destruct (IH fuel w2) as (b & w' & k & Hloop & Hsl & Hk & Hfalse)
      end.
      * cbn [now]. rewrite Hnow1.
        pose proof (seconds_ge0 (overrun w1 (clock_calls w1))). lra.
      * lia.
      * exists b, w', (S k). split; [exact Hloop |].
        split; [rewrite Hsl; cbn [slept repeat]; rewrite Hsl1, Hs0; now rewrite <- app_assoc |].
        split; [lia | exact Hfalse].
  - apply Qltb_false in Hclock. exists false, (at_sample w), 0%nat.
    cbn [repeat]. rewrite app_nil_r.
    split; [reflexivity |]. split; [exact Hs0 |]. split; [lia |]. intros _. exact Hclock.
Qed.

Lemma show_and_wait_spec fuel hwnd command state w :
  (10 < fuel)%nat ->
  let show := Invoke "ShowWindow" [VInt hwnd; VInt command] in
  exists b w' k,
    show_and_wait remote fuel hwnd command state w = (Return (Some b), w') /\
    slept w' = slept w ++ repeat (1 # 2) k /\ (k <= 10)%nat /\
    match remote w show with
    | Raise e => b = false /\ w' = logged w show (Raise e)
    | Return _ => b = false -> 5 <= now w' - now w
    end.
Proof.
  intros Hfuel show. unfold show_and_wait, try_except, win32gui, call.
  unfold bind at 1. fold show. fold (logged w show (remote w show)).
  destruct (remote w show) as [v|e] eqn:Hshow.
  - unfold wait_for_window_state, bind at 1. rewrite time_time_eq.
    set (w1 := logged w show (Return v)).
    destruct (at_sample_frame w1) as (Hs1 & _ & Hn1).
    destruct (wait_for_window_state_loop_rounds hwnd state (now (at_sample w1)) 5 10 fuel
                (at_sample w1))
      as (b & w' & k & Hloop & Hsl & Hk & Hfalse);
      [pose proof (budget_nonneg 10 (1 # 2)); cbn [budget] in *; lra | exact Hfuel |].
    rewrite Hloop. exists b, w', k. split; [reflexivity |].
    split; [now rewrite Hsl, Hs1 |]. split; [exact Hk |].
    intros Hb. specialize (Hfalse Hb). change (now w1) with (now w) in Hn1. lra.
  - exists false, (logged w show (Raise e)), 0%nat. cbn. rewrite app_nil_r.
    repeat split; auto. lia.
Qed.

End WindowWait.

Local Close Scope Q_scope.



Ltac trace_eq :=
  repeat match goal with x := _ |- _ => subst x end;
  unfold logged; cbn [trace]; rewrite <- ?app_assoc; reflexivity.

(** X16. [activate_window] never raises.  It restores the window first
    exactly when [IsIconic] answered with a true value (a failing
    [IsIconic] counts as not minimized), and it returns [True] only when no
    later call failed and [GetForegroundWindow] named this window. *)
Theorem activate_window_restores_only_minimized remote hwnd w :
  let iconic := remote w (Invoke "IsIconic" [VInt hwnd]) in
  let restore := Invoke "ShowWindow" [VInt hwnd; VInt SW_RESTORE] in
  exists b w' new,
    activate_window remote hwnd w = (Return b, w') /\
    trace w' = trace w ++ (Invoke "IsIconic" [VInt hwnd], iconic) :: new /\
    ((exists o, In (restore, o) new) <-> answered_true iconic = true) /\
    ((exists rq e, In (rq, Raise e) new) -> b = false) /\
    (b = true -> exists v, In (Invoke "GetForegroundWindow" [], Return v) new /\
                           eq_int v hwnd = true).
Proof.
  intros iconic restore.
  unfold activate_window, try_except.
  rewrite (bind_Return _ _ _ _ _ (is_window_minimized_spec remote hwnd w)).
  fold iconic. set (w1 := logged w (Invoke "IsIconic" [VInt hwnd]) iconic).
  assert (Hmin : truthy match iconic with Return v => v | Raise _ => VNone end
                 = answered_true iconic) by (unfold answered_true; now destruct iconic).
  rewrite Hmin. unfold win32gui, bind, call, ret. fold restore.
  destruct (answered_true iconic).
  - destruct (remote w1 restore) as [r|e] eqn:Hr.
    + set (w2 := mkWorld (trace w1 ++ [(restore, Return r)]) _ _ _ _ _ _ _).
      destruct (remote w2 (Invoke "SetForegroundWindow" [VInt hwnd])) as [f|e] eqn:Hf.
      * set (w3 := mkWorld (trace w2 ++ _) _ _ _ _ _ _ _).
        destruct (remote w3 (Invoke "GetForegroundWindow" [])) as [g|e] eqn:Hg.
        -- eexists _, _, [(restore, Return r); _; (Invoke "GetForegroundWindow" [], Return g)].
           split; [reflexivity |].
           split; [trace_eq |].
           split; [split; [reflexivity | intros _; eexists; now left] |].
           split.
           ++ intros (rq & e & [H | [H | [H | []]]]); discriminate H.
           ++ intros Hb. exists g. split; [right; right; now left | exact Hb].
        -- eexists _, _, [(restore, Return r); _; (Invoke "GetForegroundWindow" [], Raise e)].
           split; [reflexivity |].
           split; [trace_eq |].
           split; [split; [reflexivity | intros _; eexists; now left] |].
           split; [reflexivity | discriminate].
      * eexists _, _, [(restore, Return r); (_, Raise e)].
        split; [reflexivity |].
        split; [trace_eq |].
        split; [split; [reflexivity | intros _; eexists; now left] |].
        split; [reflexivity | discriminate].
    + eexists _, _, [(restore, Raise e)].
      split; [reflexivity |].
      split; [trace_eq |].
      split; [split; [reflexivity | intros _; eexists; now left] |].
      split; [reflexivity | discriminate].
  - destruct (remote w1 (Invoke "SetForegroundWindow" [VInt hwnd])) as [f|e] eqn:Hf.
    + set (w3 := mkWorld (trace w1 ++ _) _ _ _ _ _ _ _).
      destruct (remote w3 (Invoke "GetForegroundWindow" [])) as [g|e] eqn:Hg.
      * eexists _, _, [_; (Invoke "GetForegroundWindow" [], Return g)].
        split; [reflexivity |].
        split; [trace_eq |].
        split.
        -- split; [| discriminate]. intros (o & [H | [H | []]]); discriminate H.
        -- split.
           ++ intros (rq & e & [H | [H | []]]); discriminate H.
           ++ intros Hb. exists g. split; [right; now left | exact Hb].
      * eexists _, _, [_; (Invoke "GetForegroundWindow" [], Raise e)].
        split; [reflexivity |].
        split; [trace_eq |].
        split.
        -- split; [| discriminate]. intros (o & [H | [H | []]]); discriminate H.
        -- split; [reflexivity | discriminate].
    + eexists _, _, [(_, Raise e)].
      split; [reflexivity |].
      split; [trace_eq |].
      split.
      * split; [| discriminate]. intros (o & [H | []]); discriminate H.
      * split; [reflexivity | discriminate].
Qed.

(** * Properties of the test application *)

Section TesterFacts.

Variable remote : world -> request -> outcome val.
Variable ExtractComErrorInfo : exn -> val.
Variable format : val -> string.
Variable thread_id : nat.

Lemma run_test_total test_name test_func t w :
  exists v t' w',
    run_test ExtractComErrorInfo format test_name test_func t w = (Return v, t', w').
Proof.
  unfold run_test. destruct (test_func t w) as [[[v|e] t1] w1]; eauto.
Qed.

Lemma run_tests_total tests : forall t w,
  exists t' w', run_tests ExtractComErrorInfo format tests t w = (Return tt, t', w').
Proof.
  induction tests as [|[name f] tests IH]; intros t w; cbn [run_tests]; [eauto |].
  destruct (run_test_total name f t w) as (v & t1 & w1 & ->). apply IH.
Qed.

Lemma run_all_tests_dead tests t w session :
  fst (__init__ remote thread_id w) = Return session ->
  session !! "vv" = None ->
  run_all_tests remote ExtractComErrorInfo format thread_id tests t w
  = (Return (VBool false),
     mkTester (Some session)
       (results t ++
        [(("Connection test - Failed with error: "
           ++ format (ExtractComErrorInfo (AttributeError "vv")))%string, VBool false)]),
     snd (__init__ remote thread_id w)).
Proof.
  intros Hinit Hvv. unfold run_all_tests, run_test, test_connection.
  destruct (__init__ remote thread_id w) as [r w1]. cbn [fst snd] in *. subst r.
  now rewrite (vv_absent_raises session Hvv).
Qed.

Lemma run_all_tests_live tests t w session :
  fst (__init__ remote thread_id w) = Return session ->
  session !! "vv" = Some VCom ->
  exists t' w',
    run_all_tests remote ExtractComErrorInfo format thread_id tests t w
    = (Return (VBool true), t', w').
Proof.
  intros Hinit Hvv. unfold run_all_tests, run_test, test_connection.
  destruct (__init__ remote thread_id w) as [r w1]. cbn [fst] in *. subst r.
  unfold vv_is_None, self_vv, getattr. rewrite Hvv. cbn [is_None truthy negb].
  match goal with
  | |- context [run_tests _ _ tests ?t1 ?w1] =>
      destruct (run_tests_total tests t1 w1) as (t' & w' & ->)
  end.
  eauto.
Qed.

End TesterFacts.

(** X17. [run_all_tests] never raises.  When the constructor leaves the
    session without a handle, the liveness check of [test_connection]
    raises instead of reading [None]; [run_test] logs that failure as the
    only result, none of the other tests is run, and [run_all_tests]
    returns [False]: the message of [test_connection] for a failed
    connection is never logged.  When the session is connected it returns
    [True], whatever the other tests do. *)
Theorem run_all_tests_stops_on_dead_session remote ExtractComErrorInfo format thread_id
    tests t w session :
  fst (__init__ remote thread_id w) = Return session ->
  (session !! "vv" = None ->
   run_all_tests remote ExtractComErrorInfo format thread_id tests t w
   = (Return (VBool false),
      mkTester (Some session)
        (results t ++
         [(("Connection test - Failed with error: "
            ++ format (ExtractComErrorInfo (AttributeError "vv")))%string, VBool false)]),
      snd (__init__ remote thread_id w))) /\
  (session !! "vv" = Some VCom ->
   exists t' w',
     run_all_tests remote ExtractComErrorInfo format thread_id tests t w
     = (Return (VBool true), t', w')).
Proof.
  intros Hinit. split; intros Hvv.
  - now apply run_all_tests_dead.
  - now apply (run_all_tests_live remote ExtractComErrorInfo format thread_id tests t w session).
Qed.

(** The application against a program that never reports ready. *)
Lemma run_all_tests_stops_on_dead_session_witness :
  run_all_tests never_ready error_record (fun _ => "error") 1 [] (mkTester None []) world0
  = (Return (VBool false),
     mkTester (Some (<["_initialized_com" := VBool true]> (∅ : instance)))
       ([] ++ [(("Connection test - Failed with error: "
                 ++ (fun _ => "error") (error_record (AttributeError "vv")))%string,
                VBool false)]),
     snd (__init__ never_ready 1 world0)).
Proof.
  assert (Hinit : fst (__init__ never_ready 1 world0)
                  = Return (<["_initialized_com" := VBool true]> (∅ : instance)))
    by (vm_compute; reflexivity).
  apply (proj1 (run_all_tests_stops_on_dead_session never_ready error_record
                  (fun _ => "error") 1 [] (mkTester None []) world0
                  (<["_initialized_com" := VBool true]> (∅ : instance)) Hinit)).
  reflexivity.
Defined.

Local Open Scope Q_scope.

Lemma rate_bounds p f :
  (0 < p + f)%nat ->
  0 <= inject_Z (Z.of_nat p) / inject_Z (Z.of_nat (p + f)) * 100 <= 100.
Proof.
  intros Hpos.
  assert (Hp : 0 <= inject_Z (Z.of_nat p)) by (rewrite <- (Zle_Qle 0); lia).
  assert (Hle : inject_Z (Z.of_nat p) <= inject_Z (Z.of_nat (p + f)))
    by (rewrite <- Zle_Qle; lia).
  assert (Hb : 0 < inject_Z (Z.of_nat (p + f))) by (rewrite <- (Zlt_Qlt 0); lia).
  set (a := inject_Z (Z.of_nat p)) in *. set (b := inject_Z (Z.of_nat (p + f))) in *.
  assert (H0 : 0 <= a / b) by (apply Qle_shift_div_l; [exact Hb | lra]).
  assert (H1 : a / b <= 1) by (apply Qle_shift_div_r; [exact Hb | lra]).
  lra.
Qed.

Local Close Scope Q_scope.

Lemma summary_counts (l : list (string * val)) :
  (length (List.filter (fun r => is_True (snd r)) l)
   + length (List.filter (fun r => is_False (snd r)) l)
   + length (List.filter (fun r => is_None (snd r)) l) <= length l)%nat /\
  (Forall (fun r => is_True (snd r) || is_False (snd r) || is_None (snd r) = true) l ->
   (length (List.filter (fun r => is_True (snd r)) l)
    + length (List.filter (fun r => is_False (snd r)) l)
    + length (List.filter (fun r => is_None (snd r)) l) = length l)%nat).
Proof.
  induction l as [|[m v] l [IHle IHeq]]; [split; auto |].
  cbn [List.filter snd length]. split.
  - destruct v as [| [|] | | | | | | |]; cbn [is_True is_False is_None length]; lia.
  - intros Hall. inversion Hall as [|x l' Hv Hl]; subst. specialize (IHeq Hl).
    cbn [snd] in Hv.
    destruct v as [| [|] | | | | | | |]; cbn [is_True is_False is_None length] in *;
      try discriminate Hv; lia.
Qed.

(** X18. In the summary, passed, failed and skipped results never add up
    to more than the total, and to exactly the total when every result was
    logged with [True], [False] or [None]; the success rate lies between 0
    and 100 and is 0, without a division, when nothing passed or failed. *)
Theorem summary_counts_partition_the_results t :
  let '(total, passed, failed, skipped, success_rate) := summarize_results t in
  (passed + failed + skipped <= total)%nat /\
  (Forall (fun r => is_True (snd r) || is_False (snd r) || is_None (snd r) = true)
          (results t) ->
   (passed + failed + skipped = total)%nat) /\
  (0 <= success_rate <= 100)%Q /\
  ((passed + failed = 0)%nat -> success_rate = 0%Q).
Proof.
  unfold summarize_results.
  destruct (summary_counts (results t)) as [Hle Heq].
  split; [exact Hle |]. split; [exact Heq |].
  destruct (0 <? _ + _)%nat eqn:Hpos.
  - apply Nat.ltb_lt in Hpos. split; [now apply rate_bounds | lia].
  - split; [split; discriminate | reflexivity].
Qed.

(** Two passes, one failure and one skipped test. *)
Lemma summary_counts_partition_the_results_witness :
  summarize_results
    (mkTester None [("a", VBool true); ("b", VBool false); ("c", VNone); ("d", VBool true)])
  = (4%nat, 2%nat, 1%nat, 1%nat,
     (inject_Z (Z.of_nat 2) / inject_Z (Z.of_nat (2 + 1)) * 100)%Q) /\
  (2 + 1 + 1 = 4)%nat.
Proof.
  split; [reflexivity |].
  apply (proj1 (proj2 (summary_counts_partition_the_results
                         (mkTester None [("a", VBool true); ("b", VBool false);
                                         ("c", VNone); ("d", VBool true)])))).
  repeat constructor.
Defined.

(** * Properties of the expected channel configurations *)

Lemma get_channel_config_default i :
  i <> 0%Z -> i <> 1%Z ->
  ChannelConfigs.get_channel_config i = ChannelConfigs.DEFAULT_CHANNEL.
Proof.
  intros H0 H1. unfold ChannelConfigs.get_channel_config, ChannelConfigs.channel_specific.
  cbn [List.find fst snd].
  destruct (Z.eqb_spec 0 i) as [E|_]; [congruence |].
  destruct (Z.eqb_spec 1 i) as [E|_]; [congruence |].
  reflexivity.
Qed.

(** X19. The configuration module and the test application hold the same
    expectations.  [get_channel_config] answers the default configuration
    for every index other than 0 and 1, negative ones included, and only
    index 0 carries a TEDS block; the sixteen-entry lists it derives are,
    list by list, the literal tables written out in
    [test_input_configuration_file]; and [CHANNEL1_TEDS.as_tuples()] is the
    application's list [expected_teds_channel1], pair by pair and in the
    same order. *)
Theorem channel_tables_agree_with_application :
  (forall i, i <> 0%Z -> i <> 1%Z ->
     ChannelConfigs.get_channel_config i = ChannelConfigs.DEFAULT_CHANNEL) /\
  (forall i, ChannelConfigs.teds (ChannelConfigs.get_channel_config i) <> None <-> i = 0%Z) /\
  (forall i, ChannelConfigs.accel_power (ChannelConfigs.get_channel_config i) = true
             <-> i = 0%Z \/ i = 1%Z) /\
  ChannelConfigs.column ChannelConfigs.sensitivity = InputConfigurationTest.sensitivities /\
  ChannelConfigs.column ChannelConfigs.unit_ = InputConfigurationTest.units /\
  ChannelConfigs.column ChannelConfigs.label = InputConfigurationTest.labels /\
  ChannelConfigs.column ChannelConfigs.cap_coupled = InputConfigurationTest.cap_coupled /\
  ChannelConfigs.column ChannelConfigs.accel_power = InputConfigurationTest.accel_power /\
  ChannelConfigs.column ChannelConfigs.differential = InputConfigurationTest.differential /\
  ChannelConfigs.column ChannelConfigs.serial = InputConfigurationTest.serials /\
  ChannelConfigs.column ChannelConfigs.cal_date = InputConfigurationTest.cal_dates /\
  ChannelConfigs.as_tuples ChannelConfigs.CHANNEL1_TEDS
  = InputConfigurationTest.expected_teds_channel1.
Proof.
  split; [exact get_channel_config_default |].
  split.
  { intros i. destruct (Z.eq_dec i 0%Z) as [->|H0].
    - split; [reflexivity | intros _; vm_compute; discriminate].
    - destruct (Z.eq_dec i 1%Z) as [->|H1].
      + split; [intros H; exfalso; apply H; reflexivity | discriminate].
      + rewrite get_channel_config_default by assumption.
        split; [intros H; exfalso; apply H; reflexivity | congruence]. }
  split.
  { intros i. destruct (Z.eq_dec i 0%Z) as [->|H0]; [split; [auto | reflexivity] |].
    destruct (Z.eq_dec i 1%Z) as [->|H1]; [split; [auto | reflexivity] |].
    rewrite get_channel_config_default by assumption.
    split; [discriminate | intros [?|?]; congruence]. }
  repeat split; vm_compute; reflexivity.
Qed.

(** Channel 8 has the default configuration. *)
Lemma channel_tables_agree_with_application_witness :
  ChannelConfigs.get_channel_config 7 = ChannelConfigs.DEFAULT_CHANNEL.
Proof.
  apply (proj1 channel_tables_agree_with_application 7%Z); lia.
Defined.

(** * Properties of the TEDS validation *)

Lemma pair_eqb_eq (a e : string * string) :
  String.eqb (fst a) (fst e) && String.eqb (snd a) (snd e) = true -> a = e.
Proof.
  destruct a as [a1 a2], e as [e1 e2]; cbn [fst snd].
  intros H. apply andb_prop in H as [H1 H2].
  apply String.eqb_eq in H1, H2. congruence.
Qed.

Lemma found_filter_filled rows e :
  filled e = true ->
  InputConfigurationTest.found (List.filter filled rows) e
  = InputConfigurationTest.found rows e.
Proof.
  intros He. unfold InputConfigurationTest.found.
  induction rows as [|a rows IH]; [reflexivity |].
  cbn [List.filter existsb].
  destruct (filled a) eqn:Ha.
  - cbn [existsb]. rewrite IH. reflexivity.
  - rewrite IH.
    destruct (String.eqb (fst a) (fst e) && String.eqb (snd a) (snd e)) eqn:E; [| reflexivity].
    apply pair_eqb_eq in E. subst a. congruence.
Qed.

Lemma found_In rows e :
  In e rows -> InputConfigurationTest.found rows e = true.
Proof.
  intros H. unfold InputConfigurationTest.found. apply existsb_exists.
  exists e. split; [assumption |]. rewrite !String.eqb_refl. reflexivity.
Qed.

Lemma matches_filter_filled expected rows :
  (forall e, In e expected -> filled e = true) ->
  InputConfigurationTest.matches expected (List.filter filled rows)
  = InputConfigurationTest.matches expected rows.
Proof.
  intros H. unfold InputConfigurationTest.matches. f_equal.
  induction expected as [|e expected IH]; [reflexivity |].
  cbn [List.filter]. rewrite found_filter_filled by (apply H; left; reflexivity).
  rewrite IH by (intros e' He'; apply H; right; assumption). reflexivity.
Qed.

Lemma matches_le expected rows :
  (InputConfigurationTest.matches expected rows <= length expected)%nat.
Proof. unfold InputConfigurationTest.matches. apply List.filter_length_le. Qed.

Lemma matches_all expected rows :
  (forall e, In e expected -> In e rows) ->
  InputConfigurationTest.matches expected rows = length expected.
Proof.
  intros H. unfold InputConfigurationTest.matches. f_equal.
  induction expected as [|e expected IH]; [reflexivity |].
  cbn [List.filter]. rewrite found_In by (apply H; left; reflexivity).
  rewrite IH by (intros e' He'; apply H; right; assumption). reflexivity.
Qed.

Lemma validation_threshold rows :
  InputConfigurationTest.validation InputConfigurationTest.expected_teds_channel1 rows
  = (19 <=? InputConfigurationTest.matches InputConfigurationTest.expected_teds_channel1 rows)%nat.
Proof.
  unfold InputConfigurationTest.validation.
  pose proof (matches_le InputConfigurationTest.expected_teds_channel1 rows) as Hle.
  change (length InputConfigurationTest.expected_teds_channel1) with 21%nat in *.
  generalize dependent (InputConfigurationTest.matches
                          InputConfigurationTest.expected_teds_channel1 rows).
  intros m Hle.
  do 22 (destruct m as [|m]; [vm_compute; reflexivity |]).
  exfalso. lia.
Qed.

(** X20. The check of channel 1's TEDS sheet in
    [test_input_configuration_file] is not affected by the cleaning that
    [Teds] applies to the sheet.  Whenever every expected pair has two
    non-empty cells, the number of expected pairs found among the rows that
    [Teds] keeps (those with two non-empty cells) is the number found among
    all rows the endpoint sent, so the verdict is the same; and a sheet
    that contains every expected pair is counted in full.  For the
    application's own list of 21 expected pairs, all of them with two
    non-empty cells, the logged verdict is a pass exactly when at least 19
    of them are found.  (The percentage is taken as an exact quotient; with
    21 expected pairs no quotient lies within 0.4 of the threshold 90, so
    the floating-point comparison of the source decides the same way.) *)
Theorem teds_validation_survives_cleaning (expected rows : list (string * string)) :
  (forall e, In e expected -> filled e = true) ->
  InputConfigurationTest.matches expected (List.filter filled rows)
  = InputConfigurationTest.matches expected rows /\
  InputConfigurationTest.validation expected (List.filter filled rows)
  = InputConfigurationTest.validation expected rows /\
  ((forall e, In e expected -> In e rows) ->
   InputConfigurationTest.matches expected (List.filter filled rows) = length expected) /\
  (expected = InputConfigurationTest.expected_teds_channel1 ->
   InputConfigurationTest.validation expected (List.filter filled rows)
   = (19 <=? InputConfigurationTest.matches expected rows)%nat).
Proof.
  intros H.
  pose proof (matches_filter_filled expected rows H) as Hm.
  split; [exact Hm |].
  split; [unfold InputConfigurationTest.validation; rewrite Hm; reflexivity |].
  split.
  - intros Hall. rewrite Hm. apply matches_all. exact Hall.
  - intros ->. rewrite validation_threshold, Hm. reflexivity.
Qed.

Lemma teds_validation_survives_cleaning_witness :
  let expected := InputConfigurationTest.expected_teds_channel1 in
  let rows := ChannelConfigs.as_tuples ChannelConfigs.CHANNEL1_TEDS ++ repeat ("", "") 11 in
  forallb filled expected = true /\
  InputConfigurationTest.matches expected (List.filter filled rows) = 21%nat /\
  InputConfigurationTest.validation expected (List.filter filled rows) = true.
Proof.
  intros expected rows.
  assert (Hf : forallb filled expected = true) by (vm_compute; reflexivity).
  assert (H : forall e, In e expected -> filled e = true)
    by (apply forallb_forall; exact Hf).
  pose proof (teds_validation_survives_cleaning expected rows H) as (Hm & Hv & _ & Ht).
  split; [exact Hf |].
  split.
  - rewrite Hm. vm_compute. reflexivity.
  - rewrite (Ht eq_refl). vm_compute. reflexivity.
Defined.

(** * Properties of the connection fixture *)

Lemma init_shape remote thread_id w :
  exists self w', __init__ remote thread_id w = (Return self, w') /\
    (self !! "vv" = None \/ exists vv, self !! "vv" = Some vv /\ truthy vv = true).
Proof.
  unfold __init__.
  destruct (init_com_spec thread_id w) as (w1 & Hinit & _).
  rewrite (bind_Return _ _ _ _ _ Hinit).
  destruct (connect_result remote
              (<["_initialized_com" := VBool (negb (registered thread_id w))]> ∅) w1)
    as (self & w2 & Hc & _ & _ & Hself).
  exists self, w2. split; [exact Hc |].
  destruct Hself as [-> | (vv & -> & Hvv)].
  - left. now rewrite lookup_insert_ne.
  - right. exists vv. now rewrite lookup_insert_eq.
Qed.

Lemma hasattr_method (self : instance) name :
  name ∈ class_attrs -> hasattr self name = true.
Proof.
  intros H. unfold hasattr, getattr. destruct (self !! name); [reflexivity |].
  now rewrite bool_decide_eq_true_2.
Qed.

(** X21. The fixture [vv] of the test suite.  Its set-up never ends in
    [pytest.fail]: it yields a session whose handle tested true, or, when
    the constructor did not connect, the test [connection.vv is None]
    itself raises AttributeError.  Its clean-up never raises, whatever the
    endpoint answers: on a session without a handle it sends nothing; on a
    connected one it reads [Running] once and sends [StopTest] exactly when
    that read returned a true value, and a failure of either request is
    swallowed. *)
Theorem fixture_setup_never_fails_and_cleanup_never_raises remote thread_id :
  (forall w,
     (exists connection vv w',
        vv_setup remote thread_id w = (Return (Yielded connection), w') /\
        connection !! "vv" = Some vv /\ truthy vv = true) \/
     (exists w', vv_setup remote thread_id w = (Raise (AttributeError "vv"), w'))) /\
  (forall connection w,
     connection !! "vv" = None ->
     vv_cleanup remote connection w = (Return tt, w)) /\
  (forall connection w,
     connection !! "vv" = Some VCom ->
     let read := remote w (PropGet "Running") in
     let w1 := logged w (PropGet "Running") read in
     vv_cleanup remote connection w
     = (Return tt,
        match read with
        | Return v => if truthy v
                      then logged w1 (Invoke "StopTest" []) (remote w1 (Invoke "StopTest" []))
                      else w1
        | Raise _ => w1
        end)).
Proof.
  split; [| split].
  - intros w. unfold vv_setup.
    destruct (init_shape remote thread_id w) as (self & w' & Hinit & [Hvv | (vv & Hvv & Ht)]).
    + right. exists w'. rewrite (bind_Return _ _ _ _ _ Hinit).
      unfold bind, lift. now rewrite (vv_absent_raises self Hvv).
    + left. exists self, vv, w'. rewrite (bind_Return _ _ _ _ _ Hinit).
      unfold bind, lift, vv_is_None, self_vv, getattr. rewrite Hvv.
      destruct vv; cbn in Ht |- *; try discriminate; auto.
  - intros connection w Hvv. unfold vv_cleanup.
    rewrite hasattr_method by (vm_compute; set_solver).
    unfold try_except, IsRunning, vv_flag, vv_get, bind, lift, self_vv, getattr.
    rewrite Hvv. reflexivity.
  - intros connection w Hvv read w1. unfold vv_cleanup.
    rewrite hasattr_method by (vm_compute; set_solver).
    unfold try_except, IsRunning, StopTest, vv_flag, vv_invoke, vv_get, bind, lift,
      self_vv, getattr, obj_get, obj_invoke, call, ret.
    rewrite Hvv. subst w1 read. unfold logged.
    destruct (remote w (PropGet "Running")) as [v|e]; [| reflexivity].
    cbn [truthy]. destruct (truthy v); [| reflexivity].
    match goal with |- context [remote ?w' (Invoke "StopTest" [])] =>
      destruct (remote w' (Invoke "StopTest" [])); reflexivity end.
Qed.

(** The clean-up on a session without a handle, and on a connected one
    whose test is reported as not running. *)
Lemma fixture_setup_never_fails_and_cleanup_never_raises_witness :
  vv_cleanup never_ready (∅ : instance) world0 = (Return tt, world0) /\
  vv_cleanup never_ready connected world0
  = (Return tt, logged world0 (PropGet "Running") (Return (VBool false))).
Proof.
  pose proof (fixture_setup_never_fails_and_cleanup_never_raises never_ready 1%nat)
    as (_ & Hdead & Hlive).
  split.
  - apply Hdead. reflexivity.
  - apply (Hlive connected world0). reflexivity.
Defined.
